(** * Heat-hazard pipeline: a shallow embedding and its verified properties

    The development follows the Python sources
      - [ML/data_preparation.py], [ML/prep_data.py]  (joins, rolling windows)
      - [ML/improved_model.py]                       (features, threshold)
      - [inference/main.py]                          (serving)
    Part I embeds the code; Part II states and proves the properties.

    Numbers.  Columns that the code only adds, divides and compares are
    modelled by exact rationals ([Qc], Leibniz equality); rounding of
    binary64 is not modelled.  The feature vector, which also needs
    [sin], [cos], [hypot] and [pi], is generic in an interface of float
    operations. *)

From Stdlib Require Import ZArith QArith Qcanon List Lia String Ascii Bool.
From Stdlib Require Import Sorting.Sorted Lqa DecimalString.
From stdpp Require Import base numbers list gmap strings.
Import ListNotations.

Local Open Scope Qc_scope.

(* ===================================================================== *)
(** * Part I.  The embedding                                              *)
(* ===================================================================== *)

(** Decimal literals of the source. *)
Definition dec (n : Z) (d : positive) : Qc := Q2Qc (n # d).

(** Order facts between a score and the literals of the source, decided
    on the underlying fractions. *)
Ltac qc_order :=
  unfold Qclt, Qcle, dec in *; cbn [this Q2Qc] in *;
  repeat match goal with
         | H : context [Qred ?q] |- _ =>
             let v := eval vm_compute in (Qred q) in change (Qred q) with v in H
         | |- context [Qred ?q] =>
             let v := eval vm_compute in (Qred q) in change (Qred q) with v
         end;
  lra.

(** Integers read as numbers of the column type. *)
Definition of_Z (z : Z) : Qc := Q2Qc (inject_Z z).

(** ** Python and pandas primitives of the scripts

    A function of the scripts returns a value or raises; [print] calls
    are left out, except where evaluating their argument can raise. *)
Module Py.

Inductive exn :=
| ValueError (msg : string)
| KeyError (key : string)
| ZeroDivisionError (msg : string)
| OSError (msg : string).

Definition result (A : Type) : Type := exn + A.

Definition bind {A B} (m : result A) (k : A -> result B) : result B :=
  match m with
  | inl e => inl e
  | inr a => k a
  end.

(** A loop that calls [f] on each element in turn and collects the
    results; the first exception ends it. *)
Fixpoint for_each {A B} (f : A -> result B) (l : list A) : result (list B) :=
  match l with
  | [] => inr []
  | x :: rest =>
      bind (f x) (fun y => bind (for_each f rest) (fun ys => inr (y :: ys)))
  end.

(** [s.endswith(suffix)] *)
Definition endswith (s suffix : string) : bool :=
  String.prefix (String.rev suffix) (String.rev s).

(** [os.path.join(a, b)] for a relative [b], as [posixpath] joins. *)
Definition path_join (a b : string) : string :=
  if (String.eqb a "" || endswith a "/")%bool then (a ++ b)%string
  else (a ++ "/" ++ b)%string.

(** The files that the loaders read: which paths exist, and what the
    readers of pandas return or raise on a path. *)
Record files (T : Type) := {
  exists_ : string -> bool;
  read_json : string -> result T;
  read_csv : string -> result T
}.
Arguments exists_ {T}.
Arguments read_json {T}.
Arguments read_csv {T}.

(** [Series.max()] of a column of times; [None] is NaT, the maximum of
    an empty column. *)
Definition series_max (times : list Z) : option Z :=
  match times with
  | [] => None
  | t :: rest => Some (fold_left Z.max rest t)
  end.

(** [pd.unique] and [Series.unique]: the distinct values in order of
    first appearance. *)
Fixpoint unique_from {A} `{EqDecision A} (seen l : list A) : list A :=
  match l with
  | [] => []
  | x :: rest =>
      if decide (x ∈ seen) then unique_from seen rest
      else x :: unique_from (x :: seen) rest
  end.

Definition unique {A} `{EqDecision A} (l : list A) : list A := unique_from [] l.

(** [pd.merge(left, right, how='left')] on one key: the left rows in
    order, each once per right row with the same key, in the order of
    the right frame; a left row without a partner is kept with nulls. *)
Definition merge_left {L R} (left_on : L -> Z) (right_on : R -> Z)
    (left : list L) (right : list R) : list (L * option R) :=
  flat_map (fun l =>
              match List.filter (fun r => (right_on r =? left_on l)%Z) right with
              | [] => [(l, None)]
              | rs => map (fun r => (l, Some r)) rs
              end) left.

End Py.

(** ** Rolling windows

    [Series.rolling(window=W, min_periods=1).mean()], as pandas runs it:
    an indexer computes half-open bounds [(start, end)] per position and
    [roll_mean] keeps a running count and sum that it updates by removing
    the observations that left the window and adding the ones that
    entered it.  Observations are numbers (no NaN); the compensated
    summation and the sign clamp of [calc_mean] only guard rounding and
    have no counterpart in exact arithmetic. *)
Module Rolling.

(** The slice [values[lo:hi]]. *)
Definition slice {A} (values : list A) (lo hi : nat) : list A :=
  firstn (hi - lo)%nat (skipn lo values).

Definition Qcsum (l : list Qc) : Qc := fold_right Qcplus 0 l.

(** Arithmetic mean of a window; pandas yields NaN ([None]) for an
    empty one. *)
Definition mean (l : list Qc) : option Qc :=
  match l with
  | [] => None
  | _ => Some (Qcsum l / of_Z (Z.of_nat (length l)))
  end.

(** [FixedWindowIndexer.get_window_bounds]: [end = i + 1] and
    [start = end - W], both clipped to [0, n]. *)
Definition fixed_bounds (W n : nat) : list (nat * nat) :=
  map (fun i => (Nat.min (S i - W) n, Nat.min (S i) n)%nat) (seq 0 n).

(** Running state of [roll_mean]: number of observations and their sum. *)
Definition acc : Type := Z * Qc.

Definition acc0 : acc := (0%Z, 0).

Definition add_mean (st : acc) (val : Qc) : acc :=
  ((fst st + 1)%Z, snd st + val).

Definition remove_mean (st : acc) (val : Qc) : acc :=
  ((fst st - 1)%Z, snd st - val).

(** [for j in range(lo, hi): add_mean(values[j], ...)] *)
Definition add_range (values : list Qc) (lo hi : nat) (st : acc) : acc :=
  fold_left add_mean (slice values lo hi) st.

Definition remove_range (values : list Qc) (lo hi : nat) (st : acc) : acc :=
  fold_left remove_mean (slice values lo hi) st.

(** [calc_mean]: a value once [nobs >= minp] and [nobs > 0], else NaN. *)
Definition calc_mean (minp : Z) (st : acc) : option Qc :=
  if ((minp <=? fst st) && (0 <? fst st))%Z
  then Some (snd st / of_Z (fst st))
  else None.

(** The loop of [roll_mean].  [prev] holds the bounds of the previous
    position; the window is rebuilt from scratch at the first position
    and whenever it does not overlap the previous one
    ([s >= end[i - 1]]). *)
Fixpoint roll_loop (minp : Z) (values : list Qc) (bounds : list (nat * nat))
         (prev : option (nat * nat)) (st : acc) : list (option Qc) :=
  match bounds with
  | [] => []
  | (s, e) :: rest =>
      let st' :=
        match prev with
        | None => add_range values s e acc0
        | Some (ps, pe) =>
            if (pe <=? s)%nat then add_range values s e acc0
            else add_range values pe e (remove_range values ps s st)
        end in
      calc_mean minp st' :: roll_loop minp values rest (Some (s, e)) st'
  end.

Definition roll_mean (minp : Z) (values : list Qc) (bounds : list (nat * nat))
  : list (option Qc) :=
  roll_loop minp values bounds None acc0.

(** [series.rolling(window=W, min_periods=1).mean()] *)
Definition rolling_mean (W : nat) (values : list Qc) : list (option Qc) :=
  roll_mean 1 values (fixed_bounds W (length values)).

(** The running state that describes exactly the window [values[s:e]]. *)
Definition window_acc (values : list Qc) (s e : nat) : acc :=
  (Z.of_nat (length (slice values s e)), Qcsum (slice values s e)).

(** Bounds that only move forward, as every pandas indexer used here
    produces them. *)
Fixpoint forward (prev : option (nat * nat)) (bounds : list (nat * nat)) : Prop :=
  match bounds with
  | [] => True
  | (s, e) :: rest =>
      (s <= e)%nat
      /\ match prev with
         | None => True
         | Some (ps, pe) => (ps <= s)%nat /\ (pe <= e)%nat
         end
      /\ forward (Some (s, e)) rest
  end.

Definition described (values : list Qc) (prev : option (nat * nat)) (st : acc) : Prop :=
  match prev with
  | None => True
  | Some (ps, pe) => st = window_acc values ps pe
  end.

(** The trailing window of the specification: positions
    [max(0, i - W + 1) .. i], both ends included. *)
Definition trailing_window (W : nat) (values : list Qc) (i : nat) : list Qc :=
  slice values (Z.to_nat (Z.max 0 (Z.of_nat i - Z.of_nat W + 1))) (i + 1)%nat.

(** *** Grouped rolling: [df.groupby(keys)[col].rolling(W, min_periods=1).mean()]

    A frame is its rows in order; the position of a row stands for its
    index label.  Groups are taken in order of first appearance, which
    on the frame sorted by the keys (as [add_rolling_features] sorts
    it) is the order of the keys. *)
Section Grouped.
Context {K : Type} `{EqDecision K}.

Definition group_keys (rows : list (K * Qc)) : list K :=
  remove_dups (map fst rows).

(** [grouper.indices[k]]: the positions of the rows of group [k]. *)
Fixpoint indices_from (k : K) (rows : list (K * Qc)) (pos : nat) : list nat :=
  match rows with
  | [] => []
  | (k', _) :: rest =>
      if decide (k' = k) then pos :: indices_from k rest (S pos)
      else indices_from k rest (S pos)
  end.

Definition group_indices (k : K) (rows : list (K * Qc)) : list nat :=
  indices_from k rows 0.

(** The observations of group [k], in frame order. *)
Definition group_values (k : K) (rows : list (K * Qc)) : list Qc :=
  map snd (filter (fun r => fst r = k) rows).

(** [GroupbyIndexer.get_window_bounds]: the bounds of each group are
    those of the fixed indexer on the group alone, moved by the
    offset of the group in the regrouped values. *)
Fixpoint groupby_bounds (W : nat) (sizes : list nat) (offset : nat)
  : list (nat * nat) :=
  match sizes with
  | [] => []
  | n :: rest =>
      map (fun b => (offset + fst b, offset + snd b)%nat) (fixed_bounds W n)
      ++ groupby_bounds W rest (offset + n)%nat
  end.

(** [values.take(group_indices)] *)
Definition take_at (values : list Qc) (idx : list nat) : list Qc :=
  map (fun i => nth i values 0) idx.

(** The rolled series: pairs of index label and value, in group order
    (after [reset_index(level=group_cols, drop=True)]). *)
Definition groupby_rolling_series (W : nat) (rows : list (K * Qc))
  : list (nat * option Qc) :=
  let groups := map (fun k => group_indices k rows) (group_keys rows) in
  let order := concat groups in
  let values := take_at (map snd rows) order in
  let bounds := groupby_bounds W (map (@length nat) groups) 0 in
  combine order (roll_mean 1 values bounds).

(** The entry of a series at a label, if the label occurs. *)
Fixpoint series_lookup (i : nat) (s : list (nat * option Qc)) : option (option Qc) :=
  match s with
  | [] => None
  | (j, v) :: rest => if (i =? j)%nat then Some v else series_lookup i rest
  end.

(** [df[col] = series]: assignment aligns on the index label; a label
    absent from the series receives NaN. *)
Definition groupby_rolling (W : nat) (rows : list (K * Qc))
  : list (option Qc) :=
  let s := groupby_rolling_series W rows in
  map (fun i => default None (series_lookup i s)) (seq 0 (length rows)).

(** Position of row [i] inside its own group: the number of earlier rows
    with the same key. *)
Definition rank (k : K) (rows : list (K * Qc)) (i : nat) : nat :=
  length (group_values k (firstn i rows)).

(** The series of one group rolled alone, labelled by its rows. *)
Definition group_series (W : nat) (rows : list (K * Qc)) (k : K)
  : list (nat * option Qc) :=
  combine (group_indices k rows) (rolling_mean W (group_values k rows)).
End Grouped.

End Rolling.

(** ** Sorting

    [DataFrame.sort_values]: rows in ascending order of a key.  Here
    rows with equal keys keep their input order; the default sort of
    pandas does not promise their order, and the properties of sorted
    frames below are stated along the order of the sorted frame. *)
Fixpoint insert_sorted {A} (le : A -> A -> bool) (x : A) (l : list A) : list A :=
  match l with
  | [] => [x]
  | y :: l' => if le x y then x :: l else y :: insert_sorted le x l'
  end.

Definition sort_values {A} (le : A -> A -> bool) (l : list A) : list A :=
  fold_right (insert_sorted le) [] l.

(** Comparison of two rows by an integer key. *)
Definition key_leb {A} (key : A -> Z) (a b : A) : bool := (key a <=? key b)%Z.

Definition Qcleb (x y : Qc) : bool := bool_decide (x <= y).
Definition Qceqb (x y : Qc) : bool := bool_decide (x = y).
Definition Qcltb (x y : Qc) : bool := bool_decide (x < y).

(** ** Nearest-point join: [sjoin_nearest(left, right, how='left')]

    Generic in the rows of the two frames; [left_xy] and [right_xy] read
    the planar coordinates of their point geometries. *)
Module Geo.

(** The order of the hits of one query.  The spatial index returns the
    candidates that it finds in the order of its tree, which is not the
    order of the frame: [arrange p right hits] is the list [hits] of the
    query row [p] as the index built on [right] returns it, some
    rearrangement of [hits]. *)
Record index_order (L R : Type) := {
  arrange : L -> list R -> list R -> list R;
  arrange_perm : forall p right hits, Permutation (arrange p right hits) hits
}.
Arguments arrange {L R}.
Arguments arrange_perm {L R}.

(** Two index orders: the order of the frame, and its reverse. *)
Definition input_order {L R : Type} : index_order L R :=
  {| arrange := fun _ _ hits => hits;
     arrange_perm := fun _ _ hits => Permutation_refl hits |}.

Definition reverse_order {L R : Type} : index_order L R :=
  {| arrange := fun _ _ hits => rev hits;
     arrange_perm := fun _ _ hits => Permutation_sym (Permutation_rev hits) |}.

Section Nearest.
Context {L R : Type} (left_xy : L -> Qc * Qc) (right_xy : R -> Qc * Qc).
Context (index : index_order L R).

(** Distances are compared through their squares, which orders them as
    the distances themselves and stays rational. *)
Definition dist2 (a b : Qc * Qc) : Qc :=
  (fst a - fst b) * (fst a - fst b) + (snd a - snd b) * (snd a - snd b).

Definition row_dist2 (p : L) (c : R) : Qc := dist2 (left_xy p) (right_xy c).

(** [max_distance]: candidates farther than the cutoff are not looked at. *)
Definition within_cutoff (max_distance : option Qc) (d2 : Qc) : bool :=
  match max_distance with
  | None => true
  | Some d => Qcleb d2 (d * d)
  end.

Fixpoint minimum (l : list Qc) : option Qc :=
  match l with
  | [] => None
  | x :: rest =>
      match minimum rest with
      | None => Some x
      | Some m => Some (if Qcleb x m then x else m)
      end
  end.

(** The spatial index is queried with [return_all=True]: every candidate
    at the smallest distance is returned, in the order of the index. *)
Definition nearest (max_distance : option Qc) (p : L) (candidates : list R) : list R :=
  let near :=
    List.filter (fun c => within_cutoff max_distance (row_dist2 p c)) candidates in
  match minimum (map (row_dist2 p) near) with
  | None => []
  | Some m =>
      arrange index p candidates (List.filter (fun c => Qceqb (row_dist2 p c) m) near)
  end.

(** A candidate is a nearest one when it lies within the cutoff and no
    candidate within the cutoff is closer. *)
Definition is_nearest (max_distance : option Qc) (p : L) (candidates : list R)
    (c : R) : Prop :=
  In c candidates
  /\ within_cutoff max_distance (row_dist2 p c) = true
  /\ forall c', In c' candidates ->
       within_cutoff max_distance (row_dist2 p c') = true ->
       row_dist2 p c <= row_dist2 p c'.

(** One joined row per pair of left row and nearest candidate, the left
    rows in their order; with [how='left'], a left row without a match
    keeps one row, whose inherited fields are all null ([None]). *)
Definition sjoin_nearest (max_distance : option Qc)
    (left : list L) (right : list R) : list (L * option R) :=
  flat_map (fun p =>
              match nearest max_distance p right with
              | [] => [(p, None)]
              | cs => map (fun c => (p, Some c)) cs
              end) left.

(** The join as the specification words it: one row per left row, with
    the first candidate, in input order, among those at the smallest
    distance. *)
Fixpoint first_nearest (p : L) (candidates : list R) : option R :=
  match candidates with
  | [] => None
  | c :: rest =>
      match first_nearest p rest with
      | None => Some c
      | Some c' => if Qcleb (row_dist2 p c) (row_dist2 p c') then Some c else Some c'
      end
  end.

Definition sjoin_first_nearest (left : list L) (right : list R) : list (L * option R) :=
  map (fun p => (p, first_nearest p right)) left.

End Nearest.
(** [gpd.sjoin(left, right, how='left', predicate='intersects')]: one
    joined row per pair of a left row and a right geometry that it
    intersects; a left row that intersects none is kept with nulls. *)
Definition sjoin {L R} (intersects : L -> R -> bool)
    (left : list L) (right : list R) : list (L * option R) :=
  flat_map (fun p =>
              match List.filter (intersects p) right with
              | [] => [(p, None)]
              | rs => map (fun r => (p, Some r)) rs
              end) left.

End Geo.

(** ** Backward asof join: [pd.merge_asof(direction='backward')]

    pandas refuses keys that are not sorted; the scan below is what it
    runs on sorted keys. *)
Module Asof.

(** [while right_pos < right_size and right_values[right_pos] <= left_value:
       right_pos += 1], as the number of steps taken on the rest of the
    right keys. *)
Fixpoint skip_le (rest : list Z) (left_value : Z) : nat :=
  match rest with
  | [] => 0
  | rv :: rest' => if (rv <=? left_value)%Z then S (skip_le rest' left_value) else 0
  end.

(** [asof_join_backward]: one pass over the left keys with a cursor in
    the right keys.  After the scan the cursor steps back by one; the
    match is that position, and [-1] (no match, here [None]) when the
    cursor did not leave the start.  A negative cursor restarts at [0],
    which is the truncated predecessor below. *)
Fixpoint asof_join_backward (right_values : list Z) (left_values : list Z)
    (right_pos : nat) : list (option nat) :=
  match left_values with
  | [] => []
  | lv :: rest =>
      let pos := (right_pos + skip_le (skipn right_pos right_values) lv)%nat in
      (if (pos =? 0)%nat then None else Some (pos - 1)%nat)
        :: asof_join_backward right_values rest (pos - 1)
  end.

(** The property of one match: position [m] in the right keys [rvs] for
    the left key [lv]. *)
Definition backward_match (rvs : list Z) (lv : Z) (m : option nat) : Prop :=
  match m with
  | Some j =>
      (exists x, rvs !! j = Some x /\ (x <= lv)%Z)
      /\ (forall j' x, (j < j')%nat -> rvs !! j' = Some x ->
                       StronglySorted Z.le rvs -> (lv < x)%Z)
  | None => forall x, x ∈ rvs -> StronglySorted Z.le rvs -> (lv < x)%Z
  end
  /\ ((forall x, x ∈ rvs -> (lv < x)%Z) -> m = None).

Definition merge_asof {L R} (left_on : L -> Z) (right_on : R -> Z)
    (left : list L) (right : list R) : list (L * option R) :=
  let idx := asof_join_backward (map right_on right) (map left_on left) 0 in
  combine left (map (fun o => match o with Some j => right !! j | None => None end) idx).

End Asof.

(** ** [prep_data.py] *)
Module Prep.

(** Time stamps count seconds since the epoch. *)
Record incident := {
  i_timestamp : Z;
  i_lat : Qc;
  i_lon : Qc;
  i_type : string
}.

Record weather := {
  w_timestamp : Z;
  w_lat : Qc;
  w_lon : Qc;
  w_temp : Qc;
  w_humidity : Qc;
  w_wind : Qc
}.

(** [gpd.points_from_xy(df['lon'], df['lat'])] *)
Definition incident_xy (p : incident) : Qc * Qc := (i_lon p, i_lat p).
Definition weather_xy (w : weather) : Qc * Qc := (w_lon w, w_lat w).

(** [incidents_gdf.sjoin_nearest(weather_gdf[...], how='left',
      distance_col='weather_dist', max_distance=0.05)] *)
Definition join_nearest_weather (index : Geo.index_order incident weather)
    (incidents : list incident) (ws : list weather)
  : list (incident * option weather) :=
  Geo.sjoin_nearest incident_xy weather_xy index (Some (dec 5 100)) incidents ws.

(** [Series.dt.floor('H')] *)
Definition floor_hour (t : Z) : Z := (t / 3600 * 3600)%Z.

(** The weather frame sorted by time, with its rolling columns
    ([window=72, min_periods=1]) and its floored hour. *)
Record weather_rolled := {
  wr_weather : weather;
  temp_roll3 : option Qc;
  humidity_roll3 : option Qc;
  wind_roll3 : option Qc
}.

Definition weather_hour (w : weather_rolled) : Z :=
  floor_hour (w_timestamp (wr_weather w)).

Definition roll_weather (ws : list weather) : list weather_rolled :=
  let ws := sort_values (key_leb w_timestamp) ws in
  let col (f : weather -> Qc) := Rolling.rolling_mean 72 (map f ws) in
  let at_ (c : list (option Qc)) (i : nat) := default None (c !! i) in
  map (fun i =>
         {| wr_weather := nth i ws {| w_timestamp := 0; w_lat := 0; w_lon := 0;
                                      w_temp := 0; w_humidity := 0; w_wind := 0 |};
            temp_roll3 := at_ (col w_temp) i;
            humidity_roll3 := at_ (col w_humidity) i;
            wind_roll3 := at_ (col w_wind) i |})
      (seq 0 (length ws)).

(** The rows that reach the temporal step carry the incident and what
    the spatial joins attached to it. *)
Definition incident_hour {A} (row : incident * A) : Z :=
  floor_hour (i_timestamp (fst row)).

(** The temporal step of [preprocess]: both frames sorted by their
    floored hour, then joined backward. *)
Definition align_hourly {A} (rows : list (incident * A)) (ws : list weather)
  : list ((incident * A) * option weather_rolled) :=
  Asof.merge_asof incident_hour weather_hour
    (sort_values (key_leb incident_hour) rows)
    (sort_values (key_leb weather_hour) (roll_weather ws)).

(** [load_weather_data]: the rows of every [.csv] file of the directory,
    in the order of the listing.  [pd.concat] refuses an empty list. *)
Definition load_weather_data {A} (listdir : string -> Py.result (list string))
    (read_csv : string -> Py.result (list A)) (weather_dir : string)
  : Py.result (list A) :=
  Py.bind (listdir weather_dir) (fun names =>
  Py.bind (Py.for_each (fun fname => read_csv (Py.path_join weather_dir fname))
                       (List.filter (fun fname => Py.endswith fname ".csv") names))
          (fun dfs =>
  match dfs with
  | [] => inl (Py.ValueError "No objects to concatenate")
  | _ => inr (concat dfs)
  end)).

(** [load_incidents] *)
Definition load_incidents {T} (fs : Py.files T) (incidents_path : string)
  : Py.result T :=
  if Py.endswith incidents_path ".json" then Py.read_json fs incidents_path
  else if Py.endswith incidents_path ".csv" then Py.read_csv fs incidents_path
  else inl (Py.ValueError "Incidents file must be .json or .csv").

(** Lines 78-82 of [preprocess]: the columns of the result. *)
Definition base_feature_cols : list string :=
  ["lat"; "lon"; "timestamp"; "type"; "temp"; "humidity"; "wind";
   "temp_roll3"; "humidity_roll3"; "wind_roll3"; "hour"; "dayofweek"].

Definition feature_cols (landcover_columns : list string) : list string :=
  fold_left (fun feature_cols col =>
               if negb (bool_decide (col ∈ feature_cols))
                  && negb (String.eqb col "geometry")
               then feature_cols ++ [col] else feature_cols)
            landcover_columns base_feature_cols.

End Prep.

(** ** [data_preparation.py] *)
Module DataPreparation.

(** A daily weather record; [time] counts days. *)
Record weather_day := {
  time : Z;
  temp : Qc;
  tavg : Qc;
  tmin : Qc;
  prcp : Qc
}.

Record weather_rolled := {
  day : weather_day;
  temp_roll3 : option Qc;
  tavg_roll3 : option Qc;
  tmin_roll3 : option Qc
}.

(** [compute_rolling_averages]: the frame sorted by time, with three
    rolling columns of window 3. *)
Definition compute_rolling_averages (df : list weather_day) : list weather_rolled :=
  let df := sort_values (key_leb time) df in
  let temp_roll3 := Rolling.rolling_mean 3 (map temp df) in
  let tavg_roll3 := Rolling.rolling_mean 3 (map tavg df) in
  let tmin_roll3 := Rolling.rolling_mean 3 (map tmin df) in
  map (fun r => {| day := fst r;
                   temp_roll3 := fst (snd r);
                   tavg_roll3 := fst (snd (snd r));
                   tmin_roll3 := snd (snd (snd r)) |})
      (combine df (combine temp_roll3 (combine tavg_roll3 tmin_roll3))).

Record incident := {
  timestamp : Z;
  lat : Qc;
  lon : Qc;
  incident_type : string;
  severity : Z
}.

(** [gpd.points_from_xy(incidents_df['lon'], incidents_df['lat'])] *)
Definition incident_xy (p : incident) : Qc * Qc := (lon p, lat p).

(** [gpd.points_from_xy([12.9716] * n, [77.5946] * n)]: every weather
    record is placed at the same point. *)
Definition weather_xy (w : weather_rolled) : Qc * Qc :=
  (dec 129716 10000, dec 775946 10000).

(** [gpd.sjoin_nearest(incidents_gdf, weather_gdf[...], how='left',
      distance_col='weather_dist')] *)
Definition join_nearest_weather (index : Geo.index_order incident weather_rolled)
    (incidents : list incident) (ws : list weather_rolled)
  : list (incident * option weather_rolled) :=
  Geo.sjoin_nearest incident_xy weather_xy index None incidents ws.

(** [filter_last_12_months]: the rows whose time is at most 365 days
    before the latest one.  On an empty frame the latest time is NaT,
    and a comparison with NaT is false. *)
Definition filter_last_12_months (df : list weather_day) : list weather_day :=
  match Py.series_max (map time df) with
  | None => List.filter (fun _ => false) df
  | Some max_date =>
      let cutoff_date := (max_date - 365)%Z in
      List.filter (fun r => (cutoff_date <=? time r)%Z) df
  end.

(** [load_incidents_data]: the file if a path is given and exists,
    otherwise the generated sample frame. *)
Definition load_incidents_data {T} (fs : Py.files T) (sample : T)
    (incidents_path : option string) : Py.result T :=
  match incidents_path with
  | Some path =>
      if negb (String.eqb path "") && Py.exists_ fs path then
        if Py.endswith path ".json" then Py.read_json fs path
        else if Py.endswith path ".csv" then Py.read_csv fs path
        else inl (Py.ValueError "Incidents file must be .json or .csv")
      else inr sample
  | None => inr sample
  end.

(** [Series.dt.floor('D')] of a time stamp in seconds, as the count of
    days that [time] uses. *)
Definition floor_day (t : Z) : Z := (t / 86400)%Z.

(** [spatial_temporal_join] on rows: the nearest-point join with the
    weather records, the polygon join with the land cover, and the merge
    with the weather records on the day.  [intersects] tells whether a
    point lies on a land-cover polygon. *)
Definition spatial_temporal_join {P}
    (index : Geo.index_order incident weather_rolled)
    (intersects : Qc * Qc -> P -> bool)
    (weather_df : list weather_rolled) (incidents_df : list incident)
    (landcover_gdf : list P)
  : list (((incident * option weather_rolled) * option P) * option weather_rolled) :=
  let incidents_weather := join_nearest_weather index incidents_df weather_df in
  let incidents_landcover :=
    Geo.sjoin (fun row => intersects (incident_xy (fst row)))
              incidents_weather landcover_gdf in
  Py.merge_left (fun row => floor_day (timestamp (fst (fst row))))
                (fun w => time (day w))
                incidents_landcover weather_df.

End DataPreparation.

(** ** [improved_model.py]: rolling features per location *)
Module RollingFeatures.

Record sample := {
  s_lat : Qc;
  s_lon : Qc;
  s_timestamp : Z;
  s_temp : Qc;
  s_tavg : Qc
}.

Record rolled_sample := {
  sample_of : sample;
  temp_roll3 : option Qc;
  tavg_roll3 : option Qc;
  temp_roll7 : option Qc;
  tavg_roll7 : option Qc
}.

Definition location (s : sample) : Qc * Qc := (s_lat s, s_lon s).

(** The order of [sort_values(["lat", "lon", "timestamp"])]. *)
Definition sample_leb (a b : sample) : bool :=
  Qcltb (s_lat a) (s_lat b)
  || (Qceqb (s_lat a) (s_lat b)
      && (Qcltb (s_lon a) (s_lon b)
          || (Qceqb (s_lon a) (s_lon b) && (s_timestamp a <=? s_timestamp b)%Z))).

(** [df.groupby(["lat", "lon"])[col].rolling(w, min_periods=1).mean()],
    assigned back to the sorted frame. *)
Definition rolling_column (w : nat) (col : sample -> Qc) (df : list sample)
  : list (option Qc) :=
  Rolling.groupby_rolling w (map (fun s => (location s, col s)) df).

Definition add_rolling_features (df : list sample) : list rolled_sample :=
  let df := sort_values sample_leb df in
  let at_ (c : list (option Qc)) (i : nat) := default None (c !! i) in
  imap (fun i s => {| sample_of := s;
                      temp_roll3 := at_ (rolling_column 3 s_temp df) i;
                      tavg_roll3 := at_ (rolling_column 3 s_tavg df) i;
                      temp_roll7 := at_ (rolling_column 7 s_temp df) i;
                      tavg_roll7 := at_ (rolling_column 7 s_tavg df) i |}) df.

End RollingFeatures.

(** ** Sample data

    One incident on 2022-06-01 at 14:00 and two readings of the weather
    grid point at the same coordinates, taken at 13:00 and at 14:00. *)
Module Samples.

Definition incident0 : Prep.incident :=
  {| Prep.i_timestamp := 1654092000; Prep.i_lat := dec 1297 100;
     Prep.i_lon := dec 7759 100; Prep.i_type := "heat_stroke" |}.

Definition weather_13h : Prep.weather :=
  {| Prep.w_timestamp := 1654088400; Prep.w_lat := dec 1297 100;
     Prep.w_lon := dec 7759 100; Prep.w_temp := dec 39 1;
     Prep.w_humidity := dec 40 1; Prep.w_wind := dec 3 1 |}.

Definition weather_14h : Prep.weather :=
  {| Prep.w_timestamp := 1654092000; Prep.w_lat := dec 1297 100;
     Prep.w_lon := dec 7759 100; Prep.w_temp := dec 40 1;
     Prep.w_humidity := dec 38 1; Prep.w_wind := dec 2 1 |}.

(** Two daily records of the station and one incident report. *)
Definition day1 : DataPreparation.weather_day :=
  {| DataPreparation.time := 19144; DataPreparation.temp := dec 39 1;
     DataPreparation.tavg := dec 30 1; DataPreparation.tmin := dec 26 1;
     DataPreparation.prcp := dec 0 1 |}.

Definition day2 : DataPreparation.weather_day :=
  {| DataPreparation.time := 19145; DataPreparation.temp := dec 37 1;
     DataPreparation.tavg := dec 29 1; DataPreparation.tmin := dec 25 1;
     DataPreparation.prcp := dec 2 1 |}.

Definition report0 : DataPreparation.incident :=
  {| DataPreparation.timestamp := 1654092000;
     DataPreparation.lat := dec 1297 100; DataPreparation.lon := dec 7759 100;
     DataPreparation.incident_type := "heat_stroke";
     DataPreparation.severity := 3 |}.

(** Three readings of two locations, for the rolling features: the
    first and the third come from the same location. *)
Definition reading_a : RollingFeatures.sample :=
  {| RollingFeatures.s_lat := dec 1297 100; RollingFeatures.s_lon := dec 7759 100;
     RollingFeatures.s_timestamp := 1654084800;
     RollingFeatures.s_temp := dec 30 1; RollingFeatures.s_tavg := dec 25 1 |}.

Definition reading_b : RollingFeatures.sample :=
  {| RollingFeatures.s_lat := dec 1300 100; RollingFeatures.s_lon := dec 7760 100;
     RollingFeatures.s_timestamp := 1654088400;
     RollingFeatures.s_temp := dec 40 1; RollingFeatures.s_tavg := dec 31 1 |}.

Definition reading_c : RollingFeatures.sample :=
  {| RollingFeatures.s_lat := dec 1297 100; RollingFeatures.s_lon := dec 7759 100;
     RollingFeatures.s_timestamp := 1654092000;
     RollingFeatures.s_temp := dec 34 1; RollingFeatures.s_tavg := dec 27 1 |}.

(** An incident at noon, an hour before the first reading. *)
Definition incident_noon : Prep.incident :=
  {| Prep.i_timestamp := 1654084800; Prep.i_lat := dec 1297 100;
     Prep.i_lon := dec 7759 100; Prep.i_type := "dehydration" |}.

End Samples.

(** ** [improved_model.py]: threshold selection *)
Module Threshold.

(** *** [sklearn.metrics.precision_recall_curve]

    The thresholds are the distinct scores in ascending order; at a
    threshold the predicted positives are the samples whose score is at
    least the threshold.  The curve ends with the point of precision 1
    and recall 0, which has no threshold.  (Older releases of
    scikit-learn drop the thresholds below the first one of full recall;
    the selection below is verified on any curve of this shape, see
    [best_on_curve_spec].) *)
Definition thresholds (y_scores : list Qc) : list Qc :=
  sort_values Qcleb (remove_dups y_scores).

Definition tps (y_true : list bool) (y_scores : list Qc) (t : Qc) : Z :=
  Z.of_nat (length (List.filter (fun ys => fst ys && Qcleb t (snd ys))
                                (combine y_true y_scores))).

Definition fps (y_true : list bool) (y_scores : list Qc) (t : Qc) : Z :=
  Z.of_nat (length (List.filter (fun ys => negb (fst ys) && Qcleb t (snd ys))
                                (combine y_true y_scores))).

Definition precision_at (y_true : list bool) (y_scores : list Qc) (t : Qc) : Qc :=
  let tp := tps y_true y_scores t in
  let ps := (tp + fps y_true y_scores t)%Z in
  if (ps =? 0)%Z then 0 else of_Z tp / of_Z ps.

(** Without a positive label the recall is set to one at every threshold. *)
Definition recall_at (y_true : list bool) (y_scores : list Qc) (t : Qc) : Qc :=
  let total := Z.of_nat (length (List.filter fst (combine y_true y_scores))) in
  if (total =? 0)%Z then 1 else of_Z (tps y_true y_scores t) / of_Z total.

Definition precision_recall_curve (y_true : list bool) (y_scores : list Qc)
  : list Qc * list Qc * list Qc :=
  let t := thresholds y_scores in
  (map (precision_at y_true y_scores) t ++ [1],
   map (recall_at y_true y_scores) t ++ [0],
   t).

(** *** [find_best_threshold] *)

(** [(t >= 0.05) & (t <= 0.95)] *)
Definition in_band (t : Qc) : bool := Qcleb (dec 5 100) t && Qcleb t (dec 95 100).

(** Boolean-mask indexing, [values[mask]]. *)
Fixpoint select (mask : list bool) (values : list Qc) : list Qc :=
  match mask, values with
  | b :: mask', v :: values' =>
      if b then v :: select mask' values' else select mask' values'
  | _, _ => []
  end.

(** [2 * (p * r) / (p + r + 1e-9)] *)
Definition f1_of (p r : Qc) : Qc := 2 * (p * r) / (p + r + dec 1 1000000000).

(** The F1 of a point of the curve, the harmonic mean of its precision
    and recall (0 when both are 0). *)
Definition f1_score (p r : Qc) : Qc :=
  if Qceqb (p + r) 0 then 0 else 2 * (p * r) / (p + r).

(** [np.argmax]: the position of the first largest entry. *)
Fixpoint argmax_from (best_idx : nat) (best : Qc) (i : nat) (l : list Qc) : nat :=
  match l with
  | [] => best_idx
  | x :: rest =>
      if Qcleb x best then argmax_from best_idx best (S i) rest
      else argmax_from i x (S i) rest
  end.

Definition argmax (l : list Qc) : nat :=
  match l with
  | [] => 0
  | x :: rest => argmax_from 0 x 1 rest
  end.

(** The body of [find_best_threshold] after the curve is computed. *)
Definition best_on_curve (p r t : list Qc) : Qc * Qc :=
  let mask := map in_band t in
  if negb (existsb id mask) then (dec 1 2, 0)
  else
    let p' := select mask (removelast p) in
    let r' := select mask (removelast r) in
    let t' := select mask t in
    let f1 := map (fun pr => f1_of (fst pr) (snd pr)) (combine p' r') in
    let idx := argmax f1 in
    (nth idx t' 0, nth idx f1 0).

Definition find_best_threshold (y_true : list bool) (y_scores : list Qc) : Qc * Qc :=
  let '(p, r, t) := precision_recall_curve y_true y_scores in
  best_on_curve p r t.

(** The candidates of the specification: the thresholds of the curve in
    [[0.05, 0.95]], each with the F1 of its point of the curve. *)
Definition candidates_on (p r t : list Qc) : list (Qc * Qc) :=
  map (fun prt => (snd prt, f1_of (fst (fst prt)) (snd (fst prt))))
      (List.filter (fun prt => in_band (snd prt))
                   (combine (combine (removelast p) (removelast r)) t)).

Definition candidates (y_true : list bool) (y_scores : list Qc) : list (Qc * Qc) :=
  let '(p, r, t) := precision_recall_curve y_true y_scores in
  candidates_on p r t.

(** *** The call, with the validation of scikit-learn

    [precision_recall_curve] validates the sample before it computes the
    curve: it raises [ValueError] when the labels and the scores differ
    in number and when there is no sample at all, and
    [find_best_threshold] lets the exception pass.  The definitions
    above are what is computed on a sample that passes.  Of the
    exception only the class is modelled, not the message. *)
Module Checked.

Definition precision_recall_curve (y_true : list bool) (y_scores : list Qc)
  : Py.result (list Qc * list Qc * list Qc) :=
  if negb (length y_true =? length y_scores)%nat
  then inl (Py.ValueError "inconsistent numbers of samples")
  else if (length y_true =? 0)%nat
       then inl (Py.ValueError "no sample")
       else inr (precision_recall_curve y_true y_scores).

Definition find_best_threshold (y_true : list bool) (y_scores : list Qc)
  : Py.result (Qc * Qc) :=
  Py.bind (precision_recall_curve y_true y_scores)
          (fun prt => let '(p, r, t) := prt in inr (best_on_curve p r t)).

End Checked.

End Threshold.

(** ** [inference/main.py]: risk tiers *)
Module Risk.

Inductive risk_level := LOW | MEDIUM | HIGH | EXTREME.

Definition get_risk_level (risk_score : Qc) : risk_level :=
  if Qcltb risk_score (dec 3 10) then LOW
  else if Qcltb risk_score (dec 6 10) then MEDIUM
  else if Qcltb risk_score (dec 8 10) then HIGH
  else EXTREME.

(** The tiers in ascending order of risk. *)
Definition rank (l : risk_level) : nat :=
  match l with
  | LOW => 0
  | MEDIUM => 1
  | HIGH => 2
  | EXTREME => 3
  end.

End Risk.

(** ** Calendar dates

    [datetime.strptime(s, "%Y-%m-%d")] and the proleptic Gregorian
    calendar of [datetime], on ASCII strings. *)
Module Dates.

Record date := { year : Z; month : Z; day : Z }.

Definition is_leap (y : Z) : bool :=
  ((y mod 4 =? 0) && (negb (y mod 100 =? 0) || (y mod 400 =? 0)))%Z.

Definition days_in_month (y m : Z) : Z :=
  if (m =? 2)%Z then (if is_leap y then 29 else 28)
  else if ((m =? 4) || (m =? 6) || (m =? 9) || (m =? 11))%Z then 30
  else 31.

(** Days before January 1st of year [y]. *)
Definition days_before_year (y : Z) : Z :=
  let y1 := (y - 1)%Z in
  (y1 * 365 + y1 / 4 - y1 / 100 + y1 / 400)%Z.

(** Days of year [y] before the first day of month [m]. *)
Definition days_before_month (y m : Z) : Z :=
  fold_right Z.add 0%Z
    (map (fun k => days_in_month y (Z.of_nat k)) (seq 1 (Z.to_nat (m - 1)))).

Definition toordinal (d : date) : Z :=
  (days_before_year (year d) + days_before_month (year d) (month d) + day d)%Z.

(** Monday is 0 and Sunday is 6. *)
Definition weekday (d : date) : Z := ((toordinal d + 6) mod 7)%Z.

(** What the [date] constructor accepts; anything else is a [ValueError]. *)
Definition valid (d : date) : bool :=
  ((1 <=? year d) && (year d <=? 9999) && (1 <=? month d) && (month d <=? 12)
   && (1 <=? day d) && (day d <=? days_in_month (year d) (month d)))%Z.

Definition digit (c : ascii) : option Z :=
  let n := Z.of_N (N_of_ascii c) in
  if ((48 <=? n) && (n <=? 57))%Z then Some (n - 48)%Z else None.

Definition digit_in (lo hi : Z) (c : ascii) : option Z :=
  match digit c with
  | Some n => if ((lo <=? n) && (n <=? hi))%Z then Some n else None
  | None => None
  end.

(** [%Y] is the regular expression [\d\d\d\d]. *)
Definition parse_Y (s : list ascii) : option (Z * list ascii) :=
  match s with
  | a :: b :: c :: d :: rest =>
      match digit a, digit b, digit c, digit d with
      | Some a, Some b, Some c, Some d =>
          Some ((1000 * a + 100 * b + 10 * c + d)%Z, rest)
      | _, _, _, _ => None
      end
  | _ => None
  end.

(** [%m] is [1[0-2]|0[1-9]|[1-9]]; the first alternative that matches is
    kept (a later one never rescues the hyphen that must follow). *)
Definition parse_m (s : list ascii) : option (Z * list ascii) :=
  match s with
  | [] => None
  | c :: rest =>
      match digit c, rest with
      | Some 1%Z, c' :: rest' =>
          match digit_in 0 2 c' with
          | Some n => Some ((10 + n)%Z, rest')
          | None => Some (1%Z, rest)
          end
      | Some 0%Z, c' :: rest' =>
          match digit_in 1 9 c' with
          | Some n => Some (n, rest')
          | None => None
          end
      | Some 0%Z, [] => None
      | Some n, _ => Some (n, rest)
      | None, _ => None
      end
  end.

(** [%d] is [3[01]|[12]\d|0[1-9]|[1-9]| [1-9]]; nothing follows it in
    the format, so the first alternative that matches ends the match. *)
Definition parse_d (s : list ascii) : option (Z * list ascii) :=
  match s with
  | [] => None
  | c :: rest =>
      match digit c, rest with
      | Some 3%Z, c' :: rest' =>
          match digit_in 0 1 c' with
          | Some n => Some ((30 + n)%Z, rest')
          | None => Some (3%Z, rest)
          end
      | Some 1%Z, c' :: rest' =>
          match digit c' with
          | Some n => Some ((10 + n)%Z, rest')
          | None => Some (1%Z, rest)
          end
      | Some 2%Z, c' :: rest' =>
          match digit c' with
          | Some n => Some ((20 + n)%Z, rest')
          | None => Some (2%Z, rest)
          end
      | Some 0%Z, c' :: rest' =>
          match digit_in 1 9 c' with
          | Some n => Some (n, rest')
          | None => None
          end
      | Some 0%Z, [] => None
      | Some n, _ => Some (n, rest)
      | None, c' :: rest' =>
          if Ascii.eqb c " "%char then
            match digit_in 1 9 c' with
            | Some n => Some (n, rest')
            | None => None
            end
          else None
      | None, [] => None
      end
  end.

Definition expect_hyphen (s : list ascii) : option (list ascii) :=
  match s with
  | c :: rest => if Ascii.eqb c "-"%char then Some rest else None
  | [] => None
  end.

(** The strings of ASCII characters.  On these the parser below is
    [strptime]; on others it is not, since the [\d] of [strptime] also
    matches the decimal digits of other scripts. *)
Definition is_ascii (s : string) : bool :=
  forallb (fun c => (N_of_ascii c <? 128)%N) (list_ascii_of_string s).

(** [None] stands for the [ValueError] of [strptime]: the string does
    not match the format, text remains after the match, or the numbers
    are not a date. *)
Definition strptime_ymd (s : string) : option date :=
  '(y, s) ← parse_Y (list_ascii_of_string s);
  s ← expect_hyphen s;
  '(m, s) ← parse_m s;
  s ← expect_hyphen s;
  '(d, s) ← parse_d s;
  match s with
  | [] =>
      let date_obj := {| year := y; month := m; day := d |} in
      if valid date_obj then Some date_obj else None
  | _ :: _ => None
  end.

(** [date.isoformat()], that is ["%04d-%02d-%02d"]: the year on four
    digits, the month and the day on two. *)
Definition digit_char (n : Z) : ascii := ascii_of_N (Z.to_N (48 + n)).

Definition isoformat (d : date) : string :=
  string_of_list_ascii
    [digit_char (year d / 1000 mod 10); digit_char (year d / 100 mod 10);
     digit_char (year d / 10 mod 10); digit_char (year d mod 10);
     "-"%char;
     digit_char (month d / 10 mod 10); digit_char (month d mod 10);
     "-"%char;
     digit_char (day d / 10 mod 10); digit_char (day d mod 10)].

End Dates.

(** ** Float arithmetic of the feature vector

    The feature formulas are written once against this interface; real
    binary64 arithmetic is one implementation of it, the terms below
    another. *)
Class FloatOps (F : Type) := {
  f_lit : Qc -> F;            (* a decimal literal of the source *)
  f_of_int : Z -> F;          (* an [int] used as a [float] *)
  f_pi : F;                   (* [np.pi] *)
  f_add : F -> F -> F;
  f_sub : F -> F -> F;
  f_mul : F -> F -> F;
  f_div : F -> F -> F;
  f_sin : F -> F;
  f_cos : F -> F;
  f_hypot : F -> F -> F
}.

(** Float expressions as terms over named inputs: two computations give
    the same term exactly when they apply the same operations to the
    same inputs in the same order. *)
Inductive fterm :=
| T_var (name : string)
| T_lit (q : Qc)
| T_int (z : Z)
| T_pi
| T_add (a b : fterm)
| T_sub (a b : fterm)
| T_mul (a b : fterm)
| T_div (a b : fterm)
| T_sin (a : fterm)
| T_cos (a : fterm)
| T_hypot (a b : fterm).

#[export] Instance fterm_ops : FloatOps fterm := {
  f_lit := T_lit; f_of_int := T_int; f_pi := T_pi;
  f_add := T_add; f_sub := T_sub; f_mul := T_mul; f_div := T_div;
  f_sin := T_sin; f_cos := T_cos; f_hypot := T_hypot
}.

(** The engineered features, as both programs compute them from the raw
    values of a row or a request. *)
Module Features.
Section Formulas.
Context {F : Type} `{FloatOps F}.

(** [2 * np.pi * x / period] *)
Definition angle (x period : Z) : F :=
  f_div (f_mul (f_mul (f_of_int 2) f_pi) (f_of_int x)) (f_of_int period).

Definition is_peak (hour : Z) : Z :=
  if ((10 <=? hour) && (hour <=? 17))%Z then 1 else 0.

Definition is_weekend (dayofweek : Z) : Z :=
  if ((dayofweek =? 5) || (dayofweek =? 6))%Z then 1 else 0.

End Formulas.
End Features.

(** ** [inference/main.py] *)
Module Serving.
Section Serving.
Context {F : Type} `{FloatOps F}.

(** A request that has passed the field validation of the framework. *)
Record PredictionRequest := {
  lat : F;
  lon : F;
  date : string;
  hour : Z;
  temp : F;
  tavg : F;
  tmin : F;
  prcp : F;
  temp_roll3 : option F;
  temp_roll7 : option F;
  tavg_roll3 : option F;
  tavg_roll7 : option F
}.

Record PredictionResponse := {
  risk_score : Qc;
  risk_level : Risk.risk_level;
  threshold : Qc;
  features_used : nat
}.

(** Exceptions.  [HTTPException] and [ValueError] are both subclasses of
    [Exception]; [OtherError] stands for every other subclass. *)
Inductive exn :=
| HTTPException (status_code : Z) (detail : string)
| ValueError (msg : string)
| OtherError (msg : string).

(** [str(e)]; Starlette prints an [HTTPException] as its status code, a
    colon and its detail. *)
Definition exn_str (e : exn) : string :=
  match e with
  | HTTPException c d =>
      (NilZero.string_of_int (Z.to_int c) ++ ": " ++ d)%string
  | ValueError m => m
  | OtherError m => m
  end.

(** A computation that returns or raises. *)
Definition result (A : Type) : Type := exn + A.

Definition bind {A B} (m : result A) (k : A -> result B) : result B :=
  match m with
  | inl e => inl e
  | inr a => k a
  end.

(** [try: m  except ValueError: raise handler] *)
Definition except_ValueError {A} (m : result A) (handler : exn) : result A :=
  match m with
  | inl (ValueError _) => inl handler
  | other => other
  end.

(** [try: m  except Exception as e: raise handler(e)] *)
Definition except_Exception {A} (m : result A) (handler : exn -> exn) : result A :=
  match m with
  | inl e => inl (handler e)
  | inr a => inr a
  end.

(** The elements of a Python list of numbers, and [np.array] of it. *)
Inductive number := N_float (x : F) | N_int (z : Z).

Definition to_float (n : number) : F :=
  match n with
  | N_float x => x
  | N_int z => f_of_int z
  end.

Definition np_array (l : list number) : list F := map to_float l.

Definition strptime (s : string) : result Dates.date :=
  match Dates.strptime_ymd s with
  | Some d => inr d
  | None => inl (ValueError "time data does not match format")
  end.

Definition prepare_features (request : PredictionRequest) : result (list F) :=
  (* Parse date *)
  bind (except_ValueError
          (bind (strptime (date request)) (fun date_obj =>
             inr (Dates.weekday date_obj, Dates.month date_obj)))
          (HTTPException 400 "Invalid date format. Use YYYY-MM-DD"))
       (fun parsed =>
  let dayofweek := fst parsed in
  let month := snd parsed in
  (* Calculate derived features *)
  let temp_range := f_sub (temp request) (tmin request) in
  let heat_index := f_add (temp request) (f_mul (f_lit (dec 5 10)) (tavg request)) in
  let is_peak := Features.is_peak (hour request) in
  let is_weekend := Features.is_weekend dayofweek in
  let dist_center :=
    f_hypot (f_sub (lat request) (f_lit (dec 129716 10000)))
            (f_sub (lon request) (f_lit (dec 775946 10000))) in
  (* Cyclical encoding *)
  let hour_sin := f_sin (Features.angle (hour request) 24) in
  let hour_cos := f_cos (Features.angle (hour request) 24) in
  let month_sin := f_sin (Features.angle month 12) in
  let month_cos := f_cos (Features.angle month 12) in
  (* Use provided rolling features or defaults *)
  let temp_roll3 := default (temp request) (temp_roll3 request) in
  let temp_roll7 := default (temp request) (temp_roll7 request) in
  let tavg_roll3 := default (tavg request) (tavg_roll3 request) in
  let tavg_roll7 := default (tavg request) (tavg_roll7 request) in
  (* Create feature vector in the same order as training *)
  inr (np_array
         [N_float (temp request); N_float (tavg request); N_float (tmin request);
          N_float (prcp request);
          N_float temp_roll3; N_float temp_roll7; N_float tavg_roll3; N_float tavg_roll7;
          N_float temp_range; N_float heat_index; N_int is_peak; N_int is_weekend;
          N_float dist_center; N_float hour_sin; N_float hour_cos;
          N_float month_sin; N_float month_cos])).

(** The module-level variables that [load_models] fills.  The classifier
    and the scaler are external collaborators: functions that return or
    raise. *)
Record globals := {
  model : option (list F -> result Qc);
  feature_list : option (list string);
  g_threshold : option Qc;
  scaler : option (list F -> result (list F))
}.

(** Building the response: [len(feature_list)] needs a list, and the
    response model checks its fields. *)
Definition make_response (g : globals) (score : Qc) (level : Risk.risk_level)
  : result PredictionResponse :=
  match feature_list g with
  | None => inl (OtherError "object of type 'NoneType' has no len()")
  | Some fl =>
      if negb (Qcleb 0 score && Qcleb score 1)
      then inl (OtherError "validation error for PredictionResponse: risk_score")
      else match g_threshold g with
           | None => inl (OtherError "validation error for PredictionResponse: threshold")
           | Some th =>
               inr {| risk_score := score; risk_level := level;
                      threshold := th; features_used := length fl |}
           end
  end.

Definition predict_risk (g : globals) (request : PredictionRequest)
  : result PredictionResponse :=
  match model g with
  | None => inl (HTTPException 500 "Model not loaded")
  | Some m =>
      except_Exception
        (bind (prepare_features request) (fun features =>
         bind (match scaler g with
               | Some sc => sc features
               | None => inr features
               end) (fun features =>
         bind (m features) (fun risk_score =>
         make_response g risk_score (Risk.get_risk_level risk_score)))))
        (fun e => HTTPException 500 ("Prediction error: " ++ exn_str e))
  end.

(** The class of an HTTP status code. *)
Definition is_client_error (e : exn) : bool :=
  match e with
  | HTTPException c _ => ((400 <=? c) && (c <=? 499))%Z
  | _ => false
  end.

Definition is_server_error (e : exn) : bool :=
  match e with
  | HTTPException c _ => ((500 <=? c) && (c <=? 599))%Z
  | _ => false
  end.

(** The artifacts under [models/]: what [joblib.load] returns for each
    path, or the exception that it raises. *)
Record model_files := {
  model_file : result (list F -> result Qc);
  feature_list_file : result (list string);
  threshold_file : result Qc;
  scaler_file : result (list F -> result (list F))
}.

(** [load_models]: the new module-level variables, and the exception
    that leaves the function, if one does.  The three required loads
    share one handler, which raises again; a failing load of the scaler
    is swallowed. *)
Definition load_models (files : model_files) (g : globals) : globals * option exn :=
  match model_file files with
  | inl e => (g, Some e)
  | inr m =>
      let g := {| model := Some m; feature_list := feature_list g;
                  g_threshold := g_threshold g; scaler := scaler g |} in
      match feature_list_file files with
      | inl e => (g, Some e)
      | inr fl =>
          let g := {| model := model g; feature_list := Some fl;
                      g_threshold := g_threshold g; scaler := scaler g |} in
          match threshold_file files with
          | inl e => (g, Some e)
          | inr th =>
              let g := {| model := model g; feature_list := feature_list g;
                          g_threshold := Some th; scaler := scaler g |} in
              match scaler_file files with
              | inr sc =>
                  ({| model := model g; feature_list := feature_list g;
                      g_threshold := g_threshold g; scaler := Some sc |}, None)
              | inl _ =>
                  ({| model := model g; feature_list := feature_list g;
                      g_threshold := g_threshold g; scaler := None |}, None)
              end
          end
      end
  end.

(** The module-level variables before [load_models] runs. *)
Definition not_loaded : globals :=
  {| model := None; feature_list := None; g_threshold := None; scaler := None |}.

(** [GET /] *)
Record RootResponse := {
  r_message : string;
  r_version : string;
  r_status : string;
  r_model_loaded : bool
}.

Definition root (g : globals) : RootResponse :=
  {| r_message := "Heat Hazard Risk Prediction API";
     r_version := "1.0.0";
     r_status := "healthy";
     r_model_loaded := match model g with Some _ => true | None => false end |}.

(** [GET /health] *)
Record HealthResponse := {
  h_status : string;
  h_model_loaded : bool;
  h_features_count : nat;
  h_threshold : option Qc
}.

Definition health_check (g : globals) : HealthResponse :=
  {| h_status := "healthy";
     h_model_loaded := match model g with Some _ => true | None => false end;
     h_features_count := match feature_list g with
                         | Some (c :: l) => length (c :: l)
                         | _ => 0
                         end;
     h_threshold := g_threshold g |}.

(** [GET /model-info]; [type_name] is [type(model).__name__]. *)
Record ModelInfo := {
  model_type : string;
  features : option (list string);
  i_threshold : option Qc;
  scaler_available : bool
}.

Definition model_info (type_name : (list F -> result Qc) -> string) (g : globals)
  : result ModelInfo :=
  match model g with
  | None => inl (HTTPException 500 "Model not loaded")
  | Some m =>
      inr {| model_type := type_name m;
             features := feature_list g;
             i_threshold := g_threshold g;
             scaler_available := match scaler g with Some _ => true | None => false end |}
  end.

End Serving.
End Serving.

(** ** [improved_model.py]: feature engineering at training time *)
Module Training.
Section Training.
Context {F : Type} `{FloatOps F}.

Record timestamp := { ts_date : Dates.date; ts_hour : Z }.

(** A cell of the frame, and a row as a map from column names to cells. *)
Inductive cell :=
| C_float (x : F)
| C_int (z : Z)
| C_time (t : timestamp)
| C_str (s : string).

(** Reading a column; [None] is the [KeyError] or [TypeError] of pandas. *)
Definition col_float (r : gmap string cell) (c : string) : option F :=
  match r !! c with
  | Some (C_float x) => Some x
  | Some (C_int z) => Some (f_of_int z)
  | _ => None
  end.

Definition col_int (r : gmap string cell) (c : string) : option Z :=
  match r !! c with
  | Some (C_int z) => Some z
  | _ => None
  end.

Definition col_time (r : gmap string cell) (c : string) : option timestamp :=
  match r !! c with
  | Some (C_time t) => Some t
  | _ => None
  end.

(** [add_engineered_features], on one row of the frame. *)
Definition add_engineered_features (df : gmap string cell) : option (gmap string cell) :=
  t ← col_time df "timestamp";
  let df := <["hour" := C_int (ts_hour t)]> df in
  t ← col_time df "timestamp";
  let df := <["dayofweek" := C_int (Dates.weekday (ts_date t))]> df in
  t ← col_time df "timestamp";
  let df := <["month" := C_int (Dates.month (ts_date t))]> df in
  (* Simple engineered features *)
  temp ← col_float df "temp"; tmin ← col_float df "tmin";
  let df := <["temp_range" := C_float (f_sub temp tmin)]> df in
  temp ← col_float df "temp"; tavg ← col_float df "tavg";
  let df := <["heat_index" := C_float (f_add temp (f_mul (f_lit (dec 5 10)) tavg))]> df in
  hour ← col_int df "hour";
  let df := <["is_peak" := C_int (Features.is_peak hour)]> df in
  dayofweek ← col_int df "dayofweek";
  let df := <["is_weekend" := C_int (Features.is_weekend dayofweek)]> df in
  lat ← col_float df "lat"; lon ← col_float df "lon";
  let df := <["dist_center" :=
                C_float (f_hypot (f_sub lat (f_lit (dec 129716 10000)))
                                 (f_sub lon (f_lit (dec 775946 10000))))]> df in
  (* Cyclical *)
  hour ← col_int df "hour";
  let df := <["hour_sin" := C_float (f_sin (Features.angle hour 24))]> df in
  hour ← col_int df "hour";
  let df := <["hour_cos" := C_float (f_cos (Features.angle hour 24))]> df in
  month ← col_int df "month";
  let df := <["month_sin" := C_float (f_sin (Features.angle month 12))]> df in
  month ← col_int df "month";
  let df := <["month_cos" := C_float (f_cos (Features.angle month 12))]> df in
  Some df.

Definition feature_cols : list string :=
  ["temp"; "tavg"; "tmin"; "prcp";
   "temp_roll3"; "temp_roll7"; "tavg_roll3"; "tavg_roll7";
   "temp_range"; "heat_index"; "is_peak"; "is_weekend";
   "dist_center"; "hour_sin"; "hour_cos"; "month_sin"; "month_cos"].

(** [X = df[feature_cols]] for a row that already has its rolling
    columns, as a vector of floats. *)
Definition prepare_features (df : gmap string cell) : option (list F) :=
  df ← add_engineered_features df;
  mapM (col_float df) feature_cols.

(** A request that carries the raw inputs of a training row. *)
Definition same_raw_inputs (request : Serving.PredictionRequest) (df : gmap string cell)
  : Prop :=
  exists t,
    df !! "timestamp" = Some (C_time t)
    /\ Dates.strptime_ymd (Serving.date request) = Some (ts_date t)
    /\ Serving.hour request = ts_hour t
    /\ df !! "temp" = Some (C_float (Serving.temp request))
    /\ df !! "tavg" = Some (C_float (Serving.tavg request))
    /\ df !! "tmin" = Some (C_float (Serving.tmin request))
    /\ df !! "prcp" = Some (C_float (Serving.prcp request))
    /\ df !! "lat" = Some (C_float (Serving.lat request))
    /\ df !! "lon" = Some (C_float (Serving.lon request))
    /\ (exists v, Serving.temp_roll3 request = Some v
                   /\ df !! "temp_roll3" = Some (C_float v))
    /\ (exists v, Serving.temp_roll7 request = Some v
                   /\ df !! "temp_roll7" = Some (C_float v))
    /\ (exists v, Serving.tavg_roll3 request = Some v
                   /\ df !! "tavg_roll3" = Some (C_float v))
    /\ (exists v, Serving.tavg_roll7 request = Some v
                   /\ df !! "tavg_roll7" = Some (C_float v)).

End Training.
End Training.

(** The feature vector as the specification lists it, from the raw
    values of a request and the day of week and month of its date. *)
Module FeatureSpec.
Section FeatureSpec.
Context {F : Type} `{FloatOps F}.

Definition flag (b : bool) : F := f_of_int (if b then 1 else 0).

Definition two_pi_over (x period : Z) : F :=
  f_div (f_mul (f_mul (f_of_int 2) f_pi) (f_of_int x)) (f_of_int period).

Definition feature_vector (request : Serving.PredictionRequest)
    (dayofweek month : Z) : list F :=
  let temp := Serving.temp request in
  let tavg := Serving.tavg request in
  let tmin := Serving.tmin request in
  let hour := Serving.hour request in
  [ temp; tavg; tmin; Serving.prcp request;
    default temp (Serving.temp_roll3 request);
    default temp (Serving.temp_roll7 request);
    default tavg (Serving.tavg_roll3 request);
    default tavg (Serving.tavg_roll7 request);
    (* temp_range  *) f_sub temp tmin;
    (* heat_index  *) f_add temp (f_mul (f_lit (dec 5 10)) tavg);
    (* is_peak     *) flag ((10 <=? hour) && (hour <=? 17))%Z;
    (* is_weekend  *) flag ((dayofweek =? 5) || (dayofweek =? 6))%Z;
    (* dist_center *) f_hypot (f_sub (Serving.lat request) (f_lit (dec 129716 10000)))
                              (f_sub (Serving.lon request) (f_lit (dec 775946 10000)));
    (* hour_sin    *) f_sin (two_pi_over hour 24);
    (* hour_cos    *) f_cos (two_pi_over hour 24);
    (* month_sin   *) f_sin (two_pi_over month 12);
    (* month_cos   *) f_cos (two_pi_over month 12) ].

End FeatureSpec.
End FeatureSpec.

(** ** Sample requests

    The request of the API test script (2024-06-15, 14h), with rolling
    values supplied, the training row with the same raw inputs, and a
    request whose date is written day first. *)
Module ServingSamples.

Definition request0 : @Serving.PredictionRequest fterm :=
  {| Serving.lat := T_lit (dec 129716 10000);
     Serving.lon := T_lit (dec 775946 10000);
     Serving.date := "2024-06-15";
     Serving.hour := 14;
     Serving.temp := T_lit (dec 385 10);
     Serving.tavg := T_lit (dec 75 1);
     Serving.tmin := T_lit (dec 25 1);
     Serving.prcp := T_lit (dec 0 1);
     Serving.temp_roll3 := Some (T_var "temp_roll3");
     Serving.temp_roll7 := Some (T_var "temp_roll7");
     Serving.tavg_roll3 := Some (T_var "tavg_roll3");
     Serving.tavg_roll7 := Some (T_var "tavg_roll7") |}.

Definition timestamp0 : Training.timestamp :=
  {| Training.ts_date := {| Dates.year := 2024; Dates.month := 6; Dates.day := 15 |};
     Training.ts_hour := 14 |}.

Definition row0 : gmap string (@Training.cell fterm) :=
  list_to_map
    [("timestamp", Training.C_time timestamp0);
     ("lat", Training.C_float (T_lit (dec 129716 10000)));
     ("lon", Training.C_float (T_lit (dec 775946 10000)));
     ("incident_type", Training.C_str "heat_stroke");
     ("temp", Training.C_float (T_lit (dec 385 10)));
     ("tavg", Training.C_float (T_lit (dec 75 1)));
     ("tmin", Training.C_float (T_lit (dec 25 1)));
     ("prcp", Training.C_float (T_lit (dec 0 1)));
     ("temp_roll3", Training.C_float (T_var "temp_roll3"));
     ("temp_roll7", Training.C_float (T_var "temp_roll7"));
     ("tavg_roll3", Training.C_float (T_var "tavg_roll3"));
     ("tavg_roll7", Training.C_float (T_var "tavg_roll7"))].

Definition bad_date_request : @Serving.PredictionRequest fterm :=
  {| Serving.lat := T_lit (dec 129716 10000);
     Serving.lon := T_lit (dec 775946 10000);
     Serving.date := "15/06/2024";
     Serving.hour := 14;
     Serving.temp := T_lit (dec 385 10);
     Serving.tavg := T_lit (dec 75 1);
     Serving.tmin := T_lit (dec 25 1);
     Serving.prcp := T_lit (dec 0 1);
     Serving.temp_roll3 := None;
     Serving.temp_roll7 := None;
     Serving.tavg_roll3 := None;
     Serving.tavg_roll7 := None |}.

(** A loaded bundle: a classifier that answers 0.5, seventeen feature
    names, a threshold and no scaler. *)
Definition loaded : @Serving.globals fterm :=
  {| Serving.model := Some (fun _ => inr (dec 1 2));
     Serving.feature_list := Some Training.feature_cols;
     Serving.g_threshold := Some (dec 4 10);
     Serving.scaler := None |}.

End ServingSamples.

(** ** Frames as objects

    The two pipelines hand frames around by reference.  A frame is a map
    from column names to columns, the heap maps object identities to
    frames, and a statement of the source is a step on the heap:
    [df[c] = v] updates the object [df] in place, while a constructor, a
    selection of columns or a join allocates the frame it returns.
    [GeoDataFrame(df, geometry=...)] builds a new frame on the columns
    of a plain [DataFrame] argument, as the constructors of current
    pandas do; a release in which the new frame shares the column table
    of its argument is outside this model.  [None] is an exception: the
    [KeyError] of a column that is missing, or the [ValueError] of a
    join that refuses its frames. *)
Module Frames.

Inductive value :=
| V_str (s : string)
| V_num (q : Qc)
| V_time (t : Z)
| V_point (x y : Qc)
| V_nan.

Abbreviation frame := (gmap string (list value)).
Abbreviation heap := (gmap positive (gmap string (list value))).

(** What the libraries compute on the contents of frames and columns. *)
Record library := {
  to_datetime : list value -> list value;
  points_from_xy : list value -> list value -> list value;
  constant_points : Qc -> Qc -> nat -> list value;
  sjoin_nearest_rows : option Qc -> frame -> frame -> frame;
  sjoin_nearest_labels : option Qc -> frame -> frame -> list value;
  sjoin_rows : frame -> frame -> frame;
  sjoin_labels : frame -> frame -> list value;
  floor_day : list value -> list value;
  merge_rows : frame -> frame -> frame
}.

Definition M (A : Type) : Type := heap -> option (A * heap).

Definition ret {A} (a : A) : M A := fun h => Some (a, h).

Definition raise {A} : M A := fun _ => None.

Definition bind {A B} (m : M A) (k : A -> M B) : M B :=
  fun h => match m h with
           | Some (a, h') => k a h'
           | None => None
           end.

Notation "'let*' x ':=' m 'in' k" := (bind m (fun x => k))
  (at level 10, x name, m at level 100, k at level 200).
Notation "'exec' m 'in' k" := (bind m (fun _ => k))
  (at level 10, m at level 100, k at level 200).

(** A new object holding [f]. *)
Definition new_frame (f : frame) : M positive :=
  fun h => let l := fresh (dom h) in Some (l, <[l := f]> h).

Definition read (df : positive) : M frame :=
  fun h => match h !! df with
           | Some f => Some (f, h)
           | None => None
           end.

(** [df[c]] *)
Definition getitem (df : positive) (c : string) : M (list value) :=
  let* f := read df in
  fun h => match f !! c with
           | Some v => Some (v, h)
           | None => None
           end.

(** [df[c] = v] *)
Definition setitem (df : positive) (c : string) (v : list value) : M unit :=
  fun h => match h !! df with
           | Some f => Some (tt, <[df := <[c := v]> f]> h)
           | None => None
           end.

Fixpoint columns_of (f : frame) (cols : list string) : option frame :=
  match cols with
  | [] => Some ∅
  | c :: rest =>
      match f !! c, columns_of f rest with
      | Some v, Some g => Some (<[c := v]> g)
      | _, _ => None
      end
  end.

(** [df[[c1, ..., cn]]] *)
Definition select_columns (df : positive) (cols : list string) : M positive :=
  let* f := read df in
  fun h => match columns_of f cols with
           | Some g => new_frame g h
           | None => None
           end.

(** [gpd.GeoDataFrame(df, geometry=g, crs=...)] *)
Definition GeoDataFrame (df : positive) (geometry : list value) : M positive :=
  let* f := read df in new_frame (<["geometry" := geometry]> f).

(** The row labels of a join.  The frames have the default row labels,
    as the loaders of the scripts build them.  While it joins, geopandas
    moves the row labels of the two frames into columns [index_left] and
    [index_right]; it refuses, with a [ValueError], frames of which one
    has a column of either name already.  The frame that a left join
    returns has the labels of the matched right rows as its column
    [index_right]. *)
Definition has_index_column (f : frame) : bool :=
  bool_decide (is_Some (f !! "index_left") \/ is_Some (f !! "index_right")).

Definition sjoin_nearest (lib : library) (max_distance : option Qc)
    (left right : positive) : M positive :=
  let* fl := read left in
  let* fr := read right in
  if has_index_column fl || has_index_column fr then raise
  else new_frame (<["index_right" := sjoin_nearest_labels lib max_distance fl fr]>
                    (sjoin_nearest_rows lib max_distance fl fr)).

Definition sjoin (lib : library) (left right : positive) : M positive :=
  let* fl := read left in
  let* fr := read right in
  if has_index_column fl || has_index_column fr then raise
  else new_frame (<["index_right" := sjoin_labels lib fl fr]> (sjoin_rows lib fl fr)).

(** [if 'index_right' in df.columns: df = df.drop(columns=['index_right'])] *)
Definition drop_index_right (df : positive) : M positive :=
  let* f := read df in
  if decide (is_Some (f !! "index_right")) then new_frame (delete "index_right" f)
  else ret df.

(** [df.reset_index(drop=True)] *)
Definition reset_index (df : positive) : M positive :=
  let* f := read df in new_frame f.

Definition merge (lib : library) (left right : positive) : M positive :=
  let* fl := read left in
  let* fr := read right in new_frame (merge_rows lib fl fr).

Definition nrows (f : frame) : nat :=
  match map_to_list f with
  | [] => 0
  | (_, v) :: _ => length v
  end.

(** *** [prep_data.preprocess] *)

(** Lines 48-49: the time stamps of both arguments are parsed in place. *)
Definition preprocess_timestamps (lib : library) (weather incidents : positive) : M unit :=
  let* ts := getitem weather "timestamp" in
  exec setitem weather "timestamp" (to_datetime lib ts) in
  let* ts := getitem incidents "timestamp" in
  setitem incidents "timestamp" (to_datetime lib ts).

(** Lines 51-62: the two frames with their points, and the
    nearest-point join. *)
Definition preprocess_nearest (lib : library) (weather incidents : positive)
  : M positive :=
  let* lon := getitem weather "lon" in
  let* lat := getitem weather "lat" in
  let* weather_gdf := GeoDataFrame weather (points_from_xy lib lon lat) in
  let* lon := getitem incidents "lon" in
  let* lat := getitem incidents "lat" in
  let* incidents_gdf := GeoDataFrame incidents (points_from_xy lib lon lat) in
  let* right := select_columns weather_gdf
             ["geometry"; "timestamp"; "temp"; "humidity"; "wind"] in
  sjoin_nearest lib (Some (dec 5 100)) incidents_gdf right.

(** Lines 51-64: the two spatial joins.  Line 64 joins the frame as
    line 62 returned it, with its column [index_right]. *)
Definition preprocess_joins (lib : library) (weather incidents landcover : positive)
  : M positive :=
  let* incidents_gdf := preprocess_nearest lib weather incidents in
  let* incidents_gdf := sjoin lib incidents_gdf landcover in
  ret incidents_gdf.

(** *** [data_preparation.spatial_temporal_join] *)

(** Lines 167-215: the two spatial joins. *)
Definition spatial_joins (lib : library) (weather_df incidents_df landcover_gdf : positive)
  : M (positive * positive) :=
  let* w := read weather_df in
  let* weather_gdf :=
    GeoDataFrame weather_df
      (constant_points lib (dec 129716 10000) (dec 775946 10000) (nrows w)) in
  let* lon := getitem incidents_df "lon" in
  let* lat := getitem incidents_df "lat" in
  let* incidents_gdf := GeoDataFrame incidents_df (points_from_xy lib lon lat) in
  let* right := select_columns weather_gdf
             ["geometry"; "time"; "temp"; "tavg"; "tmin"; "prcp";
              "temp_roll3"; "tavg_roll3"; "tmin_roll3"] in
  let* incidents_weather := sjoin_nearest lib None incidents_gdf right in
  let* incidents_weather := drop_index_right incidents_weather in
  let* incidents_weather := reset_index incidents_weather in
  let* incidents_landcover := sjoin lib incidents_weather landcover_gdf in
  let* incidents_landcover := drop_index_right incidents_landcover in
  let* incidents_landcover := reset_index incidents_landcover in
  ret (weather_gdf, incidents_landcover).

(** Lines 217-232: the day columns and the merge on the day. *)
Definition temporal_join (lib : library) (weather_gdf incidents_landcover : positive)
  : M positive :=
  let* ts := getitem incidents_landcover "timestamp" in
  exec setitem incidents_landcover "date" (floor_day lib ts) in
  let* ts := getitem weather_gdf "time" in
  exec setitem weather_gdf "date" (floor_day lib ts) in
  let* right := select_columns weather_gdf
             ["date"; "temp"; "tavg"; "tmin"; "prcp";
              "temp_roll3"; "tavg_roll3"; "tmin_roll3"] in
  merge lib incidents_landcover right.

Definition spatial_temporal_join (lib : library)
    (weather_df incidents_df landcover_gdf : positive) : M positive :=
  let* joined := spatial_joins lib weather_df incidents_df landcover_gdf in
  temporal_join lib (fst joined) (snd joined).

(** The heap [h'] holds every object of [h] unchanged. *)
Definition unchanged (h h' : heap) : Prop :=
  forall l f, h !! l = Some f -> h' !! l = Some f.

(** A frame has the listed columns. *)
Definition has_columns (f : frame) (cols : list string) : Prop :=
  Forall (fun c => is_Some (f !! c)) cols.

(** [m] returns from [h]; [Q] holds of its result and final heap. *)
Definition wp {A} (m : M A) (Q : A -> heap -> Prop) (h : heap) : Prop :=
  exists a h', m h = Some (a, h') /\ Q a h'.

(** [m] returns from [h] a frame that is a new object, and every object
    of [h] is as it was. *)
Definition returns_new {A} (h : heap) (m : M A) (frame_of : A -> positive) : Prop :=
  wp m (fun a h' => h !! frame_of a = None
                    /\ is_Some (h' !! frame_of a)
                    /\ unchanged h h') h.

(** A frame without the two columns that a join refuses. *)
Definition no_index_columns (f : frame) : Prop :=
  f !! "index_left" = None /\ f !! "index_right" = None.

(** The nearest-point join adds no column [index_left] of its own: the
    joined contents have one only if a side has it, or if both sides
    have a column [index], which the join renames with its suffixes
    [_left] and [_right]. *)
Definition adds_no_index_left (lib : library) : Prop :=
  forall max_distance fl fr,
    fl !! "index_left" = None -> fr !! "index_left" = None ->
    fl !! "index" = None \/ fr !! "index" = None ->
    sjoin_nearest_rows lib max_distance fl fr !! "index_left" = None.

(** *** [prep_data.preprocess], whole *)

(** What pandas computes on the contents in lines 65-77. *)
Record prep_library := {
  joins : library;
  sort_rows : string -> frame -> frame;
  rolling_mean_72 : list value -> list value;
  floor_hour : list value -> list value;
  merge_asof_rows : frame -> frame -> frame;
  dt_hour : list value -> list value;
  dt_dayofweek : list value -> list value
}.

(** [df.sort_values(c)] *)
Definition sort_values (lib : prep_library) (df : positive) (c : string) : M positive :=
  let* f := read df in
  if decide (is_Some (f !! c)) then new_frame (sort_rows lib c f)
  else fun _ => None.

(** [pd.merge_asof(left, right, left_on=..., right_on=..., direction='backward')] *)
Definition merge_asof (lib : prep_library) (left right : positive)
    (left_on right_on : string) : M positive :=
  let* fl := read left in
  let* fr := read right in
  if decide (is_Some (fl !! left_on) /\ is_Some (fr !! right_on))
  then new_frame (merge_asof_rows lib fl fr)
  else fun _ => None.

(** [df.copy()] *)
Definition copy (df : positive) : M positive :=
  let* f := read df in new_frame f.

(** [df.columns] *)
Definition columns (f : frame) : list string := map fst (map_to_list f).

Definition preprocess (lib : prep_library) (weather incidents landcover : positive)
  : M positive :=
  exec preprocess_timestamps (joins lib) weather incidents in
  let* incidents_gdf := preprocess_joins (joins lib) weather incidents landcover in
  let* weather := sort_values lib weather "timestamp" in
  let* temp := getitem weather "temp" in
  exec setitem weather "temp_roll3" (rolling_mean_72 lib temp) in
  let* humidity := getitem weather "humidity" in
  exec setitem weather "humidity_roll3" (rolling_mean_72 lib humidity) in
  let* wind := getitem weather "wind" in
  exec setitem weather "wind_roll3" (rolling_mean_72 lib wind) in
  let* ts := getitem incidents_gdf "timestamp" in
  exec setitem incidents_gdf "incident_hour" (floor_hour lib ts) in
  let* ts := getitem weather "timestamp" in
  exec setitem weather "weather_hour" (floor_hour lib ts) in
  let* left := sort_values lib incidents_gdf "incident_hour" in
  let* right := select_columns weather
             ["weather_hour"; "temp_roll3"; "humidity_roll3"; "wind_roll3"] in
  let* right := sort_values lib right "weather_hour" in
  let* merged := merge_asof lib left right "incident_hour" "weather_hour" in
  let* incident_hour := getitem merged "incident_hour" in
  exec setitem merged "hour" (dt_hour lib incident_hour) in
  let* incident_hour := getitem merged "incident_hour" in
  exec setitem merged "dayofweek" (dt_dayofweek lib incident_hour) in
  let* lc := read landcover in
  let feature_cols := Prep.feature_cols (columns lc) in
  let* features := select_columns merged feature_cols in
  copy features.

End Frames.

(** ** Sample frames

    A heap with a weather frame, an incident frame and a land-cover
    frame of one row each, and stand-ins for the contents that the
    libraries compute (the joined contents are the columns of both
    sides). *)
Module FrameSamples.

Definition lib0 : Frames.library :=
  {| Frames.to_datetime := map (fun v => match v with
                                         | Frames.V_str _ => Frames.V_time 1654088400
                                         | other => other
                                         end);
     Frames.points_from_xy :=
       fun xs ys => map (fun xy => match xy with
                                   | (Frames.V_num x, Frames.V_num y) => Frames.V_point x y
                                   | _ => Frames.V_nan
                                   end) (combine xs ys);
     Frames.constant_points := fun x y n => repeat (Frames.V_point x y) n;
     Frames.sjoin_nearest_rows := fun _ fl fr => union fl fr;
     Frames.sjoin_nearest_labels := fun _ fl _ => repeat (Frames.V_num 0) (Frames.nrows fl);
     Frames.sjoin_rows := fun fl fr => union fl fr;
     Frames.sjoin_labels := fun fl _ => repeat (Frames.V_num 0) (Frames.nrows fl);
     Frames.floor_day := fun ts => ts;
     Frames.merge_rows := fun fl fr => union fl fr |}.

Definition weather0 : gmap string (list Frames.value) :=
  list_to_map
    [("timestamp", [Frames.V_str "2022-06-01T13:00"]);
     ("lat", [Frames.V_num (dec 1297 100)]);
     ("lon", [Frames.V_num (dec 7759 100)]);
     ("temp", [Frames.V_num (dec 39 1)]);
     ("humidity", [Frames.V_num (dec 40 1)]);
     ("wind", [Frames.V_num (dec 3 1)])].

Definition incidents0 : gmap string (list Frames.value) :=
  list_to_map
    [("timestamp", [Frames.V_str "2022-06-01T14:00"]);
     ("lat", [Frames.V_num (dec 1297 100)]);
     ("lon", [Frames.V_num (dec 7759 100)]);
     ("type", [Frames.V_str "heat_stroke"])].

Definition landcover0 : gmap string (list Frames.value) :=
  list_to_map
    [("geometry", [Frames.V_point (dec 7759 100) (dec 1297 100)]);
     ("landcover_type", [Frames.V_str "urban"])].

Definition heap0 : gmap positive (gmap string (list Frames.value)) :=
  list_to_map [(1%positive, weather0); (2%positive, incidents0); (3%positive, landcover0)].

End FrameSamples.

(** ** [improved_model.py]: the label *)
Module ImprovedModel.

(** [load_and_label]: the incident types of the positive class. *)
Definition heat_related : list string :=
  ["heat_stroke"; "dehydration"; "fainting"; "heat_exhaustion"].

(** [df["incident_type"].isin(heat_related).astype(int)] *)
Definition hazard (incident_type : string) : Z :=
  if bool_decide (incident_type ∈ heat_related) then 1 else 0.

End ImprovedModel.

(** ** [model_training.py] and [improved_model_training.py]

    The two scripts share the label, the split by date and the encoding
    of the categorical columns. *)
Module ModelTraining.

(** [(df['incident_type'] == 'heat_stroke').astype(int)] *)
Definition hazard_binary (incident_type : string) : Z :=
  if String.eqb incident_type "heat_stroke" then 1 else 0.

(** The incident types that the sample generator of
    [data_preparation.load_incidents_data] draws from. *)
Definition sample_incident_types : list string := ["heat_stroke"; "fire"; "drought"].

Section Split.
Context {A : Type} (timestamp : A -> Z).

(** [split_data_by_date]: time stamps count seconds.  On an empty frame
    the latest date is NaT and both comparisons are false.  The report
    that the function prints divides by the number of rows. *)
Definition split_data_by_date (df : list A) : Py.result (list A * list A) :=
  let max_date := Py.series_max (map timestamp df) in
  let split_date := option_map (fun m => (m - 90 * 86400)%Z) max_date in
  let train_df :=
    List.filter (fun r => match split_date with
                          | Some s => (timestamp r <=? s)%Z
                          | None => false
                          end) df in
  let test_df :=
    List.filter (fun r => match split_date with
                          | Some s => (s <? timestamp r)%Z
                          | None => false
                          end) df in
  if (length df =? 0)%nat then inl (Py.ZeroDivisionError "division by zero")
  else inr (train_df, test_df).

End Split.

(** The encoding of a categorical column ([prepare_features], and
    [prepare_enhanced_features]): the distinct values of the training
    and the test column, numbered in order of first appearance. *)
Definition all_values (train_col test_col : list string) : list string :=
  Py.unique (train_col ++ test_col).

(** [{val: idx for idx, val in enumerate(all_values)}] *)
Definition value_to_int (train_col test_col : list string) : gmap string nat :=
  fold_left (fun d iv => <[snd iv := fst iv]> d)
            (imap (fun idx val => (idx, val)) (all_values train_col test_col)) ∅.

(** [column.map(value_to_int)]; [None] is the NaN of a value that has no
    code. *)
Definition encode (d : gmap string nat) (column : list string) : list (option nat) :=
  map (fun v => d !! v) column.

End ModelTraining.

(** ** [inference/setup.py]: copying the model files

    The file system is the set of the paths that exist; copying a file
    makes its destination exist.  The source and the destination
    directory are different directories. *)
Module Setup.

Definition required_files : list string :=
  ["heat_hazard_best_v4.joblib"; "feature_list_v4.joblib"; "threshold_v4.joblib"].

(** [Path(a) / b] *)
Definition path_div (a b : string) : string := (a ++ "/" ++ b)%string.

(** [copy_model_files]: the value it returns and the paths that exist
    afterwards. *)
Definition copy_model_files (fs : gset string) : bool * gset string :=
  let ml_models_path := "../ML/models" in
  let local_models_path := "models" in
  if negb (bool_decide (ml_models_path ∈ fs)) then (false, fs)
  else
    (* local_models_path.mkdir(exist_ok=True) *)
    let fs := {[local_models_path]} ∪ fs in
    let copied :=
      fold_left (fun st file =>
                   let src := path_div ml_models_path file in
                   let dst := path_div local_models_path file in
                   if bool_decide (src ∈ fst st)
                   then ({[dst]} ∪ fst st, snd st ++ [file])
                   else st)
                required_files (fs, []) in
    (* Try to copy scaler if it exists *)
    let scaler_src := path_div ml_models_path "scaler_v4.joblib" in
    let scaler_dst := path_div local_models_path "scaler_v4.joblib" in
    let copied :=
      if bool_decide (scaler_src ∈ fst copied)
      then ({[scaler_dst]} ∪ fst copied, snd copied ++ ["scaler_v4.joblib"])
      else copied in
    ((3 <=? length (snd copied))%nat, fst copied).

End Setup.

(** ** [data_preparation.py]: cleaning and exporting the features

    A frame is the list of its columns, in order, with their names.  A
    column is numeric, of strings (dtype [object]) or of times; a null
    entry is [None]. *)
Module Cleaning.

Inductive column :=
| Numeric (values : list (option Qc))
| Object (values : list (option string))
| Datetime (values : list (option Z)).

Definition feature_columns : list string :=
  ["timestamp"; "lat"; "lon"; "incident_type"; "severity";
   "temp"; "tavg"; "tmin"; "prcp";
   "temp_roll3"; "tavg_roll3"; "tmin_roll3";
   "dayofweek"; "month"; "dayofyear"; "season";
   "landcover_type"; "urban_density"; "vegetation_cover"; "water_bodies"].

(** [df[c]] *)
Definition getitem (df : list (string * column)) (c : string) : option column :=
  option_map snd (List.find (fun nc => String.eqb (fst nc) c) df).

(** [[col for col in feature_columns if col in df.columns]] *)
Definition available_columns (df : list (string * column)) : list string :=
  List.filter (fun col => bool_decide (col ∈ map fst df)) feature_columns.

(** [df[cols]], for columns that the frame has *)
Definition select (df : list (string * column)) (cols : list string)
  : list (string * column) :=
  omap (fun c => option_map (pair c) (getitem df c)) cols.

(** [column.mean()]: the mean of the entries that are not null; NaN
    ([None]) when there is none. *)
Definition column_mean (values : list (option Qc)) : option Qc :=
  Rolling.mean (omap id values).

(** [column.fillna(value)]; filling with NaN changes nothing. *)
Definition fillna (values : list (option Qc)) (value : option Qc) : list (option Qc) :=
  map (fun x => match x with Some _ => x | None => value end) values.

(** [df[numeric_columns] = df[numeric_columns].fillna(df[numeric_columns].mean())] *)
Definition fill_numeric (nc : string * column) : string * column :=
  match snd nc with
  | Numeric values => (fst nc, Numeric (fillna values (column_mean values)))
  | _ => nc
  end.

Definition height (c : column) : nat :=
  match c with
  | Numeric values => length values
  | Object values => length values
  | Datetime values => length values
  end.

Definition nrows (df : list (string * column)) : nat :=
  match df with
  | [] => 0
  | (_, c) :: _ => height c
  end.

(** Row [i] is not null in the column, if it is a column of strings. *)
Definition notna_at (i : nat) (nc : string * column) : bool :=
  match snd nc with
  | Object values => match values !! i with Some None => false | _ => true end
  | _ => true
  end.

(** [values[mask]] *)
Fixpoint take_rows {A} (mask : list bool) (values : list A) : list A :=
  match mask, values with
  | b :: mask', v :: values' =>
      if b then v :: take_rows mask' values' else take_rows mask' values'
  | _, _ => []
  end.

Definition take_rows_of (mask : list bool) (c : column) : column :=
  match c with
  | Numeric values => Numeric (take_rows mask values)
  | Object values => Object (take_rows mask values)
  | Datetime values => Datetime (take_rows mask values)
  end.

(** [df.dropna(subset=categorical_columns)], the columns of strings *)
Definition dropna_mask (df : list (string * column)) : list bool :=
  map (fun i => forallb (notna_at i) df) (seq 0 (nrows df)).

Definition dropna_object (df : list (string * column)) : list (string * column) :=
  map (fun nc => (fst nc, take_rows_of (dropna_mask df) (snd nc))) df.

(** The frame that is exported. *)
Definition clean (df : list (string * column)) : list (string * column) :=
  let final_features := select df (available_columns df) in
  let final_features := map fill_numeric final_features in
  dropna_object final_features.

(** [clean_and_export_features]: the files written, and the frame
    returned or the exception raised.  The summary printed after the
    export reads three columns of the cleaned frame. *)
Definition clean_and_export_features (df : list (string * column))
    (output_path : string)
  : list (string * list (string * column)) * Py.result (list (string * column)) :=
  let final_features := clean df in
  ([(output_path, final_features)],
   match List.find (fun c => negb (bool_decide (c ∈ map fst final_features)))
                   ["timestamp"; "incident_type"; "landcover_type"] with
   | Some c => inl (Py.KeyError c)
   | None => inr final_features
   end).

(** A joined frame of three incidents: the second has no temperature,
    the third no incident type. *)
Definition sample : list (string * column) :=
  [("timestamp", Datetime [Some 1654092000%Z; Some 1654178400%Z; Some 1654264800%Z]);
   ("incident_type", Object [Some "heat_stroke"; Some "fainting"; None]);
   ("temp", Numeric [Some (dec 38 1); None; Some (dec 36 1)]);
   ("landcover_type", Object [Some "urban"; Some "urban"; Some "park"])].

End Cleaning.

(* ===================================================================== *)
(** * Part II.  Properties                                                *)
(* ===================================================================== *)

Section RollingFacts.
Import Rolling.

Lemma slice_length {A} (l : list A) lo hi :
  (hi <= length l)%nat -> length (slice l lo hi) = (hi - lo)%nat.
Proof.
  intros H. unfold slice. rewrite length_firstn, length_skipn. lia.
Qed.

Lemma slice_split {A} (l : list A) lo mid hi :
  (lo <= mid)%nat -> (mid <= hi)%nat ->
  slice l lo hi = slice l lo mid ++ slice l mid hi.
Proof.
  intros H1 H2. unfold slice.
  replace (hi - lo)%nat with ((mid - lo) + (hi - mid))%nat by lia.
  rewrite <- take_take_drop. f_equal.
  rewrite skipn_skipn. do 2 f_equal; lia.
Qed.

Lemma slice_nil {A} (l : list A) lo : slice l lo lo = [].
Proof. unfold slice. now rewrite Nat.sub_diag. Qed.

Lemma slice_all {A} (l : list A) : slice l 0 (length l) = l.
Proof. unfold slice. rewrite Nat.sub_0_r. simpl. apply firstn_all. Qed.

Lemma slice_one {A} (l : list A) i x :
  l !! i = Some x -> slice l i (S i) = [x].
Proof.
  intros H. unfold slice. replace (S i - i)%nat with 1%nat by lia.
  revert i H. induction l as [|y l IH]; intros [|i] H; simpl in *; try discriminate.
  - now inversion H.
  - now apply IH.
Qed.

Lemma Qcsum_app l1 l2 : Qcsum (l1 ++ l2) = Qcsum l1 + Qcsum l2.
Proof.
  induction l1 as [|x l1 IH]; simpl.
  - ring.
  - rewrite IH. ring.
Qed.

Lemma fold_add_mean l st :
  fold_left add_mean l st
  = ((fst st + Z.of_nat (length l))%Z, snd st + Qcsum l).
Proof.
  revert st. induction l as [|x l IH]; intros [n q]; simpl.
  - f_equal; [lia | ring].
  - rewrite IH. simpl. f_equal; [lia | ring].
Qed.

Lemma fold_remove_mean l st :
  fold_left remove_mean l st
  = ((fst st - Z.of_nat (length l))%Z, snd st - Qcsum l).
Proof.
  revert st. induction l as [|x l IH]; intros [n q]; simpl.
  - f_equal; [lia | ring].
  - rewrite IH. simpl. f_equal; [lia | ring].
Qed.

Lemma add_range_fresh values s e :
  add_range values s e acc0 = window_acc values s e.
Proof.
  unfold add_range, window_acc, acc0. rewrite fold_add_mean. simpl.
  f_equal. ring.
Qed.

(** Sliding the window: dropping [values[ps:s]] and appending
    [values[pe:e]] turns the state of [ps, pe) into that of [s, e). *)
Lemma slide_window values ps pe s e :
  (ps <= s)%nat -> (s <= pe)%nat -> (pe <= e)%nat ->
  add_range values pe e (remove_range values ps s (window_acc values ps pe))
  = window_acc values s e.
Proof.
  intros H1 H2 H3. unfold add_range, remove_range, window_acc.
  rewrite fold_remove_mean, fold_add_mean. simpl.
  rewrite (slice_split values ps s pe) by lia.
  rewrite (slice_split values s pe e) by lia.
  rewrite !length_app, !Qcsum_app. f_equal; [lia | ring].
Qed.

(** Invariant of the loop: after each position the running state is the
    state of that position's window. *)
Lemma roll_loop_windows minp values bounds :
  forall prev st,
    forward prev bounds -> described values prev st ->
    roll_loop minp values bounds prev st
    = map (fun b => calc_mean minp (window_acc values (fst b) (snd b))) bounds.
Proof.
  induction bounds as [|[s e] rest IH]; intros prev st Hf Hd; simpl; [reflexivity|].
  destruct Hf as (Hse & Hprev & Hrest).
  assert (Hst : match prev with
                | None => add_range values s e acc0
                | Some (ps, pe) =>
                    if (pe <=? s)%nat then add_range values s e acc0
                    else add_range values pe e (remove_range values ps s st)
                end = window_acc values s e).
  { destruct prev as [[ps pe]|]; [|apply add_range_fresh].
    destruct (Nat.leb_spec pe s); [apply add_range_fresh|].
    simpl in Hd. subst st. destruct Hprev. apply slide_window; lia. }
  rewrite Hst. f_equal. apply IH; [exact Hrest | reflexivity].
Qed.

Lemma roll_mean_windows minp values bounds :
  forward None bounds ->
  roll_mean minp values bounds
  = map (fun b => calc_mean minp (window_acc values (fst b) (snd b))) bounds.
Proof. intros H. unfold roll_mean. now apply roll_loop_windows. Qed.

Lemma calc_mean_window values s e :
  slice values s e <> [] ->
  calc_mean 1 (window_acc values s e) = mean (slice values s e).
Proof.
  intros Hne. unfold calc_mean, window_acc, mean. simpl.
  destruct (slice values s e) as [|x l] eqn:E; [congruence|].
  replace ((1 <=? Z.of_nat (length (x :: l)))%Z) with true
    by (symmetry; apply Z.leb_le; simpl length; lia).
  replace ((0 <? Z.of_nat (length (x :: l)))%Z) with true
    by (symmetry; apply Z.ltb_lt; simpl length; lia).
  reflexivity.
Qed.

Lemma forward_map_seq (f : nat -> nat * nat) :
  (forall i, (fst (f i) <= snd (f i))%nat) ->
  (forall i, (fst (f i) <= fst (f (S i)))%nat /\ (snd (f i) <= snd (f (S i)))%nat) ->
  forall n a prev,
    match prev with
    | None => True
    | Some (ps, pe) => (0 < n)%nat -> (ps <= fst (f a))%nat /\ (pe <= snd (f a))%nat
    end ->
    forward prev (map f (seq a n)).
Proof.
  intros Hle Hstep. induction n as [|n IH]; intros a prev Hp; simpl; [exact I|].
  destruct (f a) as [s e] eqn:E. split; [|split].
  - specialize (Hle a). now rewrite E in Hle.
  - destruct prev as [[ps pe]|]; [|exact I]. apply Hp. lia.
  - apply IH. intros _. specialize (Hstep a). now rewrite E in Hstep.
Qed.

Lemma fixed_bounds_forward W n : forward None (fixed_bounds W n).
Proof.
  unfold fixed_bounds. apply forward_map_seq; cbn [fst snd]; intros; try exact I; lia.
Qed.

Lemma fixed_bounds_lookup W n i :
  (i < n)%nat -> fixed_bounds W n !! i = Some ((S i - W)%nat, S i).
Proof.
  intros H. unfold fixed_bounds. rewrite list_lookup_fmap.
  rewrite lookup_seq_lt by exact H. cbn [fmap option_fmap option_map Nat.add]. do 2 f_equal; lia.
Qed.

Lemma length_fixed_bounds W n : length (fixed_bounds W n) = n.
Proof. unfold fixed_bounds. now rewrite length_map, length_seq. Qed.

Lemma trailing_window_slice W values i :
  trailing_window W values i = slice values (S i - W) (S i).
Proof. unfold trailing_window. f_equal; lia. Qed.

Lemma trailing_window_nonempty W values i :
  (1 <= W)%nat -> (i < length values)%nat -> trailing_window W values i <> [].
Proof.
  intros HW Hi E. apply (f_equal (@length Qc)) in E.
  rewrite trailing_window_slice, slice_length in E by lia. simpl in E. lia.
Qed.

Lemma rolling_mean_length W values :
  length (rolling_mean W values) = length values.
Proof.
  unfold rolling_mean. rewrite roll_mean_windows by apply fixed_bounds_forward.
  now rewrite length_map, length_fixed_bounds.
Qed.

Lemma rolling_mean_lookup W values i :
  (1 <= W)%nat -> (i < length values)%nat ->
  rolling_mean W values !! i = Some (mean (trailing_window W values i)).
Proof.
  intros HW Hi. unfold rolling_mean.
  rewrite roll_mean_windows by apply fixed_bounds_forward.
  rewrite list_lookup_fmap, fixed_bounds_lookup by exact Hi.
  cbn [fmap option_fmap option_map fst snd]. f_equal.
  rewrite trailing_window_slice. apply calc_mean_window.
  rewrite <- trailing_window_slice. now apply trailing_window_nonempty.
Qed.

Lemma of_Z_1 : of_Z 1 = 1.
Proof. apply Qc_is_canon. reflexivity. Qed.

Lemma mean_singleton x : mean [x] = Some x.
Proof.
  unfold mean. change (of_Z (Z.of_nat (length [x]))) with (of_Z 1).
  rewrite of_Z_1. f_equal. simpl. field. discriminate.
Qed.

(** C3.  For every sequence of observations and every window size
    [W >= 1], the rolling aggregator returns a sequence of the same
    length whose element at position [i] is the arithmetic mean of the
    observations at positions [max(0, i - W + 1) .. i]; the first output
    is the first input, a single observation yields itself, and for
    [W = 1] the output is the input, element by element. *)
Theorem rolling_mean_trailing_window (W : nat) (values : list Qc) :
  (1 <= W)%nat ->
  length (Rolling.rolling_mean W values) = length values
  /\ (forall i, (i < length values)%nat ->
        Rolling.rolling_mean W values !! i
        = Some (Rolling.mean (Rolling.trailing_window W values i)))
  /\ (forall x, values !! 0%nat = Some x ->
        Rolling.rolling_mean W values !! 0%nat = Some (Some x))
  /\ (forall x, values = [x] -> Rolling.rolling_mean W values = [Some x])
  /\ (W = 1%nat -> Rolling.rolling_mean W values = map Some values).
Proof.
  intros HW.
  assert (Hfirst : forall x, values !! 0%nat = Some x ->
            rolling_mean W values !! 0%nat = Some (Some x)).
  { intros x Hx. rewrite rolling_mean_lookup; [|exact HW|].
    - rewrite trailing_window_slice.
      replace (1 - W)%nat with 0%nat by lia.
      rewrite (slice_one values 0 x Hx). now rewrite mean_singleton.
    - apply lookup_lt_Some in Hx. exact Hx. }
  split; [apply rolling_mean_length|].
  split; [intros i Hi; now apply rolling_mean_lookup|].
  split; [exact Hfirst|].
  split.
  - intros x ->. specialize (Hfirst x eq_refl).
    pose proof (rolling_mean_length W [x]) as Hl.
    destruct (rolling_mean W [x]) as [|y [|z l]]; simpl in *; try discriminate.
    now inversion Hfirst.
  - intros ->. apply list_eq. intros i.
    destruct (Nat.lt_ge_cases i (length values)) as [Hi|Hi].
    + rewrite rolling_mean_lookup by lia. rewrite list_lookup_fmap.
      destruct (lookup_lt_is_Some_2 values i Hi) as [x Hx]. rewrite Hx. simpl.
      rewrite trailing_window_slice. replace (S i - 1)%nat with i by lia.
      rewrite (slice_one values i x Hx). now rewrite mean_singleton.
    + rewrite !lookup_ge_None_2; try reflexivity.
      * now rewrite length_map.
      * now rewrite rolling_mean_length.
Qed.

(** C3 at three readings and window 3. *)
Lemma rolling_mean_trailing_window_witness :
  (1 <= 3)%nat
  /\ length (Rolling.rolling_mean 3 [dec 30 1; dec 33 1; dec 36 1]) = 3%nat.
Proof.
  split; [lia|].
  apply (rolling_mean_trailing_window 3 [dec 30 1; dec 33 1; dec 36 1]). lia.
Defined.

(** ** Grouped rolling *)

Lemma forward_head ps pe ps' pe' bounds :
  forward (Some (ps, pe)) bounds -> (ps' <= ps)%nat -> (pe' <= pe)%nat ->
  forward (Some (ps', pe')) bounds.
Proof.
  destruct bounds as [|[s e] rest]; simpl; [trivial|].
  intros (H1 & (H2 & H3) & H4) Hs He. repeat split; try assumption; lia.
Qed.

Lemma forward_none p bounds : forward (Some p) bounds -> forward None bounds.
Proof.
  destruct bounds as [|[s e] rest]; simpl; [trivial|].
  destruct p. intros (H1 & _ & H4). auto.
Qed.

Lemma forward_app c l1 l2 :
  forall prev,
    forward prev l1 ->
    match prev with Some (ps, pe) => (ps <= c)%nat /\ (pe <= c)%nat | None => True end ->
    Forall (fun b => (fst b <= c)%nat /\ (snd b <= c)%nat) l1 ->
    forward (Some (c, c)) l2 ->
    forward prev (l1 ++ l2).
Proof.
  induction l1 as [|[s e] l1 IH]; intros prev Hf Hp Hall H2; simpl.
  - destruct prev as [[ps pe]|].
    + destruct Hp. eapply forward_head; eauto.
    + eapply forward_none; eauto.
  - destruct Hf as (H1 & H3 & H4). inversion Hall as [|? ? Hb Hall']; subst.
    repeat split; try assumption. apply IH; auto.
Qed.

Lemma groupby_bounds_forward W sizes :
  forall off, forward (Some (off, off)) (groupby_bounds W sizes off).
Proof.
  induction sizes as [|n sizes IH]; intros off; simpl; [exact I|].
  apply (forward_app (off + n)).
  - unfold fixed_bounds. rewrite map_map.
    apply forward_map_seq; cbn [fst snd]; intros; lia.
  - lia.
  - unfold fixed_bounds. rewrite map_map. apply List.Forall_forall.
    intros b Hb. apply in_map_iff in Hb as (i & <- & _). cbn [fst snd]. lia.
  - apply IH.
Qed.

Lemma slice_app_shift {A} (pre vs post : list A) a b :
  (b <= length vs)%nat ->
  slice (pre ++ vs ++ post) (length pre + a) (length pre + b) = slice vs a b.
Proof.
  intros Hb. unfold slice.
  rewrite drop_app_add.
  replace (length pre + b - (length pre + a))%nat with (b - a)%nat by lia.
  destruct (Nat.le_gt_cases a (length vs)) as [Ha|Ha].
  - rewrite drop_app_le by exact Ha. apply take_app_le.
    rewrite length_drop. lia.
  - replace (b - a)%nat with 0%nat by lia. reflexivity.
Qed.

(** Rolling over the regrouped values with the group-wise bounds is the
    concatenation of the rollings of the groups, each taken alone. *)
Lemma windows_by_group W (vss : list (list Qc)) :
  forall pre,
    map (fun b => calc_mean 1 (window_acc (pre ++ concat vss) (fst b) (snd b)))
        (groupby_bounds W (map (@length Qc) vss) (length pre))
    = concat (map (rolling_mean W) vss).
Proof.
  induction vss as [|vs vss IH]; intros pre; [reflexivity|].
  cbn [map concat groupby_bounds]. rewrite map_app. f_equal.
  - unfold rolling_mean. rewrite roll_mean_windows by apply fixed_bounds_forward.
    rewrite map_map. apply map_ext_in. intros b Hb. cbn [fst snd].
    unfold window_acc. rewrite slice_app_shift; [reflexivity|].
    unfold fixed_bounds in Hb. apply in_map_iff in Hb as (i & <- & _).
    cbn [snd]. lia.
  - specialize (IH (pre ++ vs)). rewrite length_app, <- app_assoc in IH.
    exact IH.
Qed.

Lemma roll_mean_by_group W (vss : list (list Qc)) :
  roll_mean 1 (concat vss) (groupby_bounds W (map (@length Qc) vss) 0)
  = concat (map (rolling_mean W) vss).
Proof.
  rewrite roll_mean_windows.
  - apply (windows_by_group W vss []).
  - eapply forward_none. apply groupby_bounds_forward.
Qed.

Lemma combine_app_same {A B} (l1 l2 : list A) (k1 k2 : list B) :
  length l1 = length k1 ->
  combine (l1 ++ l2) (k1 ++ k2) = combine l1 k1 ++ combine l2 k2.
Proof.
  revert k1. induction l1 as [|a l1 IH]; intros [|b k1] Hl; simpl in *;
    try discriminate; [reflexivity|].
  f_equal. apply IH. lia.
Qed.

Lemma lookup_combine {A B} (l : list A) (k : list B) i a b :
  combine l k !! i = Some (a, b) -> l !! i = Some a /\ k !! i = Some b.
Proof.
  revert k i. induction l as [|x l IH]; intros [|y k] [|i] H; simpl in *;
    try discriminate.
  - inversion H; subst. auto.
  - now apply IH.
Qed.

Section GroupedFacts.
Context {K : Type} `{EqDecision K}.
Implicit Types (rows : list (K * Qc)) (k : K).

Lemma indices_from_shift k rows pos :
  indices_from k rows pos = map (Nat.add pos) (indices_from k rows 0).
Proof.
  revert pos. induction rows as [|[k' x] rows IH]; intros pos; simpl; [reflexivity|].
  rewrite (IH (S pos)), (IH 1%nat).
  assert (E : map (Nat.add (S pos)) (indices_from k rows 0)
              = map (Nat.add pos) (map (Nat.add 1) (indices_from k rows 0))).
  { rewrite map_map. apply map_ext. intros. lia. }
  rewrite E. destruct (decide (k' = k)); simpl; rewrite ?Nat.add_0_r; reflexivity.
Qed.

Lemma group_indices_cons k k' x rows :
  group_indices k ((k', x) :: rows)
  = if decide (k' = k) then 0%nat :: map S (group_indices k rows)
    else map S (group_indices k rows).
Proof.
  unfold group_indices. simpl. rewrite (indices_from_shift k rows 1).
  reflexivity.
Qed.

Lemma group_values_cons k k' x rows :
  group_values k ((k', x) :: rows)
  = if decide (k' = k) then x :: group_values k rows else group_values k rows.
Proof.
  unfold group_values. rewrite filter_cons. simpl.
  destruct (decide (k' = k)); reflexivity.
Qed.

Lemma take_at_group k rows :
  take_at (map snd rows) (group_indices k rows) = group_values k rows.
Proof.
  induction rows as [|[k' x] rows IH]; [reflexivity|].
  rewrite group_indices_cons, group_values_cons.
  assert (Hs : take_at (map snd ((k', x) :: rows)) (map S (group_indices k rows))
               = group_values k rows).
  { rewrite <- IH. unfold take_at. rewrite map_map. reflexivity. }
  destruct (decide (k' = k)); [|exact Hs].
  change (take_at ?v (0%nat :: ?l)) with (nth 0 v 0 :: take_at v l).
  rewrite Hs. reflexivity.
Qed.

Lemma length_group_indices k rows :
  length (group_indices k rows) = length (group_values k rows).
Proof. rewrite <- take_at_group. unfold take_at. now rewrite length_map. Qed.

Lemma series_lookup_app i (s1 s2 : list (nat * option Qc)) :
  series_lookup i (s1 ++ s2)
  = match series_lookup i s1 with
    | Some v => Some v
    | None => series_lookup i s2
    end.
Proof.
  induction s1 as [|[j v] s1 IH]; simpl; [reflexivity|].
  destruct (i =? j)%nat; [reflexivity | exact IH].
Qed.

Lemma series_lookup_S i idx (out : list (option Qc)) :
  series_lookup (S i) (combine (map S idx) out)
  = series_lookup i (combine idx out).
Proof.
  revert out. induction idx as [|j idx IH]; intros [|o out]; simpl; try reflexivity.
  destruct (i =? j)%nat; [reflexivity | apply IH].
Qed.

(** A row is found in the series of its own group at its rank ... *)
Lemma series_lookup_own rows :
  forall i k x (out : list (option Qc)),
    rows !! i = Some (k, x) ->
    series_lookup i (combine (group_indices k rows) out) = out !! rank k rows i.
Proof.
  induction rows as [|[k' x'] rows IH]; intros i k x out Hi; [discriminate|].
  rewrite group_indices_cons. unfold rank. destruct i as [|i]; simpl in Hi.
  - inversion Hi; subst. rewrite decide_True by reflexivity.
    destruct out; reflexivity.
  - cbn [firstn]. rewrite group_values_cons.
    destruct (decide (k' = k)).
    + destruct out as [|o out]; [reflexivity|].
      cbn [combine series_lookup Nat.eqb length lookup list_lookup].
      rewrite series_lookup_S. apply (IH i k x out Hi).
    + rewrite series_lookup_S. apply (IH i k x out Hi).
Qed.

(** ... and in the series of no other group. *)
Lemma series_lookup_other rows :
  forall i k k' x (out : list (option Qc)),
    rows !! i = Some (k, x) -> k' <> k ->
    series_lookup i (combine (group_indices k' rows) out) = None.
Proof.
  induction rows as [|[k0 x0] rows IH]; intros i k k' x out Hi Hne; [discriminate|].
  rewrite group_indices_cons. destruct i as [|i]; simpl in Hi.
  - inversion Hi; subst. rewrite decide_False by congruence.
    generalize (group_indices k' rows). intros idx. revert out.
    induction idx as [|j idx IHidx]; intros [|o out]; simpl; auto.
  - destruct (decide (k0 = k')).
    + destruct out as [|o out]; [reflexivity|].
      cbn [combine series_lookup Nat.eqb].
      rewrite series_lookup_S. eapply IH; eauto.
    + rewrite series_lookup_S. eapply IH; eauto.
Qed.

Lemma rank_lt rows :
  forall i k x, rows !! i = Some (k, x) ->
    (rank k rows i < length (group_values k rows))%nat.
Proof.
  unfold rank.
  induction rows as [|[k' x'] rows IH]; intros i k x Hi; [discriminate|].
  rewrite group_values_cons. destruct i as [|i]; simpl in Hi.
  - inversion Hi; subst. rewrite decide_True by reflexivity. simpl. lia.
  - cbn [firstn]. rewrite group_values_cons. specialize (IH i k x Hi).
    destruct (decide (k' = k)); simpl; lia.
Qed.

Lemma groupby_rolling_series_groups W rows :
  groupby_rolling_series W rows
  = concat (map (group_series W rows) (group_keys rows)).
Proof.
  unfold groupby_rolling_series.
  generalize (group_keys rows). intros ks.
  assert (Hv : take_at (map snd rows) (concat (map (fun k => group_indices k rows) ks))
               = concat (map (fun k => group_values k rows) ks)).
  { induction ks as [|k ks IH]; [reflexivity|]. simpl.
    unfold take_at in *. rewrite map_app, IH. f_equal. apply take_at_group. }
  assert (Hl : map (@length nat) (map (fun k => group_indices k rows) ks)
               = map (@length Qc) (map (fun k => group_values k rows) ks)).
  { rewrite !map_map. apply map_ext. intros k. apply length_group_indices. }
  rewrite Hv, Hl, roll_mean_by_group. clear Hv Hl.
  induction ks as [|k ks IH]; [reflexivity|]. simpl.
  rewrite <- IH. unfold group_series.
  rewrite combine_app_same; [reflexivity|].
  rewrite rolling_mean_length. apply length_group_indices.
Qed.

Lemma series_lookup_groups W rows i k x ks :
  rows !! i = Some (k, x) -> NoDup ks -> k ∈ ks ->
  series_lookup i (concat (map (group_series W rows) ks))
  = rolling_mean W (group_values k rows) !! rank k rows i.
Proof.
  intros Hi Hnd Hin. induction ks as [|k' ks IH]; [inversion Hin|].
  simpl. rewrite series_lookup_app. inversion Hnd as [|? ? Hnotin Hnd']; subst.
  destruct (decide (k' = k)) as [->|Hne].
  - unfold group_series at 1. rewrite (series_lookup_own rows i k x _ Hi).
    pose proof (rank_lt rows i k x Hi) as Hlt.
    rewrite <- (rolling_mean_length W) in Hlt.
    destruct (lookup_lt_is_Some_2 _ _ Hlt) as [v Hv]. now rewrite Hv.
  - unfold group_series at 1.
    rewrite (series_lookup_other rows i k k' x _ Hi Hne).
    apply IH; [exact Hnd'|]. apply elem_of_cons in Hin as [->|]; [congruence|assumption].
Qed.

Lemma length_group_values_keys k rows :
  length (group_values k rows) = length (filter (fun k' => k' = k) (map fst rows)).
Proof.
  induction rows as [|[k' x] rows IH]; [reflexivity|].
  rewrite group_values_cons. cbn [map fst]. rewrite filter_cons.
  destruct (decide (k' = k)); simpl; rewrite IH; reflexivity.
Qed.

Lemma rank_keys k rows rows' i :
  map fst rows' = map fst rows -> rank k rows' i = rank k rows i.
Proof.
  intros E. unfold rank. rewrite !length_group_values_keys.
  rewrite <- !firstn_map, E. reflexivity.
Qed.

Lemma groupby_rolling_lookup W rows i k x :
  rows !! i = Some (k, x) ->
  groupby_rolling W rows !! i
  = rolling_mean W (group_values k rows) !! rank k rows i.
Proof.
  intros Hi. unfold groupby_rolling.
  rewrite list_lookup_fmap, lookup_seq_lt by (eapply lookup_lt_Some; eauto).
  cbn [fmap option_fmap option_map Nat.add].
  rewrite groupby_rolling_series_groups.
  rewrite (series_lookup_groups W rows i k x).
  - pose proof (rank_lt rows i k x Hi) as Hlt.
    rewrite <- (rolling_mean_length W) in Hlt.
    destruct (lookup_lt_is_Some_2 _ _ Hlt) as [v Hv]. now rewrite Hv.
  - exact Hi.
  - apply NoDup_remove_dups.
  - apply elem_of_remove_dups. apply list_elem_of_fmap.
    exists (k, x). split; [reflexivity|]. eapply list_elem_of_lookup_2; eauto.
Qed.

End GroupedFacts.

(** C8.  With the rows grouped by a key, the rolling aggregate of a row
    is the ungrouped rolling aggregate of the row's own group, read at
    the row's position inside the group: the window starts anew in each
    group, and the value is the same for every frame with the same keys
    and the same observations in that group. *)
Theorem groupby_rolling_per_group {K : Type} `{EqDecision K}
    (W : nat) (rows : list (K * Qc)) (i : nat) (k : K) (x : Qc) :
  rows !! i = Some (k, x) ->
  Rolling.groupby_rolling W rows !! i
  = Rolling.rolling_mean W (Rolling.group_values k rows) !! Rolling.rank k rows i
  /\ (forall rows' : list (K * Qc),
        map fst rows' = map fst rows ->
        Rolling.group_values k rows' = Rolling.group_values k rows ->
        Rolling.groupby_rolling W rows' !! i = Rolling.groupby_rolling W rows !! i).
Proof.
  intros Hi. split; [now apply (groupby_rolling_lookup W rows i k x)|].
  intros rows' Hk Hv.
  assert (Hi' : exists x', rows' !! i = Some (k, x')).
  { assert (Hf : map fst rows' !! i = Some k).
    { rewrite Hk, list_lookup_fmap, Hi. reflexivity. }
    rewrite list_lookup_fmap in Hf.
    destruct (rows' !! i) as [[k' x']|]; [|discriminate].
    simpl in Hf. inversion Hf; subst. eauto. }
  destruct Hi' as [x' Hi'].
  rewrite (groupby_rolling_lookup W rows i k x Hi).
  rewrite (groupby_rolling_lookup W rows' i k x' Hi').
  rewrite Hv, (rank_keys k rows rows' i Hk). reflexivity.
Qed.

(** C8 on two interleaved locations. *)
Lemma groupby_rolling_per_group_witness :
  let rows := [(1%nat, dec 30 1); (2%nat, dec 20 1); (1%nat, dec 40 1)] in
  rows !! 2%nat = Some (1%nat, dec 40 1)
  /\ Rolling.groupby_rolling 3 rows !! 2%nat
     = Rolling.rolling_mean 3 (Rolling.group_values 1%nat rows)
         !! Rolling.rank 1%nat rows 2.
Proof.
  intros rows. split; [reflexivity|].
  apply (groupby_rolling_per_group 3 rows 2 1%nat (dec 40 1)). reflexivity.
Defined.

End RollingFacts.

(** ** Sorting *)
Lemma insert_sorted_elem {A} (le : A -> A -> bool) x y l :
  y ∈ insert_sorted le x l <-> y = x \/ y ∈ l.
Proof.
  induction l as [|z l IH]; simpl.
  - rewrite list_elem_of_singleton, elem_of_nil. tauto.
  - destruct (le x z).
    + rewrite elem_of_cons. tauto.
    + rewrite !elem_of_cons, IH. tauto.
Qed.

Lemma sort_values_elem {A} (le : A -> A -> bool) y l :
  y ∈ sort_values le l <-> y ∈ l.
Proof.
  induction l as [|x l IH]; simpl; [reflexivity|].
  rewrite insert_sorted_elem, elem_of_cons, IH. tauto.
Qed.

Section SortFacts.
Context {A : Type} (key : A -> Z).

Lemma insert_sorted_HdRel x a l :
  (key a <= key x)%Z -> HdRel Z.le (key a) (map key l) ->
  HdRel Z.le (key a) (map key (insert_sorted (key_leb key) x l)).
Proof.
  intros Hax Hl. destruct l as [|z l]; simpl; [now constructor|].
  unfold key_leb at 1. destruct (Z.leb_spec (key x) (key z)); simpl.
  - now constructor.
  - inversion Hl; subst. now constructor.
Qed.

Lemma insert_sorted_Sorted x l :
  Sorted Z.le (map key l) -> Sorted Z.le (map key (insert_sorted (key_leb key) x l)).
Proof.
  induction l as [|z l IH]; intros Hs; simpl.
  - repeat constructor.
  - unfold key_leb at 1. destruct (Z.leb_spec (key x) (key z)); simpl.
    + constructor; [exact Hs | now constructor].
    + inversion Hs; subst. constructor; [now apply IH|].
      apply insert_sorted_HdRel; [lia | assumption].
Qed.

Lemma sort_values_Sorted l : Sorted Z.le (map key (sort_values (key_leb key) l)).
Proof.
  induction l as [|x l IH]; simpl; [constructor|].
  now apply insert_sorted_Sorted.
Qed.

End SortFacts.

(** ** Backward asof join *)
Section AsofFacts.
Import Asof.

Lemma skip_le_spec rest lv :
  (skip_le rest lv <= length rest)%nat
  /\ (forall j x, (j < skip_le rest lv)%nat -> rest !! j = Some x -> (x <= lv)%Z)
  /\ (forall x, rest !! skip_le rest lv = Some x -> (lv < x)%Z).
Proof.
  induction rest as [|rv rest (IH1 & IH2 & IH3)]; simpl.
  - repeat split; intros; try lia; discriminate.
  - destruct (Z.leb_spec rv lv) as [Hle|Hgt].
    + repeat split; [lia| |exact IH3].
      intros [|j] x Hj Hx; simpl in Hx.
      * inversion Hx; subst. exact Hle.
      * apply (IH2 j x); [lia | exact Hx].
    + repeat split; [lia|intros; lia|].
      intros x Hx. simpl in Hx. inversion Hx; subst. exact Hgt.
Qed.

(** What the scan reaches from a cursor [r] below which every right key
    is at most [lv]. *)
Lemma scan_spec rvs lv r :
  (r <= length rvs)%nat ->
  (forall j x, (j < r)%nat -> rvs !! j = Some x -> (x <= lv)%Z) ->
  let pos := (r + skip_le (skipn r rvs) lv)%nat in
  (pos <= length rvs)%nat
  /\ (forall j x, (j < pos)%nat -> rvs !! j = Some x -> (x <= lv)%Z)
  /\ (forall x, rvs !! pos = Some x -> (lv < x)%Z).
Proof.
  intros Hr Hbelow pos.
  destruct (skip_le_spec (skipn r rvs) lv) as (H1 & H2 & H3).
  rewrite length_skipn in H1. repeat split.
  - subst pos. lia.
  - intros j x Hj Hx. destruct (Nat.lt_ge_cases j r) as [Hlt|Hge].
    + now apply (Hbelow j x).
    + apply (H2 (j - r)%nat x); [subst pos; lia|].
      rewrite lookup_drop. replace (r + (j - r))%nat with j by lia. exact Hx.
  - intros x Hx. apply H3. rewrite lookup_drop. exact Hx.
Qed.

Lemma sorted_lookup_le (l : list Z) i j x y :
  StronglySorted Z.le l -> (i <= j)%nat -> l !! i = Some x -> l !! j = Some y ->
  (x <= y)%Z.
Proof.
  intros Hs. revert i j. induction Hs as [|a l Hs IH Hall]; intros i j Hij Hi Hj.
  - discriminate.
  - destruct i as [|i], j as [|j]; simpl in *; try lia.
    + inversion Hi; inversion Hj; subst. lia.
    + inversion Hi; subst. rewrite List.Forall_forall in Hall. apply Hall.
      apply list_elem_of_In. eapply list_elem_of_lookup_2; eauto.
    + apply (IH i j); auto; lia.
Qed.

Lemma asof_join_backward_spec rvs :
  forall lvs r,
    StronglySorted Z.le lvs ->
    (r <= length rvs)%nat ->
    (forall j x lv, (j < r)%nat -> rvs !! j = Some x -> lv ∈ lvs -> (x <= lv)%Z) ->
    Forall2 (backward_match rvs) lvs (asof_join_backward rvs lvs r).
Proof.
  induction lvs as [|lv lvs IH]; intros r Hs Hr Hbelow; simpl; [constructor|].
  inversion Hs as [|? ? Hs' Hall]; subst.
  destruct (scan_spec rvs lv r Hr) as (Hp1 & Hp2 & Hp3).
  { intros j x Hj Hx. apply (Hbelow j x lv Hj Hx). left. }
  set (pos := (r + skip_le (skipn r rvs) lv)%nat) in *.
  constructor.
  - unfold backward_match. destruct (Nat.eqb_spec pos 0) as [H0|H0].
    + split; [|reflexivity].
      intros x Hx Hsr. apply list_elem_of_lookup in Hx as [j Hj].
      destruct (lookup_lt_is_Some_2 rvs 0) as [x0 Hx0].
      { apply lookup_lt_Some in Hj. lia. }
      pose proof (Hp3 x0) as Hlt. rewrite H0 in Hlt. specialize (Hlt Hx0).
      pose proof (sorted_lookup_le rvs 0 j x0 x Hsr ltac:(lia) Hx0 Hj). lia.
    + destruct (lookup_lt_is_Some_2 rvs (pos - 1)) as [x Hx]; [lia|].
      assert (Hle : (x <= lv)%Z) by (apply (Hp2 (pos - 1)%nat x); [lia | exact Hx]).
      split; [split|].
      * exists x. split; [exact Hx | exact Hle].
      * intros j' y Hj' Hy Hsr.
        destruct (lookup_lt_is_Some_2 rvs pos) as [z Hz].
        { apply lookup_lt_Some in Hy. lia. }
        pose proof (Hp3 z Hz).
        pose proof (sorted_lookup_le rvs pos j' z y Hsr ltac:(lia) Hz Hy). lia.
      * intros Hall'. exfalso.
        assert ((lv < x)%Z); [|lia].
        apply Hall'. eapply list_elem_of_lookup_2; eauto.
  - apply IH; [exact Hs' | lia |].
    intros j x lv' Hj Hx Hin.
    assert ((x <= lv)%Z) by (apply (Hp2 j x); [lia | exact Hx]).
    rewrite List.Forall_forall in Hall.
    assert ((lv <= lv')%Z) by (apply Hall; now apply list_elem_of_In).
    lia.
Qed.

Lemma length_asof_join_backward rvs lvs r :
  length (asof_join_backward rvs lvs r) = length lvs.
Proof.
  revert r. induction lvs as [|lv lvs IH]; intros r; simpl; [reflexivity|].
  now rewrite IH.
Qed.

Lemma sorted_strongly (l : list Z) : Sorted Z.le l -> StronglySorted Z.le l.
Proof. apply Sorted_StronglySorted. intros x y z. apply Z.le_trans. Qed.

(** Every joined row is a left row with the right row that the cursor
    found for its key. *)
Lemma merge_asof_rows {L R} (left_on : L -> Z) (right_on : R -> Z)
    (left : list L) (right : list R) (l : L) (m : option R) :
  Sorted Z.le (map left_on left) ->
  (l, m) ∈ merge_asof left_on right_on left right ->
  exists o, backward_match (map right_on right) (left_on l) o
            /\ m = match o with Some j => right !! j | None => None end.
Proof.
  intros Hs Hin. unfold merge_asof in Hin.
  pose proof (asof_join_backward_spec (map right_on right) (map left_on left) 0
                (sorted_strongly _ Hs) ltac:(lia) ltac:(intros; lia)) as Hall.
  apply list_elem_of_lookup in Hin as [i Hi].
  apply lookup_combine in Hi as [Hl Hm].
  rewrite list_lookup_fmap in Hm.
  destruct (asof_join_backward (map right_on right) (map left_on left) 0 !! i)
    as [o|] eqn:Ho; [|discriminate].
  simpl in Hm. inversion Hm; subst m. exists o. split; [|reflexivity].
  eapply (Forall2_lookup_lr _ _ _ i (left_on l) o) in Hall; eauto.
  rewrite list_lookup_fmap, Hl. reflexivity.
Qed.

(** The rows of a backward join over sorted keys, for any two frames. *)
Lemma merge_asof_backward_left_right {L R} (left_on : L -> Z) (right_on : R -> Z)
    (left : list L) (right : list R) (l : L) (m : option R) :
  Sorted Z.le (map left_on left) ->
  Sorted Z.le (map right_on right) ->
  (l, m) ∈ Asof.merge_asof left_on right_on left right ->
  l ∈ left
  /\ (forall r, m = Some r -> r ∈ right /\ (right_on r <= left_on l)%Z)
  /\ ((forall r, r ∈ right -> (left_on l < right_on r)%Z) -> m = None).
Proof.
  intros Hl Hr Hin.
  destruct (merge_asof_rows _ _ left right l m Hl Hin) as (o & [Hm Hnone] & ->).
  split; [|split].
  - apply list_elem_of_lookup in Hin as [i Hi].
    apply lookup_combine in Hi as [Hi _]. eapply list_elem_of_lookup_2; eauto.
  - intros r Hw. destruct o as [j|]; [|discriminate].
    destruct Hm as [(x & Hx & Hle) _].
    rewrite list_lookup_fmap, Hw in Hx. simpl in Hx. inversion Hx; subst x.
    split; [eapply list_elem_of_lookup_2; eauto | exact Hle].
  - intros Hall. rewrite Hnone; [reflexivity|].
    intros x Hx. apply list_elem_of_fmap in Hx as (w & -> & Hw). now apply Hall.
Qed.

Lemma merge_asof_left {L R} (left_on : L -> Z) (right_on : R -> Z)
    (left : list L) (right : list R) :
  map fst (Asof.merge_asof left_on right_on left right) = left.
Proof.
  unfold Asof.merge_asof.
  assert (Hlen : length left
                 = length (map (fun o : option nat =>
                                  match o with Some j => right !! j | None => None end)
                               (Asof.asof_join_backward (map right_on right)
                                  (map left_on left) 0))).
  { now rewrite length_map, length_asof_join_backward, length_map. }
  revert Hlen. generalize (map (fun o : option nat =>
                                  match o with Some j => right !! j | None => None end)
                               (Asof.asof_join_backward (map right_on right)
                                  (map left_on left) 0)).
  induction left as [|l left IH]; intros [|m ms] Hlen; simpl in *;
    try discriminate; [reflexivity|].
  f_equal. apply IH. lia.
Qed.

(** C4.  With both frames sorted by their floored hour, the backward
    asof join keeps every incident row once, never attaches a weather
    record whose floored hour is later than the incident's floored hour
    (the attached record is the one with the latest such hour), and
    leaves the match null for an incident whose floored hour is earlier
    than that of every weather record. *)
Theorem merge_asof_backward_never_future {A : Type}
    (rows : list (Prep.incident * A)) (ws : list Prep.weather_rolled)
    (row : Prep.incident * A) (m : option Prep.weather_rolled) :
  Sorted Z.le (map Prep.incident_hour rows) ->
  Sorted Z.le (map Prep.weather_hour ws) ->
  (row, m) ∈ Asof.merge_asof Prep.incident_hour Prep.weather_hour rows ws ->
  map fst (Asof.merge_asof Prep.incident_hour Prep.weather_hour rows ws) = rows
  /\ (forall w, m = Some w ->
        w ∈ ws
        /\ (Prep.weather_hour w <= Prep.incident_hour row)%Z
        /\ (forall w', w' ∈ ws ->
              (Prep.weather_hour w' <= Prep.incident_hour row)%Z ->
              (Prep.weather_hour w' <= Prep.weather_hour w)%Z))
  /\ ((forall w, w ∈ ws -> (Prep.incident_hour row < Prep.weather_hour w)%Z) ->
      m = None).
Proof.
  intros Hl Hr Hin. split; [apply merge_asof_left|].
  destruct (merge_asof_rows _ _ rows ws row m Hl Hin) as (o & [Hm Hnone] & ->).
  pose proof (sorted_strongly _ Hr) as Hsr.
  split.
  - intros w Hw. destruct o as [j|]; [|discriminate].
    destruct Hm as [(x & Hx & Hle) Hlater].
    rewrite list_lookup_fmap, Hw in Hx. simpl in Hx. inversion Hx; subst x.
    split; [eapply list_elem_of_lookup_2; eauto|]. split; [exact Hle|].
    intros w' Hw' Hle'. apply list_elem_of_lookup in Hw' as [j' Hj'].
    destruct (Nat.le_gt_cases j' j) as [Hjj|Hjj].
    + apply (sorted_lookup_le (map Prep.weather_hour ws) j' j); auto;
        rewrite list_lookup_fmap; [rewrite Hj' | rewrite Hw]; reflexivity.
    + assert ((Prep.incident_hour row < Prep.weather_hour w')%Z); [|lia].
      apply (Hlater j'); [lia| |exact Hsr].
      rewrite list_lookup_fmap, Hj'. reflexivity.
  - intros Hall. rewrite Hnone; [reflexivity|].
    intros x Hx. apply list_elem_of_fmap in Hx as (w & -> & Hw). now apply Hall.
Qed.

(** C4 on one weather record at 13:00 and incidents at 12:30 and 14:20. *)
Lemma merge_asof_backward_never_future_witness :
  let mk t := ({| Prep.i_timestamp := t; Prep.i_lat := dec 1297 100;
                  Prep.i_lon := dec 7759 100; Prep.i_type := "heat_stroke" |}, tt) in
  let w := {| Prep.wr_weather :=
                {| Prep.w_timestamp := 46800; Prep.w_lat := dec 1297 100;
                   Prep.w_lon := dec 7759 100; Prep.w_temp := dec 39 1;
                   Prep.w_humidity := dec 40 1; Prep.w_wind := dec 3 1 |};
              Prep.temp_roll3 := Some (dec 39 1);
              Prep.humidity_roll3 := Some (dec 40 1);
              Prep.wind_roll3 := Some (dec 3 1) |} in
  let rows := [mk 45000%Z; mk 51600%Z] in
  Sorted Z.le (map Prep.incident_hour rows)
  /\ Sorted Z.le (map Prep.weather_hour [w])
  /\ (mk 45000%Z, None) ∈ Asof.merge_asof Prep.incident_hour Prep.weather_hour rows [w]
  /\ ((forall w', w' ∈ [w] ->
         (Prep.incident_hour (mk 45000%Z) < Prep.weather_hour w')%Z) ->
      @None Prep.weather_rolled = None).
Proof.
  intros mk w rows.
  assert (H1 : Sorted Z.le (map Prep.incident_hour rows)).
  { repeat constructor. vm_compute. discriminate. }
  assert (H2 : Sorted Z.le (map Prep.weather_hour [w])) by repeat constructor.
  assert (H3 : (mk 45000%Z, None)
               ∈ Asof.merge_asof Prep.incident_hour Prep.weather_hour rows [w])
    by (vm_compute; left).
  split; [exact H1|]. split; [exact H2|]. split; [exact H3|].
  exact (proj2 (proj2 (merge_asof_backward_never_future
                         rows [w] (mk 45000%Z) None H1 H2 H3))).
Defined.

(** The temporal step as [preprocess] runs it: the frames are sorted by
    the code itself, so the property holds for frames in any order. *)
Lemma align_hourly_never_future {A : Type}
    (rows : list (Prep.incident * A)) (ws : list Prep.weather)
    (row : Prep.incident * A) (m : option Prep.weather_rolled) :
  (row, m) ∈ Prep.align_hourly rows ws ->
  row ∈ rows
  /\ (forall w, m = Some w ->
        w ∈ Prep.roll_weather ws
        /\ (Prep.weather_hour w <= Prep.incident_hour row)%Z)
  /\ ((forall w, w ∈ Prep.roll_weather ws ->
         (Prep.incident_hour row < Prep.weather_hour w)%Z) -> m = None).
Proof.
  intros Hin. unfold Prep.align_hourly in Hin.
  pose proof (sort_values_Sorted (@Prep.incident_hour A) rows) as Hl.
  pose proof (sort_values_Sorted Prep.weather_hour (Prep.roll_weather ws)) as Hr.
  destruct (merge_asof_backward_left_right _ _ _ _ _ _ Hl Hr Hin) as (Hrow & Hm & Hnone).
  split; [|split].
  - exact (proj1 (sort_values_elem _ _ _) Hrow).
  - intros w Hw. destruct (Hm w Hw) as (Hw1 & Hw2).
    split; [exact (proj1 (sort_values_elem _ _ _) Hw1) | exact Hw2].
  - intros Hall. apply Hnone. intros w Hw. apply Hall.
    exact (proj1 (sort_values_elem _ _ _) Hw).
Qed.

(** The comparison is between floored hours: a reading taken at 13:50 is
    attached to an incident of 13:10, both falling in the hour of 13:00. *)
Lemma reading_of_the_same_hour_is_matched :
  let row := ({| Prep.i_timestamp := 47400; Prep.i_lat := dec 1297 100;
                 Prep.i_lon := dec 7759 100; Prep.i_type := "heat_stroke" |}, tt) in
  let w := {| Prep.wr_weather :=
                {| Prep.w_timestamp := 49800; Prep.w_lat := dec 1297 100;
                   Prep.w_lon := dec 7759 100; Prep.w_temp := dec 39 1;
                   Prep.w_humidity := dec 40 1; Prep.w_wind := dec 3 1 |};
              Prep.temp_roll3 := Some (dec 39 1);
              Prep.humidity_roll3 := Some (dec 40 1);
              Prep.wind_roll3 := Some (dec 3 1) |} in
  Asof.merge_asof Prep.incident_hour Prep.weather_hour [row] [w] = [(row, Some w)]
  /\ Prep.incident_hour row = Prep.weather_hour w
  /\ (Prep.i_timestamp (fst row) < Prep.w_timestamp (Prep.wr_weather w))%Z.
Proof. intros row w. repeat split. Qed.

End AsofFacts.

(** ** Nearest-point join *)
Section GeoFacts.
Import Geo.

Lemma Qcleb_le x y : Qcleb x y = true <-> x <= y.
Proof. unfold Qcleb. apply bool_decide_eq_true. Qed.

Lemma Qcleb_gt x y : Qcleb x y = false <-> y < x.
Proof.
  unfold Qcleb. rewrite bool_decide_eq_false. split.
  - apply Qcnot_le_lt.
  - intros H1 H2. exact (Qclt_not_le _ _ H1 H2).
Qed.

Lemma Qceqb_eq x y : Qceqb x y = true <-> x = y.
Proof. unfold Qceqb. apply bool_decide_eq_true. Qed.

Lemma minimum_None l : minimum l = None <-> l = [].
Proof.
  destruct l as [|x l]; simpl; [tauto|].
  destruct (minimum l); split; intros; discriminate.
Qed.

Lemma minimum_spec l m :
  minimum l = Some m -> In m l /\ (forall x, In x l -> m <= x).
Proof.
  revert m. induction l as [|x l IH]; intros m Hm; simpl in Hm; [discriminate|].
  destruct (minimum l) as [m'|] eqn:E.
  - destruct (IH m' eq_refl) as [Hin Hle].
    destruct (Qcleb x m') eqn:C; inversion Hm; subst m.
    + apply Qcleb_le in C. split; [now left|].
      intros y [<-|Hy]; [apply Qcle_refl|].
      eapply Qcle_trans; [exact C | now apply Hle].
    + apply Qcleb_gt in C. split; [now right|].
      intros y [<-|Hy]; [now apply Qclt_le_weak | now apply Hle].
  - inversion Hm; subst m. apply minimum_None in E. subst l.
    split; [now left|]. intros y [<-|[]]. apply Qcle_refl.
Qed.

Lemma filter_sublist {A} (f : A -> bool) l : List.filter f l `sublist_of` l.
Proof.
  induction l as [|x l IH]; simpl; [constructor|].
  destruct (f x); now constructor.
Qed.

Context {L R : Type} (left_xy : L -> Qc * Qc) (right_xy : R -> Qc * Qc).
Context (index : index_order L R).

Lemma arrange_In (p : L) (right hits : list R) (c : R) :
  In c (arrange index p right hits) <-> In c hits.
Proof.
  split; apply Permutation_in;
    [apply arrange_perm | apply Permutation_sym, arrange_perm].
Qed.

Lemma arrange_nil (p : L) (right hits : list R) :
  arrange index p right hits = [] <-> hits = [].
Proof.
  pose proof (arrange_perm index p right hits) as Hp. split; intros E.
  - rewrite E in Hp. exact (Permutation_nil Hp).
  - subst hits. exact (Permutation_nil (Permutation_sym Hp)).
Qed.

Lemma nearest_spec max_distance p candidates c :
  In c (nearest left_xy right_xy index max_distance p candidates)
  <-> is_nearest left_xy right_xy max_distance p candidates c.
Proof.
  unfold nearest, is_nearest.
  set (d := row_dist2 left_xy right_xy p).
  set (near := List.filter (fun c0 => within_cutoff max_distance (d c0)) candidates).
  destruct (minimum (map d near)) as [m|] eqn:E.
  - destruct (minimum_spec _ _ E) as [Hin Hmin].
    rewrite arrange_In, filter_In. unfold near at 1. rewrite filter_In, Qceqb_eq. split.
    + intros [[Hc Hw] Hm]. repeat split; auto.
      intros c' Hc' Hw'. rewrite Hm. apply Hmin. apply in_map.
      unfold near. apply filter_In. auto.
    + intros (Hc & Hw & Hle). repeat split; auto.
      apply in_map_iff in Hin as (c0 & <- & Hc0).
      unfold near in Hc0. apply filter_In in Hc0 as [Hc0 Hw0].
      apply Qcle_antisym; [now apply Hle|].
      apply Hmin. apply in_map. unfold near. apply filter_In. auto.
  - apply minimum_None in E. apply map_eq_nil in E. split; [intros []|].
    intros (Hc & Hw & _).
    assert (Hn : In c near) by (unfold near; apply filter_In; auto).
    rewrite E in Hn. destruct Hn.
Qed.

Lemma nearest_nil max_distance p candidates :
  nearest left_xy right_xy index max_distance p candidates = []
  <-> forall c, In c candidates ->
        within_cutoff max_distance (row_dist2 left_xy right_xy p c) = false.
Proof.
  split.
  - intros E c Hc.
    destruct (within_cutoff max_distance (row_dist2 left_xy right_xy p c)) eqn:Hw;
      [|reflexivity].
    exfalso. unfold nearest in E.
    set (d := row_dist2 left_xy right_xy p) in *.
    set (near := List.filter (fun c0 => within_cutoff max_distance (d c0)) candidates) in *.
    assert (Hn : In c near) by (unfold near; apply filter_In; auto).
    destruct (minimum (map d near)) as [m|] eqn:Em.
    + destruct (minimum_spec _ _ Em) as [Hin _].
      apply in_map_iff in Hin as (c0 & Hd & Hc0).
      assert (Hf : In c0 (List.filter (fun c1 => Qceqb (d c1) m) near)).
      { apply filter_In. split; [exact Hc0|]. now apply Qceqb_eq. }
      apply arrange_nil in E. rewrite E in Hf. destruct Hf.
    + apply minimum_None in Em. apply map_eq_nil in Em. rewrite Em in Hn.
      destruct Hn.
  - intros Hall.
    destruct (nearest left_xy right_xy index max_distance p candidates) as [|c cs] eqn:E;
      [reflexivity|].
    assert (Hc : In c (nearest left_xy right_xy index max_distance p candidates))
      by (rewrite E; now left).
    apply nearest_spec in Hc as (Hc & Hw & _). rewrite (Hall c Hc) in Hw.
    discriminate.
Qed.

(** The nearest candidates are candidates, none returned more often than
    the frame holds it. *)
Lemma nearest_submseteq max_distance p candidates :
  nearest left_xy right_xy index max_distance p candidates ⊆+ candidates.
Proof.
  unfold nearest.
  destruct (minimum _); [|apply submseteq_nil_l].
  rewrite (arrange_perm index). apply sublist_submseteq.
  etransitivity; apply filter_sublist.
Qed.

Lemma joined_rows_spec max_distance (p q : L) (m : option R) right :
  In (q, m) match nearest left_xy right_xy index max_distance p right with
            | [] => [(p, None)]
            | cs => map (fun c => (p, Some c)) cs
            end
  <-> q = p /\ match m with
               | Some c => In c (nearest left_xy right_xy index max_distance p right)
               | None => nearest left_xy right_xy index max_distance p right = []
               end.
Proof.
  destruct (nearest left_xy right_xy index max_distance p right) as [|c0 cs] eqn:E.
  - simpl. split.
    + intros [H|[]]. inversion H; subst. auto.
    + intros [-> Hm]. destruct m as [c|]; [destruct Hm | now left].
  - rewrite in_map_iff. split.
    + intros (c & H & Hc). inversion H; subst. auto.
    + intros [-> Hm]. destruct m as [c|]; [|discriminate]. eauto.
Qed.

Lemma sjoin_nearest_rows max_distance left right (q : L) (m : option R) :
  In (q, m) (sjoin_nearest left_xy right_xy index max_distance left right)
  <-> In q left
      /\ match m with
         | Some c => In c (nearest left_xy right_xy index max_distance q right)
         | None => nearest left_xy right_xy index max_distance q right = []
         end.
Proof.
  unfold sjoin_nearest. rewrite in_flat_map. split.
  - intros (p & Hp & Hin). apply joined_rows_spec in Hin as [-> Hm]. auto.
  - intros [Hq Hm]. exists q. split; [exact Hq|]. apply joined_rows_spec. auto.
Qed.

End GeoFacts.

(** C5, as the code has it.  For a non-empty weather frame, the rows
    joined to an incident carry exactly the candidates at the smallest
    planar distance from it among those within the cutoff: equidistant
    candidates are all attached, in whatever order the spatial index
    returns them, and none more often than the frame holds it.  Without
    a cutoff there is at least one match; with a cutoff that every
    candidate exceeds, the incident keeps rows whose weather fields are
    all null. *)
Theorem sjoin_nearest_attaches_all_nearest {L R : Type}
    (left_xy : L -> Qc * Qc) (right_xy : R -> Qc * Qc)
    (index : Geo.index_order L R)
    (max_distance : option Qc) (left : list L) (right : list R) (p : L) :
  right <> [] -> In p left ->
  (forall c,
     In (p, Some c) (Geo.sjoin_nearest left_xy right_xy index max_distance left right)
     <-> Geo.is_nearest left_xy right_xy max_distance p right c)
  /\ Geo.nearest left_xy right_xy index max_distance p right ⊆+ right
  /\ (max_distance = None ->
      exists c,
        In (p, Some c) (Geo.sjoin_nearest left_xy right_xy index max_distance left right))
  /\ (forall d, max_distance = Some d ->
        (forall c, In c right -> d * d < Geo.row_dist2 left_xy right_xy p c) ->
        In (p, None) (Geo.sjoin_nearest left_xy right_xy index max_distance left right)
        /\ forall m,
             In (p, m) (Geo.sjoin_nearest left_xy right_xy index max_distance left right) ->
             m = None).
Proof.
  intros Hne Hp. split; [|split; [|split]].
  - intros c. rewrite sjoin_nearest_rows, nearest_spec. tauto.
  - apply nearest_submseteq.
  - intros ->. destruct right as [|c0 right]; [congruence|].
    destruct (Geo.nearest left_xy right_xy index None p (c0 :: right)) as [|c cs] eqn:E.
    + pose proof (proj1 (nearest_nil _ _ _ _ _ _) E c0 (or_introl eq_refl)) as Hw.
      discriminate.
    + exists c. apply sjoin_nearest_rows. split; [exact Hp|]. rewrite E. now left.
  - intros d -> Hfar.
    assert (E : Geo.nearest left_xy right_xy index (Some d) p right = []).
    { apply nearest_nil. intros c Hc. simpl. apply Qcleb_gt. now apply Hfar. }
    split.
    + apply sjoin_nearest_rows. auto.
    + intros m Hm. apply sjoin_nearest_rows in Hm as [_ Hm].
      destruct m as [c|]; [|reflexivity]. rewrite E in Hm. destruct Hm.
Qed.

(** C5 on the sample incident and the two readings of its grid point,
    with an index that returns its hits in reverse. *)
Lemma sjoin_nearest_attaches_all_nearest_witness :
  [Samples.weather_13h; Samples.weather_14h] <> []
  /\ In Samples.incident0 [Samples.incident0]
  /\ forall c,
       In (Samples.incident0, Some c)
          (Prep.join_nearest_weather Geo.reverse_order [Samples.incident0]
             [Samples.weather_13h; Samples.weather_14h])
       <-> Geo.is_nearest Prep.incident_xy Prep.weather_xy (Some (dec 5 100))
             Samples.incident0 [Samples.weather_13h; Samples.weather_14h] c.
Proof.
  split; [discriminate|]. split; [now left|].
  exact (proj1 (sjoin_nearest_attaches_all_nearest
                  Prep.incident_xy Prep.weather_xy Geo.reverse_order
                  (Some (dec 5 100))
                  [Samples.incident0] [Samples.weather_13h; Samples.weather_14h]
                  Samples.incident0 ltac:(discriminate) (or_introl eq_refl))).
Defined.

(** C5 as stated fails: the two readings are equally near the incident,
    and whatever the order of the index the join returns a row for each
    of them, where a join that keeps the first nearest candidate returns
    a single row. *)
Lemma sjoin_nearest_keeps_equidistant_candidates :
  Geo.sjoin_first_nearest Prep.incident_xy Prep.weather_xy [Samples.incident0]
    [Samples.weather_13h; Samples.weather_14h]
  = [(Samples.incident0, Some Samples.weather_13h)]
  /\ (forall index,
        Permutation
          (Prep.join_nearest_weather index [Samples.incident0]
             [Samples.weather_13h; Samples.weather_14h])
          [(Samples.incident0, Some Samples.weather_13h);
           (Samples.incident0, Some Samples.weather_14h)])
  /\ (forall index,
        Prep.join_nearest_weather index [Samples.incident0]
          [Samples.weather_13h; Samples.weather_14h]
        <> Geo.sjoin_first_nearest Prep.incident_xy Prep.weather_xy [Samples.incident0]
             [Samples.weather_13h; Samples.weather_14h]).
Proof.
  assert (H2 : Geo.sjoin_first_nearest Prep.incident_xy Prep.weather_xy
                 [Samples.incident0] [Samples.weather_13h; Samples.weather_14h]
               = [(Samples.incident0, Some Samples.weather_13h)])
    by (vm_compute; reflexivity).
  assert (H1 : forall index,
             Permutation
               (Prep.join_nearest_weather index [Samples.incident0]
                  [Samples.weather_13h; Samples.weather_14h])
               [(Samples.incident0, Some Samples.weather_13h);
                (Samples.incident0, Some Samples.weather_14h)]).
  { intros index. unfold Prep.join_nearest_weather, Geo.sjoin_nearest.
    cbn [flat_map]. rewrite app_nil_r.
    assert (E : Permutation
                  (Geo.nearest Prep.incident_xy Prep.weather_xy index
                     (Some (dec 5 100)) Samples.incident0
                     [Samples.weather_13h; Samples.weather_14h])
                  [Samples.weather_13h; Samples.weather_14h]).
    { unfold Geo.nearest.
      set (near := List.filter _ [Samples.weather_13h; Samples.weather_14h]).
      assert (En : near = [Samples.weather_13h; Samples.weather_14h])
        by (vm_compute; reflexivity).
      rewrite En.
      assert (Em : Geo.minimum
                     (map (Geo.row_dist2 Prep.incident_xy Prep.weather_xy
                             Samples.incident0)
                          [Samples.weather_13h; Samples.weather_14h])
                   = Some (Geo.row_dist2 Prep.incident_xy Prep.weather_xy
                             Samples.incident0 Samples.weather_13h))
        by (vm_compute; reflexivity).
      rewrite Em. rewrite (Geo.arrange_perm index).
      assert (Ef : List.filter
                     (fun c => Qceqb (Geo.row_dist2 Prep.incident_xy Prep.weather_xy
                                        Samples.incident0 c)
                                     (Geo.row_dist2 Prep.incident_xy Prep.weather_xy
                                        Samples.incident0 Samples.weather_13h))
                     [Samples.weather_13h; Samples.weather_14h]
                   = [Samples.weather_13h; Samples.weather_14h])
        by (vm_compute; reflexivity).
      rewrite Ef. reflexivity. }
    destruct (Geo.nearest Prep.incident_xy Prep.weather_xy index (Some (dec 5 100))
                Samples.incident0 [Samples.weather_13h; Samples.weather_14h])
      as [|c cs] eqn:En.
    - apply Permutation_nil in E. discriminate.
    - change (c :: cs) with ([] ++ c :: cs) at 1. cbn [app].
      apply (Permutation_map (fun c => (Samples.incident0, Some c))) in E.
      exact E. }
  split; [exact H2|]. split; [exact H1|].
  intros index E. specialize (H1 index). rewrite E, H2 in H1.
  apply Permutation_length in H1. discriminate.
Qed.

(** ** Threshold selection *)
Section ThresholdFacts.
Import Threshold.

(** [argmax_from] continues a scan of [pre ++ l] that has seen [pre]. *)
Lemma argmax_from_spec l :
  forall pre best_idx best,
    (best_idx < length pre)%nat ->
    nth best_idx (pre ++ l) 0 = best ->
    (forall x, In x pre -> x <= best) ->
    let idx := argmax_from best_idx best (length pre) l in
    (idx < length (pre ++ l))%nat
    /\ forall x, In x (pre ++ l) -> x <= nth idx (pre ++ l) 0.
Proof.
  induction l as [|y l IH]; intros pre best_idx best Hlt Hnth Hmax; simpl.
  - rewrite app_nil_r in *. rewrite Hnth. auto.
  - replace (pre ++ y :: l) with ((pre ++ [y]) ++ l) in * by now rewrite <- app_assoc.
    replace (S (length pre)) with (length (pre ++ [y]))
      by (rewrite length_app; simpl; lia).
    destruct (Qcleb y best) eqn:C.
    + apply Qcleb_le in C. apply IH.
      * rewrite length_app. simpl. lia.
      * exact Hnth.
      * intros x Hx. apply in_app_iff in Hx as [Hx|[<-|[]]]; auto.
    + apply Qcleb_gt in C.
      apply (IH (pre ++ [y]) (length pre) y).
      * rewrite length_app. simpl. lia.
      * rewrite <- app_assoc. simpl. apply nth_middle.
      * intros x Hx. apply in_app_iff in Hx as [Hx|[<-|[]]].
        -- apply Qclt_le_weak. eapply Qcle_lt_trans; [now apply Hmax | exact C].
        -- apply Qcle_refl.
Qed.

Lemma argmax_spec l :
  l <> [] ->
  (argmax l < length l)%nat /\ forall x, In x l -> x <= nth (argmax l) l 0.
Proof.
  destruct l as [|x l]; [congruence|]. intros _.
  apply (argmax_from_spec l [x] 0%nat x); simpl.
  - lia.
  - reflexivity.
  - intros y [<-|[]]. apply Qcle_refl.
Qed.

(** Masking the three arrays of the curve is filtering its points. *)
Lemma select_points (p r t : list Qc) :
  length p = length t -> length r = length t ->
  let points := List.filter (fun prt => in_band (snd prt)) (combine (combine p r) t) in
  select (map in_band t) p = map (fun prt => fst (fst prt)) points
  /\ select (map in_band t) r = map (fun prt => snd (fst prt)) points
  /\ select (map in_band t) t = map snd points.
Proof.
  revert p r. induction t as [|x t IH]; intros [|a p] [|b r] Hp Hr;
    simpl in *; try discriminate; [auto|].
  destruct (IH p r ltac:(lia) ltac:(lia)) as (H1 & H2 & H3).
  destruct (in_band x); simpl; rewrite H1, H2, H3; auto.
Qed.

Lemma existsb_in_band (p r t : list Qc) :
  length p = length t -> length r = length t ->
  existsb id (map in_band t) = false
  <-> List.filter (fun prt => in_band (snd prt)) (combine (combine p r) t) = [].
Proof.
  revert p r. induction t as [|x t IH]; intros [|a p] [|b r] Hp Hr;
    simpl in *; try discriminate; [tauto|].
  unfold id at 1. destruct (in_band x); simpl.
  - split; discriminate.
  - apply IH; lia.
Qed.

Lemma length_removelast_S {A} (l : list A) n :
  length l = S n -> length (removelast l) = n.
Proof.
  intros H. destruct (@exists_last _ l) as (l' & a & ->).
  - destruct l; [discriminate | congruence].
  - rewrite removelast_last. rewrite length_app in H. simpl in H. lia.
Qed.

Lemma combine_map_map {A} (f g : A -> Qc) (l : list A) :
  combine (map f l) (map g l) = map (fun x => (f x, g x)) l.
Proof. induction l as [|x l IH]; simpl; [reflexivity | now rewrite IH]. Qed.

(** On any curve of the shape that [precision_recall_curve] returns, the
    selected pair is a candidate and no candidate has a larger F1. *)
Lemma best_on_curve_spec (p r t : list Qc) :
  length p = S (length t) -> length r = S (length t) ->
  candidates_on p r t <> [] ->
  In (best_on_curve p r t) (candidates_on p r t)
  /\ forall c, In c (candidates_on p r t) -> snd c <= snd (best_on_curve p r t).
Proof.
  intros Hp Hr Hne. unfold best_on_curve, candidates_on in *.
  apply length_removelast_S in Hp, Hr.
  destruct (select_points _ _ t Hp Hr) as (E1 & E2 & E3).
  set (points := List.filter (fun prt => in_band (snd prt))
                   (combine (combine (removelast p) (removelast r)) t)) in *.
  assert (Hpts : points <> []) by (intros E; apply Hne; now rewrite E).
  destruct (existsb id (map in_band t)) eqn:Hex.
  2:{ exfalso. apply Hpts. now apply (existsb_in_band _ _ t Hp Hr). }
  cbn [negb]. rewrite E1, E2, E3, combine_map_map, map_map. cbn [fst snd].
  set (g := fun prt : Qc * Qc * Qc => f1_of (fst (fst prt)) (snd (fst prt))).
  destruct (argmax_spec (map g points)) as [Hlt Hmax].
  { intros E. apply map_eq_nil in E. contradiction. }
  set (idx := argmax (map g points)) in *.
  rewrite length_map in Hlt.
  set (d := (0, 0, 0) : Qc * Qc * Qc).
  assert (Ht : nth idx (map snd points) 0 = snd (nth idx points d))
    by (change 0 with (snd d) at 1; apply map_nth).
  assert (Hf : nth idx (map g points) 0 = g (nth idx points d)).
  { rewrite (nth_indep _ 0 (g d)) by (rewrite length_map; exact Hlt).
    apply map_nth. }
  rewrite Ht, Hf in *. split.
  - apply in_map_iff. exists (nth idx points d). split; [reflexivity|].
    now apply nth_In.
  - intros c Hc. apply in_map_iff in Hc as (x & <- & Hx). cbn [snd].
    apply Hmax. exact (in_map g points x Hx).
Qed.

Lemma best_on_curve_default (p r t : list Qc) :
  (forall x, In x t -> in_band x = false) ->
  best_on_curve p r t = (dec 1 2, 0).
Proof.
  intros Hall. unfold best_on_curve.
  replace (existsb id (map in_band t)) with false; [reflexivity|].
  symmetry. apply not_true_is_false. intros H.
  apply existsb_exists in H as (b & Hb & Hid). apply in_map_iff in Hb as (x & <- & Hx).
  rewrite (Hall x Hx) in Hid. discriminate.
Qed.

Lemma in_band_spec x : in_band x = true <-> dec 5 100 <= x /\ x <= dec 95 100.
Proof. unfold in_band. now rewrite andb_true_iff, !Qcleb_le. Qed.

(** Polynomial order facts over [Qc], decided on the fractions. *)
Ltac qc_to_q :=
  unfold Qcle, Qclt, Qcplus, Qcmult, Qcminus, Qcopp, dec in *;
  cbn [this Q2Qc] in *;
  rewrite ?Qred_correct in *.

Lemma Qc_pos_neq (b : Qc) : 0 < b -> b <> 0.
Proof. intros Hb E. rewrite E in Hb. discriminate. Qed.

Lemma div_le_iff (a b c : Qc) : 0 < b -> (a / b <= c <-> a <= c * b).
Proof.
  intros Hb. pose proof (Qc_pos_neq b Hb) as Hne. split; intros Hle.
  - replace a with (a / b * b) by (field; exact Hne).
    apply Qcmult_le_compat_r; [exact Hle | now apply Qclt_le_weak].
  - apply (Qcmult_lt_0_le_reg_r _ _ b Hb).
    replace (a / b * b) with a by (field; exact Hne).
    exact Hle.
Qed.

Lemma le_div_iff (a b c : Qc) : 0 < b -> (c <= a / b <-> c * b <= a).
Proof.
  intros Hb. pose proof (Qc_pos_neq b Hb) as Hne. split; intros Hle.
  - replace a with (a / b * b) by (field; exact Hne).
    apply Qcmult_le_compat_r; [exact Hle | now apply Qclt_le_weak].
  - apply (Qcmult_lt_0_le_reg_r _ _ b Hb).
    replace (a / b * b) with a by (field; exact Hne).
    exact Hle.
Qed.

(** The F1 that the code computes, with [1e-9] added to the denominator,
    lies below the F1 of the point and within [1e-9] of it. *)
Lemma f1_of_close (p r : Qc) :
  0 <= p -> 0 <= r ->
  f1_of p r <= f1_score p r /\ f1_score p r <= f1_of p r + dec 1 1000000000.
Proof.
  intros Hp Hr. unfold f1_of, f1_score.
  set (e := dec 1 1000000000).
  assert (He : 0 < e) by reflexivity.
  assert (Hse : 0 < p + r + e) by (clearbody e; qc_to_q; lra).
  destruct (Qceqb (p + r) 0) eqn:E.
  - apply Qceqb_eq in E.
    assert (Hp0 : p = 0) by (apply Qcle_antisym; [rewrite <- E|]; qc_to_q; lra).
    subst p. split.
    + apply div_le_iff; [exact Hse|]. clearbody e. qc_to_q. lra.
    + assert (H1 : 0 <= 2 * (0 * r) / (0 + r + e)).
      { apply le_div_iff; [exact Hse|]. clearbody e. qc_to_q. lra. }
      clearbody e. revert H1. generalize (2 * (0 * r) / (0 + r + e)). intros q Hq.
      qc_to_q. lra.
  - assert (Hs : 0 < p + r).
    { apply Qcnot_le_lt. intros Hle. apply not_true_iff_false in E. apply E.
      apply Qceqb_eq. apply Qcle_antisym; [exact Hle|]. qc_to_q. lra. }
    split.
    + apply div_le_iff; [exact Hse|].
      assert (Hq : 0 <= 2 * (p * r) / (p + r)).
      { apply le_div_iff; [exact Hs|]. qc_to_q. nra. }
      assert (EN : 2 * (p * r) = 2 * (p * r) / (p + r) * (p + r))
        by (field; now apply Qc_pos_neq).
      rewrite EN at 1. clearbody e. revert Hq.
      generalize (2 * (p * r) / (p + r)). intros q Hq. qc_to_q. nra.
    + apply div_le_iff; [exact Hs|].
      assert (Hq : 0 <= 2 * (p * r) / (p + r + e)).
      { apply le_div_iff; [exact Hse|]. clearbody e. qc_to_q. nra. }
      assert (Hq' : 2 * (p * r) / (p + r + e) <= p + r).
      { apply div_le_iff; [exact Hse|]. clearbody e. qc_to_q. nra. }
      assert (EN : 2 * (p * r) = 2 * (p * r) / (p + r + e) * (p + r + e))
        by (field; now apply Qc_pos_neq).
      rewrite EN at 1. clearbody e. revert Hq Hq'.
      generalize (2 * (p * r) / (p + r + e)). intros q Hq Hq'. qc_to_q. nra.
Qed.

Lemma of_Z_nonneg (z : Z) : (0 <= z)%Z -> 0 <= of_Z z.
Proof.
  intros Hz. unfold of_Z, Qcle. cbn [this Q2Qc]. rewrite !Qred_correct.
  unfold Qle. simpl. lia.
Qed.

Lemma of_Z_pos (z : Z) : (0 < z)%Z -> 0 < of_Z z.
Proof.
  intros Hz. unfold of_Z, Qclt. cbn [this Q2Qc]. rewrite !Qred_correct.
  unfold Qlt. simpl. lia.
Qed.

Lemma ratio_nonneg (a b : Z) : (0 <= a)%Z -> (0 < b)%Z -> 0 <= of_Z a / of_Z b.
Proof.
  intros Ha Hb. apply le_div_iff; [now apply of_Z_pos|].
  replace (0 * of_Z b) with 0 by ring. now apply of_Z_nonneg.
Qed.

Lemma precision_at_nonneg y_true y_scores t : 0 <= precision_at y_true y_scores t.
Proof.
  unfold precision_at.
  assert (H1 : (0 <= tps y_true y_scores t)%Z) by (unfold tps; lia).
  assert (H2 : (0 <= fps y_true y_scores t)%Z) by (unfold fps; lia).
  destruct (Z.eqb_spec (tps y_true y_scores t + fps y_true y_scores t) 0);
    [apply Qcle_refl|].
  apply ratio_nonneg; lia.
Qed.

Lemma recall_at_nonneg y_true y_scores t : 0 <= recall_at y_true y_scores t.
Proof.
  unfold recall_at.
  assert (H1 : (0 <= tps y_true y_scores t)%Z) by (unfold tps; lia).
  destruct (Z.eqb_spec (Z.of_nat (length (List.filter fst (combine y_true y_scores)))) 0);
    [discriminate|].
  apply ratio_nonneg; lia.
Qed.

Lemma candidates_spec (y_true : list bool) (y_scores : list Qc) (t f : Qc) :
  In (t, f) (Threshold.candidates y_true y_scores)
  <-> In t (Threshold.thresholds y_scores)
      /\ Threshold.in_band t = true
      /\ f = Threshold.f1_of (Threshold.precision_at y_true y_scores t)
                             (Threshold.recall_at y_true y_scores t).
Proof.
  unfold Threshold.candidates, Threshold.precision_recall_curve, Threshold.candidates_on.
  rewrite !removelast_last, combine_map_map.
  set (ts := Threshold.thresholds y_scores).
  set (P := Threshold.precision_at y_true y_scores).
  set (R := Threshold.recall_at y_true y_scores).
  assert (E : combine (map (fun x => (P x, R x)) ts) ts
              = map (fun x => (P x, R x, x)) ts).
  { induction ts as [|x ts IH]; simpl; [reflexivity | now rewrite IH]. }
  rewrite E, in_map_iff. split.
  - intros (prt & Hc & Hin). apply filter_In in Hin as [Hin Hb].
    apply in_map_iff in Hin as (x & <- & Hx). simpl in *.
    inversion Hc; subst. auto.
  - intros (Ht & Hb & ->). exists (P t, R t, t). split; [reflexivity|].
    apply filter_In. split; [|exact Hb]. apply in_map_iff. eauto.
Qed.

(** C6.  The candidates are the thresholds of the precision-recall
    curve that lie in [[0.05, 0.95]], each with the F1 the code computes
    at its point of the curve, [2pr / (p + r + 1e-9)].  When there is a
    candidate, threshold selection returns one of them, and none has a
    larger F1: none as the code computes it, and none by more than
    [1e-9] for the F1 proper, [2pr / (p + r)]. *)
Theorem find_best_threshold_maximises_f1 (y_true : list bool) (y_scores : list Qc) :
  Threshold.candidates y_true y_scores <> [] ->
  (forall t f,
      In (t, f) (Threshold.candidates y_true y_scores)
      <-> In t (snd (Threshold.precision_recall_curve y_true y_scores))
          /\ (dec 5 100 <= t /\ t <= dec 95 100)
          /\ f = Threshold.f1_of (Threshold.precision_at y_true y_scores t)
                                 (Threshold.recall_at y_true y_scores t))
  /\ In (Threshold.find_best_threshold y_true y_scores)
        (Threshold.candidates y_true y_scores)
  /\ (forall t f, In (t, f) (Threshold.candidates y_true y_scores) ->
                  f <= snd (Threshold.find_best_threshold y_true y_scores))
  /\ (forall t f, In (t, f) (Threshold.candidates y_true y_scores) ->
        let best := fst (Threshold.find_best_threshold y_true y_scores) in
        Threshold.f1_score (Threshold.precision_at y_true y_scores t)
                           (Threshold.recall_at y_true y_scores t)
        <= Threshold.f1_score (Threshold.precision_at y_true y_scores best)
                              (Threshold.recall_at y_true y_scores best)
           + dec 1 1000000000).
Proof.
  intros Hne.
  assert (Hbest : In (Threshold.find_best_threshold y_true y_scores)
                     (Threshold.candidates y_true y_scores)
                  /\ forall t f, In (t, f) (Threshold.candidates y_true y_scores) ->
                       f <= snd (Threshold.find_best_threshold y_true y_scores)).
  { unfold Threshold.find_best_threshold, Threshold.candidates,
      Threshold.precision_recall_curve in *.
    set (t := Threshold.thresholds y_scores) in *.
    set (p := map (Threshold.precision_at y_true y_scores) t ++ [1]) in *.
    set (r := map (Threshold.recall_at y_true y_scores) t ++ [0]) in *.
    assert (Hp : length p = S (length t)).
    { subst p. rewrite length_app, length_map. cbn [length]. lia. }
    assert (Hr : length r = S (length t)).
    { subst r. rewrite length_app, length_map. cbn [length]. lia. }
    destruct (best_on_curve_spec p r t Hp Hr Hne) as [Hin Hmax].
    split; [exact Hin|]. intros t0 f Hc. exact (Hmax (t0, f) Hc). }
  destruct Hbest as [Hin Hmax].
  split; [|split; [exact Hin | split; [exact Hmax|]]].
  - intros t f. rewrite candidates_spec, in_band_spec. reflexivity.
  - intros t f Hc best.
    destruct (Threshold.find_best_threshold y_true y_scores) as [tb fb] eqn:Eb.
    cbn [fst snd] in *. subst best.
    pose proof (Hmax t f Hc) as Hle.
    apply candidates_spec in Hc as (_ & _ & ->).
    apply candidates_spec in Hin as (_ & _ & ->).
    destruct (f1_of_close (Threshold.precision_at y_true y_scores t)
                (Threshold.recall_at y_true y_scores t)
                (precision_at_nonneg _ _ _) (recall_at_nonneg _ _ _)) as [_ Hup].
    destruct (f1_of_close (Threshold.precision_at y_true y_scores tb)
                (Threshold.recall_at y_true y_scores tb)
                (precision_at_nonneg _ _ _) (recall_at_nonneg _ _ _)) as [Hlow _].
    eapply Qcle_trans; [exact Hup|].
    apply Qcplus_le_compat; [|apply Qcle_refl].
    eapply Qcle_trans; [exact Hle | exact Hlow].
Qed.

(** C6 on four scored samples. *)
Lemma find_best_threshold_maximises_f1_witness :
  Threshold.candidates [true; false; true; false]
    [dec 9 10; dec 8 10; dec 4 10; dec 1 10] <> []
  /\ In (Threshold.find_best_threshold [true; false; true; false]
           [dec 9 10; dec 8 10; dec 4 10; dec 1 10])
        (Threshold.candidates [true; false; true; false]
           [dec 9 10; dec 8 10; dec 4 10; dec 1 10]).
Proof.
  assert (H : Threshold.candidates [true; false; true; false]
                [dec 9 10; dec 8 10; dec 4 10; dec 1 10] <> [])
    by (vm_compute; discriminate).
  split; [exact H|].
  exact (proj1 (proj2 (find_best_threshold_maximises_f1 _ _ H))).
Defined.

(** The call raises on a sample that scikit-learn refuses, and is the
    computation on any other. *)
Lemma checked_find_best_threshold_cases (y_true : list bool) (y_scores : list Qc) :
  (y_true <> [] /\ length y_true = length y_scores
   /\ Threshold.Checked.find_best_threshold y_true y_scores
      = inr (Threshold.find_best_threshold y_true y_scores))
  \/ ((y_true = [] \/ length y_true <> length y_scores)
      /\ exists msg, Threshold.Checked.find_best_threshold y_true y_scores
                     = inl (Py.ValueError msg)).
Proof.
  unfold Threshold.Checked.find_best_threshold,
    Threshold.Checked.precision_recall_curve, Threshold.find_best_threshold.
  destruct (Nat.eqb_spec (length y_true) (length y_scores)) as [El|Nl];
    cbn [negb].
  - destruct (Nat.eqb_spec (length y_true) 0) as [E0|N0].
    + right. split; [left; now apply length_zero_iff_nil | eauto].
    + left. split; [intros ->; now apply N0|]. split; [exact El|].
      cbn [Py.bind].
      destruct (Threshold.precision_recall_curve y_true y_scores) as [[p r] t].
      reflexivity.
  - right. split; [now right | eauto].
Qed.

(** C10.  On a sample (labels and scores in equal number, at least
    one), when no threshold of the precision-recall curve lies in
    [[0.05, 0.95]], threshold selection returns the default threshold
    0.5 with an F1 of 0 and raises nothing. *)
Theorem find_best_threshold_default (y_true : list bool) (y_scores : list Qc) :
  y_true <> [] -> length y_true = length y_scores ->
  (forall t, In t (snd (Threshold.precision_recall_curve y_true y_scores)) ->
             ~ (dec 5 100 <= t /\ t <= dec 95 100)) ->
  Threshold.Checked.find_best_threshold y_true y_scores = inr (dec 1 2, 0)
  /\ Threshold.find_best_threshold y_true y_scores = (dec 1 2, 0).
Proof.
  intros Hne Hlen Hall.
  assert (E : Threshold.find_best_threshold y_true y_scores = (dec 1 2, 0)).
  { unfold Threshold.find_best_threshold.
    destruct (Threshold.precision_recall_curve y_true y_scores) as [[p r] t] eqn:E.
    apply best_on_curve_default. intros x Hx.
    apply not_true_is_false. rewrite in_band_spec. now apply Hall. }
  split; [|exact E].
  destruct (checked_find_best_threshold_cases y_true y_scores)
    as [(_ & _ & Hc)|([H0|Hl] & _)]; [|contradiction..].
  rewrite Hc, E. reflexivity.
Qed.

(** C10 on two samples scored 0.99 and 0.01. *)
Lemma find_best_threshold_default_witness :
  [true; false] <> []
  /\ length [true; false] = length [dec 99 100; dec 1 100]
  /\ (forall t, In t (snd (Threshold.precision_recall_curve [true; false]
                             [dec 99 100; dec 1 100])) ->
                ~ (dec 5 100 <= t /\ t <= dec 95 100))
  /\ Threshold.Checked.find_best_threshold [true; false] [dec 99 100; dec 1 100]
     = inr (dec 1 2, 0).
Proof.
  assert (H : forall t, In t (snd (Threshold.precision_recall_curve [true; false]
                                     [dec 99 100; dec 1 100])) ->
                        ~ (dec 5 100 <= t /\ t <= dec 95 100)).
  { intros t Ht [H1 H2]. vm_compute in Ht.
    destruct Ht as [<-|[<-|[]]]; [now apply H1 | now apply H2]. }
  split; [discriminate|]. split; [reflexivity|]. split; [exact H|].
  exact (proj1 (find_best_threshold_default [true; false] [dec 99 100; dec 1 100]
                  ltac:(discriminate) eq_refl H)).
Defined.

End ThresholdFacts.

(** ** Risk tiers *)
Section RiskFacts.
Import Risk.

Lemma Qcltb_lt x y : Qcltb x y = true <-> x < y.
Proof. unfold Qcltb. apply bool_decide_eq_true. Qed.

Lemma Qcltb_ge x y : Qcltb x y = false <-> y <= x.
Proof.
  unfold Qcltb. rewrite bool_decide_eq_false. split.
  - apply Qcnot_lt_le.
  - intros H1 H2. exact (Qcle_not_lt _ _ H1 H2).
Qed.

Lemma get_risk_level_cases (risk_score : Qc) :
  (get_risk_level risk_score = LOW <-> risk_score < dec 3 10)
  /\ (get_risk_level risk_score = MEDIUM
      <-> dec 3 10 <= risk_score /\ risk_score < dec 6 10)
  /\ (get_risk_level risk_score = HIGH
      <-> dec 6 10 <= risk_score /\ risk_score < dec 8 10)
  /\ (get_risk_level risk_score = EXTREME <-> dec 8 10 <= risk_score).
Proof.
  unfold get_risk_level.
  destruct (Qcltb risk_score (dec 3 10)) eqn:C1;
    [apply Qcltb_lt in C1 | apply Qcltb_ge in C1];
  (destruct (Qcltb risk_score (dec 6 10)) eqn:C2;
    [apply Qcltb_lt in C2 | apply Qcltb_ge in C2]);
  (destruct (Qcltb risk_score (dec 8 10)) eqn:C3;
    [apply Qcltb_lt in C3 | apply Qcltb_ge in C3]);
  repeat split; intros;
  repeat match goal with H : _ /\ _ |- _ => destruct H end;
  try reflexivity; try discriminate; qc_order.
Qed.

(** C7.  The tier of a risk score is LOW exactly below 0.3, MEDIUM
    exactly in [[0.3, 0.6)], HIGH exactly in [[0.6, 0.8)] and EXTREME
    exactly from 0.8 on; the boundary scores 0.29, 0.30, 0.59999, 0.6
    and 0.8 fall in LOW, MEDIUM, MEDIUM, HIGH and EXTREME. *)
Theorem get_risk_level_tiers (risk_score : Qc) :
  (Risk.get_risk_level risk_score = Risk.LOW <-> risk_score < dec 3 10)
  /\ (Risk.get_risk_level risk_score = Risk.MEDIUM
      <-> dec 3 10 <= risk_score /\ risk_score < dec 6 10)
  /\ (Risk.get_risk_level risk_score = Risk.HIGH
      <-> dec 6 10 <= risk_score /\ risk_score < dec 8 10)
  /\ (Risk.get_risk_level risk_score = Risk.EXTREME <-> dec 8 10 <= risk_score)
  /\ Risk.get_risk_level (dec 29 100) = Risk.LOW
  /\ Risk.get_risk_level (dec 30 100) = Risk.MEDIUM
  /\ Risk.get_risk_level (dec 59999 100000) = Risk.MEDIUM
  /\ Risk.get_risk_level (dec 6 10) = Risk.HIGH
  /\ Risk.get_risk_level (dec 8 10) = Risk.EXTREME.
Proof.
  destruct (get_risk_level_cases risk_score) as (H1 & H2 & H3 & H4).
  repeat (split; [assumption|]).
  repeat split; vm_compute; reflexivity.
Qed.

End RiskFacts.

(** ** Feature reconstruction *)
Section FeatureFacts.
Context {F : Type} `{FloatOps F}.

Lemma serving_prepare_features_ok (request : Serving.PredictionRequest) d :
  Dates.strptime_ymd (Serving.date request) = Some d ->
  Serving.prepare_features request
  = inr (FeatureSpec.feature_vector request (Dates.weekday d) (Dates.month d)).
Proof.
  intros Hd. unfold Serving.prepare_features, Serving.strptime. rewrite Hd.
  reflexivity.
Qed.

Lemma serving_prepare_features_invalid_date (request : Serving.PredictionRequest) :
  Dates.strptime_ymd (Serving.date request) = None ->
  Serving.prepare_features request
  = inl (Serving.HTTPException 400 "Invalid date format. Use YYYY-MM-DD").
Proof.
  intros Hd. unfold Serving.prepare_features, Serving.strptime. rewrite Hd.
  reflexivity.
Qed.

Ltac read_columns :=
  repeat first
    [ rewrite lookup_insert_eq
    | rewrite lookup_insert_ne by discriminate
    | match goal with E : _ !! _ = Some _ |- _ => rewrite E end ];
  cbn [mbind option_bind].

Lemma training_prepare_features_ok (request : Serving.PredictionRequest)
    (df : gmap string Training.cell) (t : Training.timestamp) :
  df !! "timestamp" = Some (Training.C_time t) ->
  Serving.hour request = Training.ts_hour t ->
  df !! "temp" = Some (Training.C_float (Serving.temp request)) ->
  df !! "tavg" = Some (Training.C_float (Serving.tavg request)) ->
  df !! "tmin" = Some (Training.C_float (Serving.tmin request)) ->
  df !! "prcp" = Some (Training.C_float (Serving.prcp request)) ->
  df !! "lat" = Some (Training.C_float (Serving.lat request)) ->
  df !! "lon" = Some (Training.C_float (Serving.lon request)) ->
  df !! "temp_roll3" = Training.C_float <$> Serving.temp_roll3 request ->
  df !! "temp_roll7" = Training.C_float <$> Serving.temp_roll7 request ->
  df !! "tavg_roll3" = Training.C_float <$> Serving.tavg_roll3 request ->
  df !! "tavg_roll7" = Training.C_float <$> Serving.tavg_roll7 request ->
  is_Some (Serving.temp_roll3 request) -> is_Some (Serving.temp_roll7 request) ->
  is_Some (Serving.tavg_roll3 request) -> is_Some (Serving.tavg_roll7 request) ->
  Training.prepare_features df
  = Some (FeatureSpec.feature_vector request
            (Dates.weekday (Training.ts_date t)) (Dates.month (Training.ts_date t))).
Proof.
  intros Ht Hh Htemp Htavg Htmin Hprcp Hlat Hlon H3 H7 A3 A7 [v3 E3] [v7 E7] [a3 B3] [a7 B7].
  rewrite E3 in H3. rewrite E7 in H7. rewrite B3 in A3. rewrite B7 in A7.
  cbn [fmap option_fmap option_map] in H3, H7, A3, A7.
  unfold Training.prepare_features, Training.add_engineered_features.
  unfold Training.col_time, Training.col_float, Training.col_int.
  read_columns. read_columns. read_columns. read_columns. read_columns.
  read_columns. read_columns. read_columns. read_columns. read_columns.
  read_columns. read_columns. read_columns. read_columns. read_columns.
  unfold Training.feature_cols. cbn [mapM mbind option_bind mret option_ret].
  unfold Training.col_float.
  read_columns.
  unfold FeatureSpec.feature_vector. rewrite E3, E7, B3, B7, Hh.
  reflexivity.
Qed.

End FeatureFacts.

(** C1.  For a request that carries the raw inputs of a training row
    (readings, coordinates, hour, the date of the row's time stamp and
    the row's rolling values), the inference reconstructor and the
    training-time feature engineering produce the same vector: the
    seventeen features of the specification, in the order of the
    training feature list. *)
Theorem inference_features_match_training {F : Type} `{FloatOps F}
    (request : Serving.PredictionRequest) (df : gmap string Training.cell) :
  Training.same_raw_inputs request df ->
  exists d,
    Dates.strptime_ymd (Serving.date request) = Some d
    /\ Serving.prepare_features request
       = inr (FeatureSpec.feature_vector request (Dates.weekday d) (Dates.month d))
    /\ Training.prepare_features df
       = Some (FeatureSpec.feature_vector request (Dates.weekday d) (Dates.month d))
    /\ length (FeatureSpec.feature_vector request (Dates.weekday d) (Dates.month d))
       = length Training.feature_cols.
Proof.
  intros (t & Ht & Hd & Hh & Htemp & Htavg & Htmin & Hprcp & Hlat & Hlon
          & (v3 & E3 & H3) & (v7 & E7 & H7) & (a3 & B3 & A3) & (a7 & B7 & A7)).
  exists (Training.ts_date t). split; [exact Hd|]. split; [|split].
  - now apply serving_prepare_features_ok.
  - apply training_prepare_features_ok; try assumption;
      rewrite ?E3, ?E7, ?B3, ?B7; try assumption; eauto.
  - reflexivity.
Qed.

(** C1 on the sample request and its training row. *)
Lemma inference_features_match_training_witness :
  Training.same_raw_inputs ServingSamples.request0 ServingSamples.row0
  /\ exists d,
       Dates.strptime_ymd (Serving.date ServingSamples.request0) = Some d
       /\ Serving.prepare_features ServingSamples.request0
          = inr (FeatureSpec.feature_vector ServingSamples.request0
                   (Dates.weekday d) (Dates.month d))
       /\ Training.prepare_features ServingSamples.row0
          = Some (FeatureSpec.feature_vector ServingSamples.request0
                    (Dates.weekday d) (Dates.month d))
       /\ length (FeatureSpec.feature_vector ServingSamples.request0
                    (Dates.weekday d) (Dates.month d))
          = length (@Training.feature_cols).
Proof.
  assert (Hs : Training.same_raw_inputs ServingSamples.request0 ServingSamples.row0).
  { exists ServingSamples.timestamp0.
    repeat split; try (vm_compute; reflexivity);
      eexists; split; vm_compute; reflexivity. }
  split; [exact Hs|].
  exact (inference_features_match_training
           ServingSamples.request0 ServingSamples.row0 Hs).
Defined.

(** ** Serving errors *)
Section ServingFacts.
Context {F : Type} `{FloatOps F}.

Lemma predict_risk_no_model (g : Serving.globals) (request : Serving.PredictionRequest) :
  Serving.model g = None ->
  Serving.predict_risk g request = inl (Serving.HTTPException 500 "Model not loaded").
Proof. intros Hm. unfold Serving.predict_risk. now rewrite Hm. Qed.

(** The 400 that [prepare_features] raises for a date it cannot parse is
    itself an [Exception]: the handler of [predict_risk] catches it and
    raises a 500 in its place. *)
Lemma predict_risk_invalid_date (g : Serving.globals)
    (request : Serving.PredictionRequest) :
  is_Some (Serving.model g) ->
  Dates.strptime_ymd (Serving.date request) = None ->
  Serving.predict_risk g request
  = inl (Serving.HTTPException 500
           "Prediction error: 400: Invalid date format. Use YYYY-MM-DD").
Proof.
  intros [m Hm] Hd. unfold Serving.predict_risk. rewrite Hm.
  rewrite serving_prepare_features_invalid_date by exact Hd. reflexivity.
Qed.

(** Whatever is raised inside the handler leaves as a 500. *)
Lemma predict_risk_errors_are_500 (g : Serving.globals)
    (request : Serving.PredictionRequest) (e : Serving.exn) :
  Serving.predict_risk g request = inl e ->
  exists detail, e = Serving.HTTPException 500 detail.
Proof.
  unfold Serving.predict_risk. destruct (Serving.model g) as [m|].
  - unfold Serving.except_Exception.
    destruct (Serving.bind _ _) as [e'|r]; intros E; inversion E; eauto.
  - intros E. inversion E. eauto.
Qed.

End ServingFacts.

(** C2, on the code.  With a bundle loaded, a request whose date is
    written day first is answered with status 500 and the detail of the
    swallowed 400, not with a client error; without a bundle the answer
    is status 500, "Model not loaded". *)
Theorem predict_risk_invalid_date_answers_500 :
  Dates.strptime_ymd (Serving.date ServingSamples.bad_date_request) = None
  /\ Serving.prepare_features ServingSamples.bad_date_request
     = inl (Serving.HTTPException 400 "Invalid date format. Use YYYY-MM-DD")
  /\ Serving.predict_risk ServingSamples.loaded ServingSamples.bad_date_request
     = inl (Serving.HTTPException 500
              "Prediction error: 400: Invalid date format. Use YYYY-MM-DD")
  /\ (forall e,
        Serving.predict_risk ServingSamples.loaded ServingSamples.bad_date_request = inl e ->
        Serving.is_client_error e = false /\ Serving.is_server_error e = true)
  /\ (forall g : @Serving.globals fterm,
        Serving.model g = None ->
        Serving.predict_risk g ServingSamples.bad_date_request
        = inl (Serving.HTTPException 500 "Model not loaded")).
Proof.
  assert (Hd : Dates.strptime_ymd (Serving.date ServingSamples.bad_date_request) = None)
    by (vm_compute; reflexivity).
  assert (Hp : Serving.predict_risk ServingSamples.loaded ServingSamples.bad_date_request
               = inl (Serving.HTTPException 500
                        "Prediction error: 400: Invalid date format. Use YYYY-MM-DD")).
  { apply predict_risk_invalid_date; [eexists; reflexivity | exact Hd]. }
  split; [exact Hd|]. split; [now apply serving_prepare_features_invalid_date|].
  split; [exact Hp|]. split.
  - intros e He. rewrite Hp in He. inversion He; subst. split; reflexivity.
  - intros g Hg. now apply predict_risk_no_model.
Qed.

(** ** Frames as objects: what the joins touch *)
Section FrameFacts.
Import Frames.

Lemma fresh_None (h : heap) : h !! fresh (dom h) = None.
Proof. apply not_elem_of_dom. apply is_fresh. Qed.

Lemma unchanged_refl (h : heap) : unchanged h h.
Proof. intros l f Hl. exact Hl. Qed.

Lemma unchanged_trans (h1 h2 h3 : heap) :
  unchanged h1 h2 -> unchanged h2 h3 -> unchanged h1 h3.
Proof. intros H12 H23 l f Hl. apply H23, H12, Hl. Qed.

Lemma unchanged_insert_new (h : heap) l (f : frame) :
  h !! l = None -> unchanged h (<[l := f]> h).
Proof.
  intros Hl x g Hx. rewrite lookup_insert_ne; [exact Hx|]. congruence.
Qed.

Lemma wp_ret {A} (a : A) (Q : A -> heap -> Prop) h : Q a h -> wp (ret a) Q h.
Proof. intros HQ. exists a, h. auto. Qed.

Lemma wp_bind {A B} (m : M A) (k : A -> M B) (Q : B -> heap -> Prop) h :
  wp m (fun a h' => wp (k a) Q h') h -> wp (bind m k) Q h.
Proof.
  intros (a & h' & Hm & b & h'' & Hk & HQ). exists b, h''.
  unfold bind. rewrite Hm. auto.
Qed.

Lemma wp_bind_inv {A B} (m : M A) (k : A -> M B) (Q : B -> heap -> Prop) h :
  wp (bind m k) Q h -> wp m (fun a h' => wp (k a) Q h') h.
Proof.
  intros (b & h'' & Hb & HQ). unfold bind in Hb.
  destruct (m h) as [[a h']|] eqn:Hm; [|discriminate].
  exists a, h'. split; [exact Hm|]. exists b, h''. auto.
Qed.

Lemma wp_read df (f : frame) (Q : frame -> heap -> Prop) (h : heap) :
  h !! df = Some f -> Q f h -> wp (read df) Q h.
Proof. intros Hf HQ. exists f, h. unfold read. rewrite Hf. auto. Qed.

Lemma wp_getitem df c (f : frame) v (Q : list value -> heap -> Prop) (h : heap) :
  h !! df = Some f -> f !! c = Some v -> Q v h -> wp (getitem df c) Q h.
Proof.
  intros Hf Hc HQ. exists v, h. unfold getitem, bind, read. rewrite Hf, Hc. auto.
Qed.

Lemma wp_new_frame (f : frame) (Q : positive -> heap -> Prop) (h : heap) :
  (forall l, h !! l = None -> Q l (<[l := f]> h)) -> wp (new_frame f) Q h.
Proof.
  intros HQ. exists (fresh (dom h)), (<[fresh (dom h) := f]> h).
  split; [reflexivity|]. apply HQ, fresh_None.
Qed.

Lemma wp_setitem df c v (f : frame) (Q : unit -> heap -> Prop) (h : heap) :
  h !! df = Some f -> Q tt (<[df := <[c := v]> f]> h) -> wp (setitem df c v) Q h.
Proof.
  intros Hf HQ. exists tt, (<[df := <[c := v]> f]> h).
  unfold setitem. rewrite Hf. auto.
Qed.

Lemma columns_of_is_Some (f : frame) cols :
  has_columns f cols -> is_Some (columns_of f cols).
Proof.
  induction 1 as [|c cols [v Hv] _ [g Hg]]; simpl; [eauto|].
  rewrite Hv, Hg. eauto.
Qed.

Lemma wp_GeoDataFrame df geometry (f : frame) (Q : positive -> heap -> Prop) (h : heap) :
  h !! df = Some f ->
  (forall l, h !! l = None -> Q l (<[l := <["geometry" := geometry]> f]> h)) ->
  wp (GeoDataFrame df geometry) Q h.
Proof.
  intros Hf HQ. unfold GeoDataFrame. apply wp_bind.
  apply (wp_read df f); [exact Hf|]. now apply wp_new_frame.
Qed.

Lemma has_index_column_false (f : frame) :
  has_index_column f = false <-> no_index_columns f.
Proof.
  unfold has_index_column, no_index_columns.
  rewrite bool_decide_eq_false, !eq_None_not_Some. tauto.
Qed.

Lemma has_index_column_true (f : frame) :
  is_Some (f !! "index_right") -> has_index_column f = true.
Proof.
  intros Hs. unfold has_index_column. apply bool_decide_eq_true. now right.
Qed.

Lemma columns_of_other (f g : frame) cols c :
  columns_of f cols = Some g -> ~ In c cols -> g !! c = None.
Proof.
  revert g. induction cols as [|c0 cols IH]; intros g E Hc; cbn [columns_of] in E.
  - inversion E. apply lookup_empty.
  - destruct (f !! c0) as [v|]; [|discriminate].
    destruct (columns_of f cols) as [g0|]; [|discriminate].
    inversion E; subst. rewrite lookup_insert_ne.
    + apply IH; [reflexivity|]. intros Hin. apply Hc. now right.
    + intros ->. apply Hc. now left.
Qed.

Lemma wp_select_columns_of df cols (f : frame) (Q : positive -> heap -> Prop) (h : heap) :
  h !! df = Some f -> has_columns f cols ->
  (forall l g, columns_of f cols = Some g -> h !! l = None -> Q l (<[l := g]> h)) ->
  wp (select_columns df cols) Q h.
Proof.
  intros Hf Hc HQ. destruct (columns_of_is_Some f cols Hc) as [g Hg].
  exists (fresh (dom h)), (<[fresh (dom h) := g]> h).
  unfold select_columns, bind, read, new_frame. rewrite Hf, Hg.
  split; [reflexivity|]. apply HQ; [exact Hg | apply fresh_None].
Qed.

Lemma wp_sjoin_nearest lib md left right (fl fr : frame)
    (Q : positive -> heap -> Prop) (h : heap) :
  h !! left = Some fl -> h !! right = Some fr ->
  no_index_columns fl -> no_index_columns fr ->
  (forall l, h !! l = None ->
             Q l (<[l := <["index_right" := sjoin_nearest_labels lib md fl fr]>
                           (sjoin_nearest_rows lib md fl fr)]> h)) ->
  wp (sjoin_nearest lib md left right) Q h.
Proof.
  intros Hl Hr Hnl Hnr HQ. unfold sjoin_nearest.
  apply wp_bind, (wp_read left fl); [exact Hl|].
  apply wp_bind, (wp_read right fr); [exact Hr|].
  rewrite (proj2 (has_index_column_false fl) Hnl).
  rewrite (proj2 (has_index_column_false fr) Hnr). cbn [orb].
  now apply wp_new_frame.
Qed.

Lemma wp_sjoin lib left right (fl fr : frame)
    (Q : positive -> heap -> Prop) (h : heap) :
  h !! left = Some fl -> h !! right = Some fr ->
  no_index_columns fl -> no_index_columns fr ->
  (forall l, h !! l = None ->
             Q l (<[l := <["index_right" := sjoin_labels lib fl fr]>
                           (sjoin_rows lib fl fr)]> h)) ->
  wp (sjoin lib left right) Q h.
Proof.
  intros Hl Hr Hnl Hnr HQ. unfold sjoin.
  apply wp_bind, (wp_read left fl); [exact Hl|].
  apply wp_bind, (wp_read right fr); [exact Hr|].
  rewrite (proj2 (has_index_column_false fl) Hnl).
  rewrite (proj2 (has_index_column_false fr) Hnr). cbn [orb].
  now apply wp_new_frame.
Qed.

(** The drop of a column [index_right] that is there. *)
Lemma wp_drop_index_right df (f : frame) (Q : positive -> heap -> Prop) (h : heap) :
  h !! df = Some f -> is_Some (f !! "index_right") ->
  (forall l, h !! l = None -> Q l (<[l := delete "index_right" f]> h)) ->
  wp (drop_index_right df) Q h.
Proof.
  intros Hf Hs Hnew. unfold drop_index_right.
  apply wp_bind, (wp_read df f); [exact Hf|].
  destruct (decide (is_Some (f !! "index_right"))); [|contradiction].
  now apply wp_new_frame.
Qed.

Lemma wp_reset_index df (f : frame) (Q : positive -> heap -> Prop) (h : heap) :
  h !! df = Some f ->
  (forall l, h !! l = None -> Q l (<[l := f]> h)) ->
  wp (reset_index df) Q h.
Proof.
  intros Hf HQ. unfold reset_index. apply wp_bind, (wp_read df f); [exact Hf|].
  now apply wp_new_frame.
Qed.

Lemma has_columns_lookup (f : frame) cols c :
  has_columns f cols -> In c cols -> is_Some (f !! c).
Proof.
  intros Hc Hin. unfold has_columns in Hc. rewrite List.Forall_forall in Hc.
  now apply Hc.
Qed.

Lemma has_columns_insert (f : frame) cols c v :
  has_columns f cols -> has_columns (<[c := v]> f) cols.
Proof.
  unfold has_columns. intros Hc. eapply Forall_impl; [exact Hc|].
  intros c' [w Hw]. cbn beta.
  destruct (decide (c = c')) as [->|Hne].
  - rewrite lookup_insert_eq. eauto.
  - rewrite lookup_insert_ne by exact Hne. eauto.
Qed.

(** Splits what is known of a new object: it is none of the objects
    allocated before it, and it is not an object of the first heap. *)
Ltac split_fresh H :=
  repeat (apply lookup_insert_None in H; destruct H as [H ?]).

(** Reads an object through the allocations made after it. *)
Ltac heap_lookup :=
  repeat first [ rewrite lookup_insert_eq
               | rewrite lookup_insert_ne by congruence ];
  first [ eassumption | reflexivity | eauto ].

(** A column of [GeoDataFrame(df, geometry=...)] that [df] has, or the
    geometry column. *)
Ltac column_present Hc :=
  first [ rewrite lookup_insert_eq; eauto
        | rewrite lookup_insert_ne by discriminate;
          apply (has_columns_lookup _ _ _ Hc); simpl; tauto ].

(** A selection of columns none of which is named [c] has no column [c]. *)
Ltac column_absent Hg :=
  apply (columns_of_other _ _ _ _ Hg); cbn [In];
  intros Hin; repeat (destruct Hin as [Hin|Hin]; [discriminate|]); exact Hin.

(** Lines 51-62 of [preprocess] return a new frame, which has a column
    [index_right], and touch no frame that existed. *)
Lemma preprocess_nearest_returns_new (lib : library) (h : heap)
    (weather incidents : positive) (fw fi : frame) :
  h !! weather = Some fw -> h !! incidents = Some fi ->
  has_columns fi ["lon"; "lat"] -> no_index_columns fi ->
  has_columns fw ["lon"; "lat"; "timestamp"; "temp"; "humidity"; "wind"] ->
  wp (preprocess_nearest lib weather incidents)
     (fun out h' => h !! out = None
                    /\ (exists f, h' !! out = Some f /\ is_Some (f !! "index_right"))
                    /\ unchanged h h') h.
Proof.
  intros Hw Hi Hci [Hil Hir] Hcw. unfold preprocess_nearest.
  destruct (has_columns_lookup fw _ "lon" Hcw) as [wlon Hwlon]; [simpl; tauto|].
  destruct (has_columns_lookup fw _ "lat" Hcw) as [wlat Hwlat]; [simpl; tauto|].
  destruct (has_columns_lookup fi _ "lon" Hci) as [ilon Hilon]; [simpl; tauto|].
  destruct (has_columns_lookup fi _ "lat" Hci) as [ilat Hilat]; [simpl; tauto|].
  apply wp_bind, (wp_getitem weather "lon" fw wlon); [exact Hw | exact Hwlon|].
  apply wp_bind, (wp_getitem weather "lat" fw wlat); [exact Hw | exact Hwlat|].
  apply wp_bind, (wp_GeoDataFrame weather _ fw); [exact Hw|].
  intros weather_gdf Hg1.
  apply wp_bind, (wp_getitem incidents "lon" fi ilon); [heap_lookup | exact Hilon|].
  apply wp_bind, (wp_getitem incidents "lat" fi ilat); [heap_lookup | exact Hilat|].
  apply wp_bind, (wp_GeoDataFrame incidents _ fi); [heap_lookup|].
  intros incidents_gdf Hg2. split_fresh Hg2.
  apply wp_bind,
    (wp_select_columns_of weather_gdf _ (<["geometry" := points_from_xy lib wlon wlat]> fw));
    [heap_lookup | repeat constructor; column_present Hcw |].
  intros right g Hg Hg3. split_fresh Hg3.
  apply (wp_sjoin_nearest lib _ incidents_gdf right
           (<["geometry" := points_from_xy lib ilon ilat]> fi) g);
    [heap_lookup | heap_lookup | | |].
  - split; rewrite lookup_insert_ne by discriminate; assumption.
  - split; column_absent Hg.
  - intros out Hg4. split_fresh Hg4. split; [exact Hg4|]. split.
    + eexists. split; [apply lookup_insert_eq|]. rewrite lookup_insert_eq. eauto.
    + intros x f Hx. heap_lookup.
Qed.

Lemma wp_mono {A} (m : M A) (Q Q' : A -> heap -> Prop) (h : heap) :
  wp m Q h -> (forall a h', Q a h' -> Q' a h') -> wp m Q' h.
Proof. intros (a & h' & Hm & HQ) Himp. exists a, h'. auto. Qed.

Lemma unchanged_None (h hk : heap) l :
  unchanged h hk -> hk !! l = None -> h !! l = None.
Proof.
  intros Hun Hl. destruct (h !! l) as [f|] eqn:E; [|reflexivity].
  apply Hun in E. congruence.
Qed.

(** Lines 167-215 of [spatial_temporal_join], which drop the column
    [index_right] after each join, return two new frames and touch no
    frame that existed. *)
Lemma spatial_joins_returns_new (lib : library) (h : heap)
    (weather_df incidents_df landcover_gdf : positive) (fw fi fl : frame) :
  h !! weather_df = Some fw -> h !! incidents_df = Some fi ->
  h !! landcover_gdf = Some fl ->
  has_columns fi ["lon"; "lat"] -> no_index_columns fi -> no_index_columns fl ->
  has_columns fw ["time"; "temp"; "tavg"; "tmin"; "prcp";
                  "temp_roll3"; "tavg_roll3"; "tmin_roll3"] ->
  adds_no_index_left lib ->
  wp (spatial_joins lib weather_df incidents_df landcover_gdf)
     (fun r h' =>
        (h !! fst r = None /\ is_Some (h' !! fst r))
        /\ (h !! snd r = None /\ is_Some (h' !! snd r))
        /\ unchanged h h') h.
Proof.
  intros Hw Hi Hlc Hci [Hil Hir] Hnl Hcw Hlib. unfold spatial_joins.
  destruct (has_columns_lookup fi _ "lon" Hci) as [ilon Hilon]; [simpl; tauto|].
  destruct (has_columns_lookup fi _ "lat" Hci) as [ilat Hilat]; [simpl; tauto|].
  apply wp_bind, (wp_read weather_df fw); [exact Hw|].
  apply wp_bind, (wp_GeoDataFrame weather_df _ fw); [exact Hw|].
  intros weather_gdf Hg1.
  apply wp_bind, (wp_getitem incidents_df "lon" fi ilon); [heap_lookup | exact Hilon|].
  apply wp_bind, (wp_getitem incidents_df "lat" fi ilat); [heap_lookup | exact Hilat|].
  apply wp_bind, (wp_GeoDataFrame incidents_df _ fi); [heap_lookup|].
  intros incidents_gdf Hg2. split_fresh Hg2.
  apply wp_bind, (wp_select_columns_of weather_gdf _
                    (<["geometry" := constant_points lib (dec 129716 10000)
                                       (dec 775946 10000) (nrows fw)]> fw));
    [heap_lookup | repeat constructor; column_present Hcw |].
  intros right g Hg Hg3. split_fresh Hg3.
  set (fig := <["geometry" := points_from_xy lib ilon ilat]> fi).
  assert (Hfig : no_index_columns fig)
    by (split; unfold fig; rewrite lookup_insert_ne by discriminate; assumption).
  assert (Hgn : no_index_columns g) by (split; column_absent Hg).
  apply wp_bind, (wp_sjoin_nearest lib None incidents_gdf right fig g);
    [heap_lookup | heap_lookup | exact Hfig | exact Hgn |].
  intros j1 Hg4. split_fresh Hg4.
  set (f1 := <["index_right" := sjoin_nearest_labels lib None fig g]>
               (sjoin_nearest_rows lib None fig g)).
  apply wp_bind, (wp_drop_index_right j1 f1);
    [heap_lookup | unfold f1; rewrite lookup_insert_eq; eauto |].
  intros j1a Hg5. split_fresh Hg5.
  apply wp_bind, (wp_reset_index j1a (delete "index_right" f1)); [heap_lookup|].
  intros j1b Hg6. split_fresh Hg6.
  assert (Hf1 : no_index_columns (delete "index_right" f1)).
  { split; [|apply lookup_delete_eq].
    rewrite lookup_delete_ne by discriminate. unfold f1.
    rewrite lookup_insert_ne by discriminate.
    apply Hlib; [apply Hfig | apply Hgn | right; column_absent Hg]. }
  apply wp_bind, (wp_sjoin lib j1b landcover_gdf (delete "index_right" f1) fl);
    [heap_lookup | heap_lookup | exact Hf1 | exact Hnl |].
  intros j2 Hg7. split_fresh Hg7.
  set (f2 := <["index_right" := sjoin_labels lib (delete "index_right" f1) fl]>
               (sjoin_rows lib (delete "index_right" f1) fl)).
  apply wp_bind, (wp_drop_index_right j2 f2);
    [heap_lookup | unfold f2; rewrite lookup_insert_eq; eauto |].
  intros j2a Hg8. split_fresh Hg8.
  apply wp_bind, (wp_reset_index j2a (delete "index_right" f2)); [heap_lookup|].
  intros j2b Hg9. split_fresh Hg9.
  apply wp_ret. cbn [fst snd]. repeat split.
  - exact Hg1.
  - eexists. heap_lookup.
  - exact Hg9.
  - rewrite lookup_insert_eq. eauto.
  - intros x f Hx. heap_lookup.
Qed.

Lemma bind_Some {A B} (m : M A) (k : A -> M B) (h h'' : heap) (b : B) :
  bind m k h = Some (b, h'') ->
  exists a h', m h = Some (a, h') /\ k a h' = Some (b, h'').
Proof.
  unfold bind. destruct (m h) as [[a h']|]; [eauto | discriminate].
Qed.

Lemma read_Some df (h h' : heap) (f : frame) :
  read df h = Some (f, h') -> h' = h /\ h !! df = Some f.
Proof.
  unfold read. destruct (h !! df); intros E; inversion E; auto.
Qed.

Lemma getitem_Some df c (h h' : heap) v :
  getitem df c h = Some (v, h') -> h' = h.
Proof.
  intros E. apply bind_Some in E as (f & h1 & Hr & E).
  apply read_Some in Hr as [-> _]. destruct (f !! c); inversion E; auto.
Qed.

Lemma new_frame_Some (f : frame) (h h' : heap) l :
  new_frame f h = Some (l, h') -> h !! l = None /\ h' = <[l := f]> h.
Proof.
  unfold new_frame. intros E. inversion E; subst. split; [apply fresh_None | reflexivity].
Qed.

(** An update in place of an object that is not in [h] keeps [h]. *)
Lemma setitem_Some (h hk hk' : heap) df c v u :
  unchanged h hk -> h !! df = None ->
  setitem df c v hk = Some (u, hk') ->
  unchanged h hk' /\ forall l, hk !! l = None -> hk' !! l = None.
Proof.
  intros Hun Hdf E. unfold setitem in E.
  destruct (hk !! df) as [f|] eqn:Hf; inversion E; subst. split.
  - intros x g Hx. rewrite lookup_insert_ne; [now apply Hun | congruence].
  - intros l Hl. rewrite lookup_insert_ne; [exact Hl | congruence].
Qed.

Lemma select_columns_Some df cols (h h' : heap) l :
  select_columns df cols h = Some (l, h') ->
  h !! l = None /\ exists g, h' = <[l := g]> h.
Proof.
  intros E. apply bind_Some in E as (f & h1 & Hr & E).
  apply read_Some in Hr as [-> _].
  destruct (columns_of f cols) as [g|]; [|discriminate].
  apply new_frame_Some in E as [Hl ->]. eauto.
Qed.

(** The frame that a nearest-point join returns has a column
    [index_right]. *)
Lemma sjoin_nearest_Some lib md left right (h h' : heap) l :
  sjoin_nearest lib md left right h = Some (l, h') ->
  exists f, h' !! l = Some f /\ is_Some (f !! "index_right").
Proof.
  intros E. unfold sjoin_nearest in E.
  apply bind_Some in E as (fl & h1 & Hr & E). apply read_Some in Hr as [-> _].
  apply bind_Some in E as (fr & h2 & Hr & E). apply read_Some in Hr as [-> _].
  destruct (has_index_column fl || has_index_column fr); [discriminate|].
  apply new_frame_Some in E as [_ ->].
  eexists. split; [apply lookup_insert_eq|]. rewrite lookup_insert_eq. eauto.
Qed.

(** The polygon join refuses a left frame that has a column
    [index_right]. *)
Lemma sjoin_refuses_index_right lib left right (h : heap) (f : frame) :
  h !! left = Some f -> is_Some (f !! "index_right") ->
  sjoin lib left right h = None.
Proof.
  intros Hf Hs. unfold sjoin, bind, read. rewrite Hf.
  destruct (h !! right) as [fr|]; [|reflexivity].
  rewrite (has_index_column_true f Hs). reflexivity.
Qed.

(** Line 64 of [preprocess] joins the frame that line 62 returned, which
    has its column [index_right]: whatever the frames, the join raises. *)
Lemma preprocess_joins_raises (lib : library) (h : heap)
    (weather incidents landcover : positive) :
  preprocess_joins lib weather incidents landcover h = None.
Proof.
  unfold preprocess_joins. unfold bind at 1.
  destruct (preprocess_nearest lib weather incidents h) as [[g h1]|] eqn:E;
    [|reflexivity].
  assert (Hg : exists f, h1 !! g = Some f /\ is_Some (f !! "index_right")).
  { unfold preprocess_nearest in E.
    do 7 (apply bind_Some in E as (? & ? & _ & E)).
    now apply sjoin_nearest_Some in E. }
  destruct Hg as (f & Hf & Hs).
  unfold bind. now rewrite (sjoin_refuses_index_right lib g landcover h1 f Hf Hs).
Qed.

(** The temporal part of [spatial_temporal_join] updates in place only
    the two frames that the spatial part has built. *)
Lemma temporal_join_keeps (lib : library) (h hk h' : heap)
    (weather_gdf incidents_landcover out : positive) :
  unchanged h hk -> h !! weather_gdf = None -> h !! incidents_landcover = None ->
  temporal_join lib weather_gdf incidents_landcover hk = Some (out, h') ->
  h !! out = None /\ is_Some (h' !! out) /\ unchanged h h'.
Proof.
  intros Hun Hwg Hil E. unfold temporal_join in E.
  apply bind_Some in E as (ts1 & h1 & E1 & E). apply getitem_Some in E1 as ->.
  apply bind_Some in E as (u1 & h2 & E2 & E).
  apply (setitem_Some h) in E2 as [Hun2 _]; [|exact Hun | exact Hil].
  apply bind_Some in E as (ts2 & h3 & E3 & E). apply getitem_Some in E3 as ->.
  apply bind_Some in E as (u2 & h4 & E4 & E).
  apply (setitem_Some h) in E4 as [Hun4 _]; [|exact Hun2 | exact Hwg].
  apply bind_Some in E as (right & h5 & E5 & E).
  apply select_columns_Some in E5 as (Hr & g & ->).
  unfold merge in E.
  apply bind_Some in E as (fl & h6 & E6 & E). apply read_Some in E6 as [-> _].
  apply bind_Some in E as (fr & h7 & E7 & E). apply read_Some in E7 as [-> _].
  apply new_frame_Some in E as [Ho ->].
  assert (Hun5 : unchanged h (<[right := g]> h4)).
  { eapply unchanged_trans; [exact Hun4|]. now apply unchanged_insert_new. }
  split; [now apply (unchanged_None h (<[right := g]> h4))|].
  split; [rewrite lookup_insert_eq; eauto|].
  eapply unchanged_trans; [exact Hun5|]. now apply unchanged_insert_new.
Qed.

Lemma spatial_temporal_join_keeps (lib : library) (h h' : heap)
    (weather_df incidents_df landcover_gdf out : positive) (fw fi fl : frame) :
  h !! weather_df = Some fw -> h !! incidents_df = Some fi ->
  h !! landcover_gdf = Some fl ->
  has_columns fi ["lon"; "lat"] -> no_index_columns fi -> no_index_columns fl ->
  has_columns fw ["time"; "temp"; "tavg"; "tmin"; "prcp";
                  "temp_roll3"; "tavg_roll3"; "tmin_roll3"] ->
  adds_no_index_left lib ->
  spatial_temporal_join lib weather_df incidents_df landcover_gdf h = Some (out, h') ->
  h !! out = None /\ is_Some (h' !! out) /\ unchanged h h'.
Proof.
  intros Hw Hi Hlc Hci Hni Hnl Hcw Hlib E. unfold spatial_temporal_join in E.
  apply bind_Some in E as ([wg il] & hk & Es & Et).
  destruct (spatial_joins_returns_new lib h _ _ _ fw fi fl Hw Hi Hlc Hci Hni Hnl Hcw Hlib)
    as (r & hk' & Es' & (Hwg & _) & (Hil & _) & Hun).
  rewrite Es in Es'. inversion Es'; subst r hk'. cbn [fst snd] in *.
  exact (temporal_join_keeps lib h hk h' wg il out Hun Hwg Hil Et).
Qed.

(** Before its joins, [preprocess] does update its two arguments in
    place: their time stamp columns are replaced by the parsed ones. *)
Lemma preprocess_timestamps_in_place (lib : library) (h : heap)
    (weather incidents : positive) (fw fi : frame) tw ti :
  weather <> incidents ->
  h !! weather = Some fw -> h !! incidents = Some fi ->
  fw !! "timestamp" = Some tw -> fi !! "timestamp" = Some ti ->
  preprocess_timestamps lib weather incidents h
  = Some (tt, <[incidents := <["timestamp" := to_datetime lib ti]> fi]>
                (<[weather := <["timestamp" := to_datetime lib tw]> fw]> h)).
Proof.
  intros Hne Hw Hi Htw Hti.
  unfold preprocess_timestamps, getitem, read, setitem. unfold bind. cbv beta.
  rewrite Hw, Htw. rewrite Hw.
  rewrite lookup_insert_ne by exact Hne. rewrite Hi, Hti.
  rewrite lookup_insert_ne by exact Hne. rewrite Hi. reflexivity.
Qed.

End FrameFacts.

(** C9.  In [preprocess] the nearest-point join of line 62 returns a
    new frame and leaves every frame that existed as it was, but the
    frame it returns has a column [index_right], which the polygon join
    of line 64 refuses: on every input the two joins of [preprocess]
    raise and return no joined frame.  In [spatial_temporal_join], which
    drops that column after each join, the two joins return a new frame
    and leave every frame that existed, the three inputs included,
    exactly as it was (same columns, same values), and the function as a
    whole keeps this whenever it returns.  The input frames are frames
    without a column [index_left] or [index_right]. *)
Theorem preprocess_joins_raise_spatial_joins_return (lib : Frames.library)
    (h : gmap positive (gmap string (list Frames.value)))
    (weather incidents landcover : positive)
    (fw fi fl : gmap string (list Frames.value)) :
  h !! weather = Some fw -> h !! incidents = Some fi -> h !! landcover = Some fl ->
  Frames.has_columns fi ["lon"; "lat"] ->
  Frames.no_index_columns fi -> Frames.no_index_columns fl ->
  Frames.preprocess_joins lib weather incidents landcover h = None
  /\ (Frames.has_columns fw ["lon"; "lat"; "timestamp"; "temp"; "humidity"; "wind"] ->
      Frames.wp (Frames.preprocess_nearest lib weather incidents)
        (fun out h' =>
           h !! out = None
           /\ (exists f, h' !! out = Some f /\ is_Some (f !! "index_right")
                         /\ Frames.sjoin lib out landcover h' = None)
           /\ Frames.unchanged h h') h)
  /\ (Frames.has_columns fw ["time"; "temp"; "tavg"; "tmin"; "prcp";
                             "temp_roll3"; "tavg_roll3"; "tmin_roll3"] ->
      Frames.adds_no_index_left lib ->
      Frames.returns_new h (Frames.spatial_joins lib weather incidents landcover) snd
      /\ forall out h',
           Frames.spatial_temporal_join lib weather incidents landcover h
           = Some (out, h') ->
           h !! out = None /\ is_Some (h' !! out) /\ Frames.unchanged h h').
Proof.
  intros Hw Hi Hlc Hci Hni Hnl. split; [apply preprocess_joins_raises|]. split.
  - intros Hcw.
    eapply wp_mono;
      [exact (preprocess_nearest_returns_new lib h _ _ fw fi Hw Hi Hci Hni Hcw)|].
    intros out h' (Hn & (f & Hf & Hs) & Hun). split; [exact Hn|]. split; [|exact Hun].
    exists f. split; [exact Hf|]. split; [exact Hs|].
    exact (sjoin_refuses_index_right lib out landcover h' f Hf Hs).
  - intros Hcw Hlib. split.
    + unfold Frames.returns_new.
      eapply wp_mono;
        [exact (spatial_joins_returns_new lib h _ _ _ fw fi fl
                  Hw Hi Hlc Hci Hni Hnl Hcw Hlib)|].
      intros r h' (_ & (Hn & Hs) & Hun). auto.
    + intros out h' E.
      exact (spatial_temporal_join_keeps lib h h' _ _ _ out fw fi fl
               Hw Hi Hlc Hci Hni Hnl Hcw Hlib E).
Qed.

(** C9 on the sample heap: the joins of [preprocess] raise. *)
Lemma preprocess_joins_raise_spatial_joins_return_witness :
  FrameSamples.heap0 !! 1%positive = Some FrameSamples.weather0
  /\ FrameSamples.heap0 !! 2%positive = Some FrameSamples.incidents0
  /\ FrameSamples.heap0 !! 3%positive = Some FrameSamples.landcover0
  /\ Frames.has_columns FrameSamples.incidents0 ["lon"; "lat"]
  /\ Frames.no_index_columns FrameSamples.incidents0
  /\ Frames.no_index_columns FrameSamples.landcover0
  /\ Frames.preprocess_joins FrameSamples.lib0 1 2 3 FrameSamples.heap0 = None.
Proof.
  assert (H1 : FrameSamples.heap0 !! 1%positive = Some FrameSamples.weather0)
    by reflexivity.
  assert (H2 : FrameSamples.heap0 !! 2%positive = Some FrameSamples.incidents0)
    by reflexivity.
  assert (H3 : FrameSamples.heap0 !! 3%positive = Some FrameSamples.landcover0)
    by reflexivity.
  assert (H4 : Frames.has_columns FrameSamples.incidents0 ["lon"; "lat"])
    by (repeat constructor; eexists; vm_compute; reflexivity).
  assert (H5 : Frames.no_index_columns FrameSamples.incidents0)
    by (split; vm_compute; reflexivity).
  assert (H6 : Frames.no_index_columns FrameSamples.landcover0)
    by (split; vm_compute; reflexivity).
  repeat (split; [assumption|]).
  exact (proj1 (preprocess_joins_raise_spatial_joins_return FrameSamples.lib0
                  FrameSamples.heap0 1 2 3 _ _ _ H1 H2 H3 H4 H5 H6)).
Defined.

(** The first two lines of [preprocess] on the sample heap: the time
    stamp columns of both arguments are overwritten. *)
Lemma preprocess_timestamps_in_place_witness :
  1%positive <> 2%positive
  /\ FrameSamples.heap0 !! 1%positive = Some FrameSamples.weather0
  /\ FrameSamples.heap0 !! 2%positive = Some FrameSamples.incidents0
  /\ FrameSamples.weather0 !! "timestamp" = Some [Frames.V_str "2022-06-01T13:00"]
  /\ FrameSamples.incidents0 !! "timestamp" = Some [Frames.V_str "2022-06-01T14:00"]
  /\ Frames.preprocess_timestamps FrameSamples.lib0 1 2 FrameSamples.heap0
     = Some (tt,
             <[2%positive :=
                 <["timestamp" :=
                     Frames.to_datetime FrameSamples.lib0
                       [Frames.V_str "2022-06-01T14:00"]]> FrameSamples.incidents0]>
               (<[1%positive :=
                    <["timestamp" :=
                        Frames.to_datetime FrameSamples.lib0
                          [Frames.V_str "2022-06-01T13:00"]]> FrameSamples.weather0]>
                  FrameSamples.heap0)).
Proof.
  assert (H0 : 1%positive <> 2%positive) by discriminate.
  assert (H1 : FrameSamples.heap0 !! 1%positive = Some FrameSamples.weather0)
    by reflexivity.
  assert (H2 : FrameSamples.heap0 !! 2%positive = Some FrameSamples.incidents0)
    by reflexivity.
  assert (H3 : FrameSamples.weather0 !! "timestamp"
               = Some [Frames.V_str "2022-06-01T13:00"])
    by (vm_compute; reflexivity).
  assert (H4 : FrameSamples.incidents0 !! "timestamp"
               = Some [Frames.V_str "2022-06-01T14:00"])
    by (vm_compute; reflexivity).
  repeat (split; [assumption|]).
  exact (preprocess_timestamps_in_place FrameSamples.lib0 FrameSamples.heap0 1 2
           _ _ _ _ H0 H1 H2 H3 H4).
Defined.

(** ** The rolling columns of the two pipelines *)
Section RollingColumns.

Lemma map_fst_combine {A B} (l : list A) (k : list B) :
  (length l <= length k)%nat -> map fst (combine l k) = l.
Proof.
  revert k. induction l as [|a l IH]; intros [|b k] Hl; simpl in *;
    try reflexivity; try lia.
  f_equal. apply IH. lia.
Qed.

Lemma map_snd_combine {A B} (l : list A) (k : list B) :
  (length k <= length l)%nat -> map snd (combine l k) = k.
Proof.
  revert k. induction l as [|a l IH]; intros [|b k] Hl; simpl in *;
    try reflexivity; try lia.
  f_equal. apply IH. lia.
Qed.

(** [compute_rolling_averages] keeps the sorted rows and sets each
    rolling column to the rolling mean, of window 3, of its base column. *)
Lemma compute_rolling_averages_columns (df : list DataPreparation.weather_day) :
  let sorted := sort_values (key_leb DataPreparation.time) df in
  map DataPreparation.day (DataPreparation.compute_rolling_averages df) = sorted
  /\ map DataPreparation.temp_roll3 (DataPreparation.compute_rolling_averages df)
     = Rolling.rolling_mean 3 (map DataPreparation.temp sorted)
  /\ map DataPreparation.tavg_roll3 (DataPreparation.compute_rolling_averages df)
     = Rolling.rolling_mean 3 (map DataPreparation.tavg sorted)
  /\ map DataPreparation.tmin_roll3 (DataPreparation.compute_rolling_averages df)
     = Rolling.rolling_mean 3 (map DataPreparation.tmin sorted).
Proof.
  intros sorted. unfold DataPreparation.compute_rolling_averages. fold sorted.
  set (c1 := Rolling.rolling_mean 3 (map DataPreparation.temp sorted)).
  set (c2 := Rolling.rolling_mean 3 (map DataPreparation.tavg sorted)).
  set (c3 := Rolling.rolling_mean 3 (map DataPreparation.tmin sorted)).
  assert (L1 : length c1 = length sorted)
    by (subst c1; now rewrite rolling_mean_length, length_map).
  assert (L2 : length c2 = length sorted)
    by (subst c2; now rewrite rolling_mean_length, length_map).
  assert (L3 : length c3 = length sorted)
    by (subst c3; now rewrite rolling_mean_length, length_map).
  rewrite !map_map. cbn [DataPreparation.day DataPreparation.temp_roll3
                           DataPreparation.tavg_roll3 DataPreparation.tmin_roll3].
  assert (E23 : length (combine c2 c3) = length sorted)
    by (rewrite length_combine; lia).
  assert (E123 : length (combine c1 (combine c2 c3)) = length sorted)
    by (rewrite length_combine; lia).
  repeat split.
  - apply map_fst_combine. lia.
  - rewrite <- (map_map snd fst), map_snd_combine by lia.
    apply map_fst_combine. lia.
  - rewrite <- (map_map snd (fun x => fst (snd x))), map_snd_combine by lia.
    rewrite <- (map_map snd fst), map_snd_combine by lia.
    apply map_fst_combine. lia.
  - rewrite <- (map_map snd (fun x => snd (snd x))), map_snd_combine by lia.
    rewrite <- (map_map snd snd), map_snd_combine by lia.
    apply map_snd_combine. lia.
Qed.

(** [add_rolling_features]: the rolling columns of a row of the sorted
    frame are the rolling means of the rows of its own location. *)
Lemma add_rolling_features_per_location (df : list RollingFeatures.sample)
    (i : nat) (s : RollingFeatures.sample) :
  let sorted := sort_values RollingFeatures.sample_leb df in
  let keyed col := map (fun s => (RollingFeatures.location s, col s)) sorted in
  let own w col :=
    Rolling.rolling_mean w
      (Rolling.group_values (RollingFeatures.location s) (keyed col))
    !! Rolling.rank (RollingFeatures.location s) (keyed col) i in
  sorted !! i = Some s ->
  exists r,
    RollingFeatures.add_rolling_features df !! i = Some r
    /\ RollingFeatures.sample_of r = s
    /\ own 3%nat RollingFeatures.s_temp = Some (RollingFeatures.temp_roll3 r)
    /\ own 3%nat RollingFeatures.s_tavg = Some (RollingFeatures.tavg_roll3 r)
    /\ own 7%nat RollingFeatures.s_temp = Some (RollingFeatures.temp_roll7 r)
    /\ own 7%nat RollingFeatures.s_tavg = Some (RollingFeatures.tavg_roll7 r).
Proof.
  intros sorted keyed own Hs. unfold RollingFeatures.add_rolling_features.
  fold sorted. rewrite list_lookup_imap, Hs. cbn [fmap option_fmap option_map].
  eexists. split; [reflexivity|]. cbn [RollingFeatures.sample_of
    RollingFeatures.temp_roll3 RollingFeatures.tavg_roll3
    RollingFeatures.temp_roll7 RollingFeatures.tavg_roll7].
  assert (Hcol : forall w col,
            own w col
            = Some (default None (RollingFeatures.rolling_column w col sorted !! i))).
  { intros w col. unfold own, RollingFeatures.rolling_column.
    assert (Hk : keyed col !! i = Some (RollingFeatures.location s, col s)).
    { unfold keyed. rewrite list_lookup_fmap, Hs. reflexivity. }
    rewrite <- (groupby_rolling_lookup w (keyed col) i _ _ Hk).
    fold (keyed col).
    destruct (Rolling.groupby_rolling w (keyed col) !! i) as [v|] eqn:E;
      [reflexivity|].
    apply lookup_ge_None_1 in E. apply lookup_lt_Some in Hk.
    unfold Rolling.groupby_rolling in E. rewrite length_map, length_seq in E. lia. }
  repeat split; apply Hcol.
Qed.

(** All weather records sit at one point: each is a nearest one. *)
Lemma data_preparation_nearest_all
    (index : Geo.index_order DataPreparation.incident DataPreparation.weather_rolled)
    (p : DataPreparation.incident) (ws : list DataPreparation.weather_rolled) :
  Permutation
    (Geo.nearest DataPreparation.incident_xy DataPreparation.weather_xy index None p ws)
    ws.
Proof.
  unfold Geo.nearest. cbn [Geo.within_cutoff].
  assert (Hf : forall (P : DataPreparation.weather_rolled -> bool) l,
             (forall w, P w = true) -> List.filter P l = l).
  { intros P l HP. induction l as [|w l IH]; simpl; [reflexivity|].
    rewrite HP, IH. reflexivity. }
  rewrite (Hf (fun _ => true)) by reflexivity.
  set (d := Geo.row_dist2 DataPreparation.incident_xy DataPreparation.weather_xy p).
  destruct (Geo.minimum (map d ws)) as [m|] eqn:Em.
  - apply minimum_spec in Em as [Hin _].
    apply in_map_iff in Hin as (w0 & Hw0 & _).
    rewrite (Geo.arrange_perm index). rewrite Hf; [reflexivity|].
    intros w. apply Qceqb_eq. rewrite <- Hw0. reflexivity.
  - apply minimum_None, map_eq_nil in Em. now rewrite Em.
Qed.

(** In [spatial_temporal_join] every weather record sits at the same
    point, so each of them is a nearest one: an incident is joined to
    all the weather records, one row for each, in the order in which the
    spatial index returns them. *)
Lemma data_preparation_joins_every_record
    (index : Geo.index_order DataPreparation.incident DataPreparation.weather_rolled)
    (p : DataPreparation.incident) (ws : list DataPreparation.weather_rolled) :
  ws <> [] ->
  Permutation (DataPreparation.join_nearest_weather index [p] ws)
              (map (fun w => (p, Some w)) ws).
Proof.
  intros Hne. unfold DataPreparation.join_nearest_weather, Geo.sjoin_nearest.
  cbn [flat_map]. rewrite app_nil_r.
  pose proof (data_preparation_nearest_all index p ws) as E.
  destruct (Geo.nearest DataPreparation.incident_xy DataPreparation.weather_xy
              index None p ws) as [|c cs] eqn:En.
  - apply Permutation_nil in E. contradiction.
  - now apply Permutation_map.
Qed.

End RollingColumns.

(** Two daily records and one incident: the incident is joined to both,
    here by an index that returns its hits in reverse. *)
Lemma data_preparation_joins_every_record_witness :
  DataPreparation.compute_rolling_averages [Samples.day1; Samples.day2] <> []
  /\ Permutation
       (DataPreparation.join_nearest_weather Geo.reverse_order [Samples.report0]
          (DataPreparation.compute_rolling_averages [Samples.day1; Samples.day2]))
       (map (fun w => (Samples.report0, Some w))
            (DataPreparation.compute_rolling_averages [Samples.day1; Samples.day2])).
Proof.
  assert (Hne : DataPreparation.compute_rolling_averages [Samples.day1; Samples.day2]
                <> []) by (vm_compute; discriminate).
  split; [exact Hne|].
  exact (data_preparation_joins_every_record Geo.reverse_order Samples.report0 _ Hne).
Defined.

(** ** [data_preparation.py]: the last twelve months *)
Section LastYear.
Import DataPreparation.

Lemma fold_left_max_spec (l : list Z) (a : Z) :
  (a <= fold_left Z.max l a)%Z
  /\ Forall (fun x => (x <= fold_left Z.max l a)%Z) l
  /\ (fold_left Z.max l a = a \/ In (fold_left Z.max l a) l).
Proof.
  revert a. induction l as [|x l IH]; intros a; simpl.
  - split; [lia|]. split; [constructor | now left].
  - destruct (IH (Z.max a x)) as (H1 & H2 & H3).
    split; [lia|]. split; [constructor; [lia | exact H2]|].
    destruct H3 as [H3|H3]; [|now right; right].
    rewrite H3. destruct (Z.max_spec a x) as [[_ ->]|[_ ->]]; auto.
Qed.

Lemma series_max_spec (times : list Z) (m : Z) :
  Py.series_max times = Some m <->
  In m times /\ Forall (fun t => (t <= m)%Z) times.
Proof.
  destruct times as [|t rest]; simpl.
  - split; [discriminate | intros [[] _]].
  - destruct (fold_left_max_spec rest t) as (H1 & H2 & H3). split.
    + intros E. inversion E; subst. split.
      * destruct H3 as [->|H3]; auto.
      * constructor; assumption.
    + intros (Hin & Hall). f_equal. inversion Hall as [|? ? Ht Hrest]; subst.
      assert (Hle : (fold_left Z.max rest t <= m)%Z).
      { destruct H3 as [->|H3]; [exact Ht|].
        rewrite List.Forall_forall in Hrest. now apply Hrest. }
      destruct Hin as [->|Hin]; [lia|].
      rewrite List.Forall_forall in H2. specialize (H2 _ Hin). lia.
Qed.

Lemma series_max_nonempty (times : list Z) :
  times <> [] -> exists m, Py.series_max times = Some m.
Proof. destruct times; [congruence | simpl; eauto]. Qed.

Lemma filter_sublist_of {A} (f : A -> bool) (l : list A) :
  List.filter f l `sublist_of` l.
Proof.
  induction l as [|x l IH]; simpl; [constructor|].
  destruct (f x); now constructor.
Qed.

Lemma filter_idem {A} (f : A -> bool) (l : list A) :
  List.filter f (List.filter f l) = List.filter f l.
Proof.
  induction l as [|x l IH]; simpl; [reflexivity|].
  destruct (f x) eqn:E; simpl; rewrite ?E, IH; reflexivity.
Qed.

Lemma NoDup_map_filter {A B} (g : A -> B) (f : A -> bool) (l : list A) :
  NoDup (map g l) -> NoDup (map g (List.filter f l)).
Proof.
  induction l as [|x l IH]; simpl; [auto|].
  intros Hn. apply NoDup_cons in Hn as [Hx Hn].
  destruct (f x); simpl; [|auto].
  apply NoDup_cons. split; [|auto].
  intros Hin. apply Hx. apply list_elem_of_In in Hin. apply list_elem_of_In.
  apply in_map_iff in Hin as (y & <- & Hy). apply filter_In in Hy as [Hy _].
  apply in_map. exact Hy.
Qed.

(** Distinct integers of an interval are no more than the interval holds. *)
Lemma NoDup_interval_length (l : list Z) (lo : Z) (n : nat) :
  NoDup l -> Forall (fun t => (lo <= t < lo + Z.of_nat n)%Z) l ->
  (length l <= n)%nat.
Proof.
  intros Hn Hall.
  assert (Hincl : incl l (map (fun k => (lo + Z.of_nat k)%Z) (seq 0 n))).
  { intros t Ht. rewrite List.Forall_forall in Hall. specialize (Hall _ Ht).
    apply in_map_iff. exists (Z.to_nat (t - lo)). split; [lia|].
    apply in_seq. lia. }
  apply NoDup_ListNoDup in Hn.
  pose proof (NoDup_incl_length Hn Hincl) as Hlen.
  now rewrite length_map, length_seq in Hlen.
Qed.

(** [filter_last_12_months] keeps, in their order, exactly the rows of
    the 365 days up to the latest time of the frame, the latest row
    among them; filtering again changes nothing; and with one record
    per day it keeps at most 366 rows, the two ends of the 365 days
    both being kept.  An empty frame gives an empty frame. *)
Theorem filter_last_12_months_window (df : list weather_day) :
  (forall r, In r (filter_last_12_months df)
             <-> In r df
                 /\ exists m, Py.series_max (map time df) = Some m
                              /\ (m - 365 <= time r)%Z)
  /\ filter_last_12_months df `sublist_of` df
  /\ (df <> [] ->
      exists r, In r (filter_last_12_months df)
                /\ Py.series_max (map time df) = Some (time r))
  /\ filter_last_12_months (filter_last_12_months df) = filter_last_12_months df
  /\ filter_last_12_months [] = []
  /\ (NoDup (map time df) ->
      (length (filter_last_12_months df) <= 366)%nat
      /\ forall m, Py.series_max (map time df) = Some m ->
           (forall t, (m - 365 <= t <= m)%Z -> In t (map time df)) ->
           length (filter_last_12_months df) = 366%nat).
Proof.
  assert (Hmem : forall r, In r (filter_last_12_months df)
             <-> In r df
                 /\ exists m, Py.series_max (map time df) = Some m
                              /\ (m - 365 <= time r)%Z).
  { intros r. unfold filter_last_12_months.
    destruct (Py.series_max (map time df)) as [m|] eqn:Em.
    - rewrite filter_In, Z.leb_le. split.
      + intros [H1 H2]. split; [exact H1|]. eauto.
      + intros [H1 (m' & E & H2)]. inversion E; subst. auto.
    - rewrite filter_In. split; [intros [_ H]; discriminate|].
      intros [_ (m' & E & _)]. discriminate. }
  assert (Hlast : df <> [] ->
      exists r, In r (filter_last_12_months df)
                /\ Py.series_max (map time df) = Some (time r)).
  { intros Hne.
    destruct (series_max_nonempty (map time df)) as [m Em].
    { intros E. apply map_eq_nil in E. contradiction. }
    pose proof (proj1 (series_max_spec _ _) Em) as [Hin _].
    apply in_map_iff in Hin as (r & Hr & Hin).
    exists r. split; [|now rewrite Hr].
    apply Hmem. split; [exact Hin|]. exists m. split; [exact Em | lia]. }
  split; [exact Hmem|]. split.
  { unfold filter_last_12_months.
    destruct (Py.series_max (map time df)); apply filter_sublist_of. }
  split; [exact Hlast|]. split.
  { destruct df as [|r0 df0]; [reflexivity|].
    set (df := r0 :: df0) in *.
    destruct Hlast as (r & Hr & Em); [discriminate|].
    assert (Em' : Py.series_max (map time (filter_last_12_months df))
                  = Some (time r)).
    { apply series_max_spec. split; [now apply in_map|].
      apply List.Forall_forall. intros t Ht.
      apply in_map_iff in Ht as (r' & <- & Hr').
      apply Hmem in Hr' as [Hr' _].
      apply series_max_spec in Em as [_ Hall].
      rewrite List.Forall_forall in Hall. apply Hall. now apply in_map. }
    unfold filter_last_12_months at 1. rewrite Em'.
    unfold filter_last_12_months. rewrite Em. apply filter_idem. }
  split; [reflexivity|].
  intros Hn.
  assert (Hle : (length (filter_last_12_months df) <= 366)%nat).
  { unfold filter_last_12_months.
    destruct (Py.series_max (map time df)) as [m|] eqn:Em.
    - rewrite <- (length_map time).
      apply (NoDup_interval_length _ (m - 365)%Z 366).
      + now apply NoDup_map_filter.
      + apply List.Forall_forall. intros t Ht.
        apply in_map_iff in Ht as (r & <- & Hr).
        apply filter_In in Hr as [Hr Hc]. apply Z.leb_le in Hc.
        apply series_max_spec in Em as [_ Hall].
        rewrite List.Forall_forall in Hall.
        specialize (Hall (time r) (in_map _ _ _ Hr)). lia.
    - destruct df; [simpl; lia | discriminate]. }
  split; [exact Hle|].
  intros m Em Hfull. apply Nat.le_antisymm; [exact Hle|].
  rewrite <- (length_map time).
  set (days := map (fun k => (m - 365 + Z.of_nat k)%Z) (seq 0 366)).
  assert (Hd : List.NoDup days).
  { apply NoDup_ListNoDup. apply NoDup_fmap_2; [|apply NoDup_seq].
    intros a b E. lia. }
  assert (Hincl : incl days (map time (filter_last_12_months df))).
  { intros t Ht. apply in_map_iff in Ht as (k & <- & Hk). apply in_seq in Hk.
    destruct (proj1 (in_map_iff _ _ _) (Hfull (m - 365 + Z.of_nat k)%Z ltac:(lia)))
      as (r & Hr & Hin).
    apply in_map_iff. exists r. split; [exact Hr|].
    apply Hmem. split; [exact Hin|]. exists m. split; [exact Em | lia]. }
  pose proof (NoDup_incl_length Hd Hincl) as Hlen.
  unfold days in Hlen. now rewrite length_map, length_seq in Hlen.
Qed.

End LastYear.

(** ** Left joins

    The three joins of the pipelines have one shape: every left row is
    paired with each of its partners, or kept alone when it has none. *)
Section LeftJoins.
Context {L R : Type} (partners : L -> list R).

Lemma left_join_rows (left : list L) (q : L) (m : option R) :
  In (q, m) (flat_map (fun l => match partners l with
                                | [] => [(l, None)]
                                | cs => map (fun c => (l, Some c)) cs
                                end) left)
  <-> In q left /\ match m with
                   | Some c => In c (partners q)
                   | None => partners q = []
                   end.
Proof.
  rewrite in_flat_map. split.
  - intros (p & Hp & Hin). destruct (partners p) as [|c0 cs] eqn:E.
    + destruct Hin as [H|[]]. inversion H; subst. rewrite E. auto.
    + apply in_map_iff in Hin as (c & H & Hc). inversion H; subst.
      rewrite E. auto.
  - intros [Hq Hm]. exists q. split; [exact Hq|].
    destruct (partners q) as [|c0 cs] eqn:E.
    + destruct m as [c|]; [destruct Hm | now left].
    + destruct m as [c|]; [|discriminate]. apply in_map_iff. eauto.
Qed.

Lemma left_join_length_ge (left : list L) :
  (length left
   <= length (flat_map (fun l => match partners l with
                                 | [] => [(l, None)]
                                 | cs => map (fun c => (l, Some c)) cs
                                 end) left))%nat.
Proof.
  induction left as [|l left IH]; [reflexivity|].
  cbn [flat_map length]. rewrite length_app.
  destruct (partners l); [cbn [length] | rewrite length_map; cbn [length]]; lia.
Qed.

Lemma left_join_length_all (left : list L) (n : nat) :
  (0 < n)%nat -> (forall l, In l left -> length (partners l) = n) ->
  length (flat_map (fun l => match partners l with
                             | [] => [(l, None)]
                             | cs => map (fun c => (l, Some c)) cs
                             end) left)
  = (length left * n)%nat.
Proof.
  intros Hn Hall. induction left as [|l left IH]; [reflexivity|].
  cbn [flat_map length]. rewrite length_app, IH by (intros; apply Hall; now right).
  specialize (Hall l (or_introl eq_refl)).
  destruct (partners l) as [|c cs].
  - cbn [length] in Hall. lia.
  - rewrite length_map, Hall. lia.
Qed.

End LeftJoins.

(** ** [data_preparation.py]: the joined frame *)
Section JoinedFrame.
Import DataPreparation.

(** In the frame that [spatial_temporal_join] returns, every incident
    occurs with every record of the weather frame as its nearest
    weather, whatever the day of the record; the columns merged on the
    day hold a record of the incident's own day, or nulls; and the frame
    has at least one row per pair of an incident and a weather record. *)
Theorem spatial_temporal_join_pairs_every_record {P : Type}
    (index : Geo.index_order incident weather_rolled)
    (intersects : Qc * Qc -> P -> bool)
    (weather_df : list weather_rolled) (incidents_df : list incident)
    (landcover_gdf : list P) :
  let final_df :=
    spatial_temporal_join index intersects weather_df incidents_df landcover_gdf in
  (forall p w, In p incidents_df -> In w weather_df ->
     exists cover same_day, In (((p, Some w), cover), same_day) final_df)
  /\ (forall row w, In (row, Some w) final_df ->
        In w weather_df
        /\ time (day w) = floor_day (timestamp (fst (fst row))))
  /\ (forall row, In (row, None) final_df ->
        forall w, In w weather_df ->
                  time (day w) <> floor_day (timestamp (fst (fst row))))
  /\ (length incidents_df * length weather_df <= length final_df)%nat.
Proof.
  intros final_df. subst final_df. unfold spatial_temporal_join.
  set (incidents_weather := join_nearest_weather index incidents_df weather_df).
  set (incidents_landcover := Geo.sjoin _ incidents_weather landcover_gdf).
  split; [|split; [|split]].
  - intros p w Hp Hw.
    assert (H1 : In (p, Some w) incidents_weather).
    { unfold incidents_weather, join_nearest_weather.
      apply sjoin_nearest_rows. split; [exact Hp|].
      apply (Permutation_in _ (Permutation_sym (data_preparation_nearest_all index p _))).
      exact Hw. }
    assert (H2 : exists cover, In ((p, Some w), cover) incidents_landcover).
    { unfold incidents_landcover, Geo.sjoin.
      destruct (List.filter (intersects (incident_xy p)) landcover_gdf)
        as [|c cs] eqn:E.
      - exists None. apply left_join_rows. cbn [fst]. auto.
      - exists (Some c). apply left_join_rows. cbn [fst]. rewrite E.
        split; [exact H1 | now left]. }
    destruct H2 as [cover H2].
    unfold Py.merge_left.
    set (f := fun l : incident * option weather_rolled * option P =>
                List.filter (fun r => (time (day r) =? floor_day (timestamp (fst (fst l))))%Z)
                            weather_df).
    destruct (f (p, Some w, cover)) as [|c cs] eqn:E.
    + exists cover, None. apply (left_join_rows f). auto.
    + exists cover, (Some c). apply (left_join_rows f). rewrite E.
      split; [exact H2 | now left].
  - intros row w Hin. unfold Py.merge_left in Hin.
    apply (left_join_rows
             (fun l : incident * option weather_rolled * option P =>
                List.filter (fun r => (time (day r) =? floor_day (timestamp (fst (fst l))))%Z)
                            weather_df)) in Hin as [_ Hin].
    apply filter_In in Hin as [Hin E]. apply Z.eqb_eq in E. auto.
  - intros row Hin w Hw E. unfold Py.merge_left in Hin.
    apply (left_join_rows
             (fun l : incident * option weather_rolled * option P =>
                List.filter (fun r => (time (day r) =? floor_day (timestamp (fst (fst l))))%Z)
                            weather_df)) in Hin as [_ Hin].
    assert (Hf : In w (List.filter
                (fun r => (time (day r) =? floor_day (timestamp (fst (fst row))))%Z)
                weather_df)).
    { apply filter_In. split; [exact Hw | now apply Z.eqb_eq]. }
    rewrite Hin in Hf. destruct Hf.
  - etransitivity; [|apply left_join_length_ge].
    unfold incidents_landcover, Geo.sjoin.
    etransitivity; [|apply left_join_length_ge].
    unfold incidents_weather, join_nearest_weather, Geo.sjoin_nearest.
    destruct weather_df as [|w0 ws0]; [simpl; lia|].
    rewrite (left_join_length_all _ _ (length (w0 :: ws0))); [lia | simpl; lia|].
    intros l _. apply Permutation_length, data_preparation_nearest_all.
Qed.

End JoinedFrame.

(** ** Loading the inputs *)
Section Loaders.

(** The incident loader of [data_preparation.py] reads a file only when
    a path is given and exists, and then as the loader of [prep_data.py]
    does; in every other case, a path to a missing file included, it
    returns the generated sample frame and raises nothing. *)
Theorem load_incidents_data_falls_back {T : Type} (fs : Py.files T) (sample : T)
    (path : string) :
  DataPreparation.load_incidents_data fs sample None = inr sample
  /\ DataPreparation.load_incidents_data fs sample (Some "") = inr sample
  /\ (Py.exists_ fs path = false ->
      DataPreparation.load_incidents_data fs sample (Some path) = inr sample)
  /\ (Py.exists_ fs path = true -> path <> "" ->
      DataPreparation.load_incidents_data fs sample (Some path)
      = Prep.load_incidents fs path)
  /\ (Py.endswith path ".json" = false -> Py.endswith path ".csv" = false ->
      Prep.load_incidents fs path
      = inl (Py.ValueError "Incidents file must be .json or .csv")).
Proof.
  unfold DataPreparation.load_incidents_data, Prep.load_incidents.
  split; [reflexivity|]. split; [reflexivity|]. split; [|split].
  - intros ->. now rewrite andb_false_r.
  - intros -> Hne. apply String.eqb_neq in Hne. rewrite Hne. reflexivity.
  - intros -> ->. reflexivity.
Qed.

Lemma for_each_inr {A B} (f : A -> Py.result B) (l : list A) (ys : list B) :
  Py.for_each f l = inr ys <-> Forall2 (fun x y => f x = inr y) l ys.
Proof.
  revert ys. induction l as [|x l IH]; intros ys; simpl.
  - split.
    + intros E. inversion E. constructor.
    + intros H. inversion H. reflexivity.
  - destruct (f x) as [e|y] eqn:Ex; simpl.
    + split; [discriminate|]. intros H. inversion H; subst. congruence.
    + destruct (Py.for_each f l) as [e|ys'] eqn:El; simpl.
      * split; [discriminate|]. intros H. inversion H as [|? y' ? ys'' Hy Hrest]; subst.
        apply IH in Hrest. discriminate.
      * split.
        -- intros E. inversion E; subst. constructor; [exact Ex|]. now apply IH.
        -- intros H. inversion H as [|? y' ? ys'' Hy Hrest]; subst.
           apply IH in Hrest. inversion Hrest; subst.
           rewrite Ex in Hy. inversion Hy; subst. reflexivity.
Qed.

(** [load_weather_data] reads the [.csv] files of the directory, and
    only those, in the order of the listing, and returns their rows in
    that order; it raises [ValueError] when the directory holds no
    [.csv] file, and whatever the first failing read raises. *)
Theorem load_weather_data_concatenates {A : Type}
    (listdir : string -> Py.result (list string))
    (read_csv : string -> Py.result (list A)) (weather_dir : string)
    (names : list string) :
  listdir weather_dir = inr names ->
  (List.filter (fun fname => Py.endswith fname ".csv") names = [] ->
   Prep.load_weather_data listdir read_csv weather_dir
   = inl (Py.ValueError "No objects to concatenate"))
  /\ (forall all_weather,
        Prep.load_weather_data listdir read_csv weather_dir = inr all_weather
        <-> List.filter (fun fname => Py.endswith fname ".csv") names <> []
            /\ exists dfs,
                 Forall2 (fun fname df =>
                            read_csv (Py.path_join weather_dir fname) = inr df)
                         (List.filter (fun fname => Py.endswith fname ".csv") names)
                         dfs
                 /\ all_weather = concat dfs)
  /\ (forall read_csv',
        (forall fname, Py.endswith fname ".csv" = true ->
                       read_csv' (Py.path_join weather_dir fname)
                       = read_csv (Py.path_join weather_dir fname)) ->
        Prep.load_weather_data listdir read_csv' weather_dir
        = Prep.load_weather_data listdir read_csv weather_dir).
Proof.
  intros Hl. unfold Prep.load_weather_data. rewrite Hl. cbn [Py.bind].
  set (csvs := List.filter (fun fname => Py.endswith fname ".csv") names).
  split; [|split].
  - intros ->. reflexivity.
  - intros all_weather.
    destruct (Py.for_each (fun fname => read_csv (Py.path_join weather_dir fname)) csvs)
      as [e|dfs] eqn:E; cbn [Py.bind].
    + split; [discriminate|]. intros (_ & dfs & Hd & _).
      apply for_each_inr in Hd. congruence.
    + pose proof (proj1 (for_each_inr _ _ _) E) as Hd.
      destruct dfs as [|d dfs'].
      * split; [discriminate|]. intros (Hne & _). inversion Hd as [E0|]; subst.
        symmetry in E0. contradiction.
      * split.
        -- intros Eq. inversion Eq; subst. split.
           ++ intros Hc. rewrite Hc in Hd. inversion Hd.
           ++ eauto.
        -- intros (_ & dfs2 & Hd2 & ->). apply for_each_inr in Hd2.
           rewrite E in Hd2. inversion Hd2; subst. reflexivity.
  - intros read_csv' Hsame.
    assert (E : Py.for_each (fun fname => read_csv' (Py.path_join weather_dir fname)) csvs
                = Py.for_each (fun fname => read_csv (Py.path_join weather_dir fname)) csvs).
    { assert (Hc : forall f, In f csvs -> Py.endswith f ".csv" = true).
      { intros f Hf. apply filter_In in Hf. tauto. }
      induction csvs as [|f csvs IH]; [reflexivity|].
      cbn [Py.for_each]. rewrite Hsame by (apply Hc; now left).
      rewrite IH by (intros; apply Hc; now right). reflexivity. }
    now rewrite E.
Qed.

Lemma feature_cols_fold (cols acc : list string) :
  NoDup acc -> ~ "geometry" ∈ acc ->
  let out := fold_left (fun feature_cols col =>
               if negb (bool_decide (col ∈ feature_cols))
                  && negb (String.eqb col "geometry")
               then feature_cols ++ [col] else feature_cols) cols acc in
  NoDup out /\ ~ "geometry" ∈ out
  /\ (exists extra, out = acc ++ extra)
  /\ (forall c, c ∈ out <-> c ∈ acc \/ (c ∈ cols /\ c <> "geometry")).
Proof.
  revert acc. induction cols as [|col cols IH]; intros acc Hn Hg; cbn [fold_left].
  - split; [exact Hn|]. split; [exact Hg|]. split; [exists []; now rewrite app_nil_r|].
    intros c. rewrite elem_of_nil. tauto.
  - destruct (bool_decide (col ∈ acc)) eqn:Hin; cbn [negb andb].
    + apply bool_decide_eq_true in Hin.
      destruct (IH acc Hn Hg) as (H1 & H2 & H3 & H4).
      split; [exact H1|]. split; [exact H2|]. split; [exact H3|].
      intros c. rewrite H4, elem_of_cons. split; [tauto|].
      intros [H|[[->|H] Hc]]; auto.
    + apply bool_decide_eq_false in Hin.
      destruct (String.eqb col "geometry") eqn:Hgeo; cbn [negb].
      * apply String.eqb_eq in Hgeo. subst col.
        destruct (IH acc Hn Hg) as (H1 & H2 & H3 & H4).
        split; [exact H1|]. split; [exact H2|]. split; [exact H3|].
        intros c. rewrite H4, elem_of_cons. split; [tauto|].
        intros [H|[[->|H] Hc]]; auto. contradiction.
      * apply String.eqb_neq in Hgeo.
        destruct (IH (acc ++ [col])) as (H1 & H2 & (extra & H3) & H4).
        { apply NoDup_app. split; [exact Hn|]. split; [|apply NoDup_singleton].
          intros x Hx Hx'. apply list_elem_of_singleton in Hx'. subst. contradiction. }
        { rewrite elem_of_app, list_elem_of_singleton. intros [H|H]; [contradiction|].
          congruence. }
        split; [exact H1|]. split; [exact H2|].
        split; [exists (col :: extra); rewrite H3, <- app_assoc; reflexivity|].
        intros c. rewrite H4, elem_of_app, list_elem_of_singleton, elem_of_cons.
        split; [|tauto]. intros [[H| ->]|[H Hc]]; auto.
Qed.

(** The columns that [preprocess] selects are the twelve base columns in
    their order, then the land-cover columns that are new, each once,
    whatever the land-cover frame repeats; the geometry column is never
    among them. *)
Theorem preprocess_feature_cols_distinct (landcover_columns : list string) :
  NoDup (Prep.feature_cols landcover_columns)
  /\ ~ "geometry" ∈ Prep.feature_cols landcover_columns
  /\ (exists extra,
        Prep.feature_cols landcover_columns = Prep.base_feature_cols ++ extra)
  /\ (forall c, c ∈ Prep.feature_cols landcover_columns
                <-> c ∈ Prep.base_feature_cols
                    \/ (c ∈ landcover_columns /\ c <> "geometry")).
Proof.
  unfold Prep.feature_cols. apply feature_cols_fold.
  - unfold Prep.base_feature_cols. apply (bool_decide_unpack _). vm_compute. exact I.
  - unfold Prep.base_feature_cols. apply (bool_decide_unpack _). vm_compute. exact I.
Qed.

End Loaders.

(** A directory with two [.csv] files and a text file: the rows of the
    two files, in the order of the listing. *)
Lemma load_weather_data_concatenates_witness :
  (fun _ : string => inr ["a.csv"; "notes.txt"; "b.csv"] : Py.result (list string))
    "weather_csvs"
  = inr ["a.csv"; "notes.txt"; "b.csv"]
  /\ Prep.load_weather_data
       (fun _ => inr ["a.csv"; "notes.txt"; "b.csv"])
       (fun path => if String.eqb path "weather_csvs/a.csv" then inr [1%Z; 2%Z]
                    else if String.eqb path "weather_csvs/b.csv" then inr [3%Z]
                    else inl (Py.OSError "No such file or directory"))
       "weather_csvs"
     = inr [1%Z; 2%Z; 3%Z].
Proof.
  split; [reflexivity|].
  apply (proj1 (proj2 (load_weather_data_concatenates
                         (fun _ => inr ["a.csv"; "notes.txt"; "b.csv"])
                         (fun path => if String.eqb path "weather_csvs/a.csv"
                                      then inr [1%Z; 2%Z]
                                      else if String.eqb path "weather_csvs/b.csv"
                                           then inr [3%Z]
                                           else inl (Py.OSError "No such file or directory"))
                         "weather_csvs" ["a.csv"; "notes.txt"; "b.csv"] eq_refl))).
  split; [discriminate|].
  exists [[1%Z; 2%Z]; [3%Z]]. split; [|reflexivity].
  repeat constructor.
Defined.

(** ** [prep_data.preprocess]: the function as a whole *)
Section PreprocessWhole.
Import Frames.

(** [preprocess] never returns its features: whatever the three frames,
    it raises.  Either a column that lines 48-62 read is missing, or the
    nearest-point join of line 62 refuses its frames, or that join
    returns a frame with a column [index_right], which the polygon join
    of line 64 refuses; lines 65-85 are never reached. *)
Theorem preprocess_never_returns (lib : prep_library) (h : heap)
    (weather incidents landcover : positive) :
  preprocess lib weather incidents landcover h = None
  /\ forall u h1,
       preprocess_timestamps (joins lib) weather incidents h = Some (u, h1) ->
       preprocess_joins (joins lib) weather incidents landcover h1 = None
       /\ forall g h2,
            preprocess_nearest (joins lib) weather incidents h1 = Some (g, h2) ->
            sjoin (joins lib) g landcover h2 = None.
Proof.
  split.
  - unfold preprocess. unfold bind at 1.
    destruct (preprocess_timestamps (joins lib) weather incidents h) as [[u h1]|];
      [|reflexivity].
    unfold bind at 1. now rewrite preprocess_joins_raises.
  - intros u h1 _. split; [apply preprocess_joins_raises|].
    intros g h2 E. unfold preprocess_nearest in E.
    do 7 (apply bind_Some in E as (? & ? & _ & E)).
    apply sjoin_nearest_Some in E as (f & Hf & Hs).
    exact (sjoin_refuses_index_right (joins lib) g landcover h2 f Hf Hs).
Qed.

End PreprocessWhole.

(** ** Serving: loading, the endpoints, and a successful prediction *)
Section ServingEndpoints.
Context {F : Type} `{FloatOps F}.

Lemma prediction_error_is_not_model_not_loaded (s : string) :
  ("Prediction error: " ++ s)%string <> "Model not loaded".
Proof. discriminate. Qed.

(** [load_models] returns exactly when the model, the feature list and
    the threshold can be loaded; the variables then hold the three
    artifacts and the scaler, or no scaler when that load fails, and
    [predict_risk] no longer answers "Model not loaded".  Otherwise it
    raises what the first failing load raised, keeps what it had
    assigned before, and leaves the scaler variable as it was. *)
Theorem load_models_required_artifacts (files : Serving.model_files)
    (g : Serving.globals) :
  (snd (Serving.load_models files g) = None
   <-> exists m fl th,
         Serving.model_file files = inr m
         /\ Serving.feature_list_file files = inr fl
         /\ Serving.threshold_file files = inr th)
  /\ (forall m fl th,
        Serving.model_file files = inr m ->
        Serving.feature_list_file files = inr fl ->
        Serving.threshold_file files = inr th ->
        fst (Serving.load_models files g)
        = {| Serving.model := Some m;
             Serving.feature_list := Some fl;
             Serving.g_threshold := Some th;
             Serving.scaler := match Serving.scaler_file files with
                               | inr sc => Some sc
                               | inl _ => None
                               end |})
  /\ (forall e,
        snd (Serving.load_models files g) = Some e ->
        Serving.scaler (fst (Serving.load_models files g)) = Serving.scaler g
        /\ (Serving.model_file files = inl e
            /\ fst (Serving.load_models files g) = g
            \/ (exists m, Serving.model_file files = inr m
                          /\ Serving.model (fst (Serving.load_models files g)) = Some m)
               /\ (Serving.feature_list_file files = inl e
                   \/ Serving.threshold_file files = inl e)))
  /\ (snd (Serving.load_models files g) = None ->
      forall request,
        Serving.predict_risk (fst (Serving.load_models files g)) request
        <> inl (Serving.HTTPException 500 "Model not loaded")).
Proof.
  assert (Hp : forall (m : list F -> Serving.result Qc) fl th sc request,
            Serving.predict_risk
              {| Serving.model := Some m; Serving.feature_list := fl;
                 Serving.g_threshold := th; Serving.scaler := sc |} request
            <> inl (Serving.HTTPException 500 "Model not loaded")).
  { intros m fl th sc request. unfold Serving.predict_risk. cbn [Serving.model].
    unfold Serving.except_Exception.
    match goal with |- context [Serving.bind ?a ?b] => destruct (Serving.bind a b) end;
      intros E; inversion E as [Hd];
      try now apply prediction_error_is_not_model_not_loaded in Hd. }
  unfold Serving.load_models.
  destruct (Serving.model_file files) as [e1|m] eqn:E1.
  { cbn [fst snd]. split; [|split; [|split]].
    - split; [discriminate|]. intros (? & ? & ? & ? & _). discriminate.
    - intros ? ? ? ?. discriminate.
    - intros e Ee. inversion Ee; subst. auto.
    - discriminate. }
  destruct (Serving.feature_list_file files) as [e2|fl] eqn:E2.
  { cbn [fst snd Serving.scaler Serving.model]. split; [|split; [|split]].
    - split; [discriminate|]. intros (? & ? & ? & _ & ? & _). discriminate.
    - intros ? ? ? _ ?. discriminate.
    - intros e Ee. inversion Ee; subst. split; [reflexivity|]. right. eauto.
    - discriminate. }
  destruct (Serving.threshold_file files) as [e3|th] eqn:E3.
  { cbn [fst snd Serving.scaler Serving.model]. split; [|split; [|split]].
    - split; [discriminate|]. intros (? & ? & ? & _ & _ & ?). discriminate.
    - intros ? ? ? _ _ ?. discriminate.
    - intros e Ee. inversion Ee; subst. split; [reflexivity|]. right. eauto.
    - discriminate. }
  destruct (Serving.scaler_file files) as [e4|sc] eqn:E4;
    cbn [fst snd Serving.scaler Serving.model Serving.feature_list Serving.g_threshold].
  - split; [|split; [|split]].
    + split; [eauto 10 | reflexivity].
    + intros ? ? ? Em Ef Et. inversion Em; inversion Ef; inversion Et; subst.
      reflexivity.
    + discriminate.
    + intros _ request. apply Hp.
  - split; [|split; [|split]].
    + split; [eauto 10 | reflexivity].
    + intros ? ? ? Em Ef Et. inversion Em; inversion Ef; inversion Et; subst.
      reflexivity.
    + discriminate.
    + intros _ request. apply Hp.
Qed.

(** "Model not loaded" is the answer of [predict_risk] and of
    [model_info] exactly when no model is loaded; the two health
    endpoints never raise and report the status "healthy" also then,
    with [model_loaded] false. *)
Theorem model_not_loaded_answers (g : Serving.globals)
    (request : Serving.PredictionRequest)
    (type_name : (list F -> Serving.result Qc) -> string) :
  (Serving.predict_risk g request
   = inl (Serving.HTTPException 500 "Model not loaded")
   <-> Serving.model g = None)
  /\ (Serving.model_info type_name g
      = inl (Serving.HTTPException 500 "Model not loaded")
      <-> Serving.model g = None)
  /\ (forall e, Serving.model_info type_name g = inl e -> Serving.model g = None)
  /\ (Serving.r_model_loaded (Serving.root g) = false <-> Serving.model g = None)
  /\ (Serving.h_model_loaded (Serving.health_check g) = false
      <-> Serving.model g = None)
  /\ Serving.r_status (Serving.root g) = "healthy"
  /\ Serving.h_status (Serving.health_check g) = "healthy"
  /\ (Serving.feature_list g = None ->
      Serving.h_features_count (Serving.health_check g) = 0%nat).
Proof.
  unfold Serving.predict_risk, Serving.model_info, Serving.root, Serving.health_check.
  cbn [Serving.r_model_loaded Serving.h_model_loaded Serving.r_status
       Serving.h_status Serving.h_features_count].
  destruct (Serving.model g) as [m|].
  - repeat split; try discriminate; try reflexivity.
    + unfold Serving.except_Exception.
      match goal with |- context [Serving.bind ?a ?b] => destruct (Serving.bind a b) end;
        intros E; inversion E as [Hd];
        try now apply prediction_error_is_not_model_not_loaded in Hd.
    + intros ->. reflexivity.
  - repeat split; try reflexivity. intros ->. reflexivity.
Qed.

(** With a model loaded and a date that parses, [predict_risk] gives the
    features, through the scaler when there is one, to the model, and
    answers with the model's score, the tier of that score, the stored
    threshold and the number of stored feature names. *)
Theorem predict_risk_returns_tier_of_score (g : Serving.globals)
    (request : Serving.PredictionRequest)
    (m : list F -> Serving.result Qc) (d : Dates.date)
    (scaled : list F) (score threshold : Qc) (feature_list : list string) :
  Serving.model g = Some m ->
  Dates.strptime_ymd (Serving.date request) = Some d ->
  match Serving.scaler g with
  | Some sc => sc (FeatureSpec.feature_vector request (Dates.weekday d) (Dates.month d))
  | None => inr (FeatureSpec.feature_vector request (Dates.weekday d) (Dates.month d))
  end = inr scaled ->
  m scaled = inr score ->
  0 <= score -> score <= 1 ->
  Serving.feature_list g = Some feature_list ->
  Serving.g_threshold g = Some threshold ->
  Serving.predict_risk g request
  = inr {| Serving.risk_score := score;
           Serving.risk_level := Risk.get_risk_level score;
           Serving.threshold := threshold;
           Serving.features_used := length feature_list |}.
Proof.
  intros Hm Hd Hsc Hscore H0 H1 Hfl Hth.
  unfold Serving.predict_risk. rewrite Hm.
  rewrite (serving_prepare_features_ok request d Hd).
  cbn [Serving.bind]. rewrite Hsc. cbn [Serving.bind]. rewrite Hscore.
  cbn [Serving.bind]. unfold Serving.make_response. rewrite Hfl, Hth.
  apply Qcleb_le in H0, H1. rewrite H0, H1. reflexivity.
Qed.

End ServingEndpoints.

(** The request of the API test script against the sample bundle. *)
Lemma predict_risk_returns_tier_of_score_witness :
  Serving.model ServingSamples.loaded = Some (fun _ => inr (dec 1 2))
  /\ Dates.strptime_ymd (Serving.date ServingSamples.request0)
     = Some {| Dates.year := 2024; Dates.month := 6; Dates.day := 15 |}
  /\ Serving.predict_risk ServingSamples.loaded ServingSamples.request0
     = inr {| Serving.risk_score := dec 1 2;
              Serving.risk_level := Risk.MEDIUM;
              Serving.threshold := dec 4 10;
              Serving.features_used := 17 |}.
Proof.
  assert (Hd : Dates.strptime_ymd (Serving.date ServingSamples.request0)
               = Some {| Dates.year := 2024; Dates.month := 6; Dates.day := 15 |})
    by (vm_compute; reflexivity).
  split; [reflexivity|]. split; [exact Hd|].
  change Risk.MEDIUM with (Risk.get_risk_level (dec 1 2)).
  change 17%nat with (length (@Training.feature_cols)).
  apply (predict_risk_returns_tier_of_score ServingSamples.loaded
           ServingSamples.request0 (fun _ => inr (dec 1 2)) _
           (FeatureSpec.feature_vector ServingSamples.request0 5 6)
           (dec 1 2) (dec 4 10) Training.feature_cols eq_refl Hd).
  - reflexivity.
  - reflexivity.
  - qc_order.
  - qc_order.
  - reflexivity.
  - reflexivity.
Defined.

(** A failing prediction on the sample bundle leaves as a 500. *)
Lemma predict_risk_errors_are_500_witness :
  Serving.predict_risk ServingSamples.loaded ServingSamples.bad_date_request
  = inl (Serving.HTTPException 500
           "Prediction error: 400: Invalid date format. Use YYYY-MM-DD")
  /\ exists detail,
       Serving.HTTPException 500
         "Prediction error: 400: Invalid date format. Use YYYY-MM-DD"
       = Serving.HTTPException 500 detail.
Proof.
  assert (E : Serving.predict_risk ServingSamples.loaded ServingSamples.bad_date_request
              = inl (Serving.HTTPException 500
                       "Prediction error: 400: Invalid date format. Use YYYY-MM-DD"))
    by (vm_compute; reflexivity).
  split; [exact E|].
  exact (predict_risk_errors_are_500 ServingSamples.loaded
           ServingSamples.bad_date_request _ E).
Defined.

(** ** Dates that the service accepts *)
Section DateFacts.
Import Dates.

Lemma digit_digit_char (n : Z) :
  (0 <= n <= 9)%Z -> digit (digit_char n) = Some n.
Proof.
  intros Hn. rewrite <- (Z2Nat.id n) by lia.
  assert (Hk : (Z.to_nat n < 10)%nat) by lia.
  revert Hk. generalize (Z.to_nat n). intros k Hk.
  do 10 (destruct k as [|k]; [reflexivity|]). lia.
Qed.

Lemma parse_Y_isoformat (y : Z) (rest : list ascii) :
  (0 <= y <= 9999)%Z ->
  parse_Y (digit_char (y / 1000 mod 10) :: digit_char (y / 100 mod 10)
           :: digit_char (y / 10 mod 10) :: digit_char (y mod 10) :: rest)
  = Some (y, rest).
Proof.
  intros Hy. unfold parse_Y.
  rewrite !digit_digit_char by (Z.div_mod_to_equations; lia).
  f_equal. f_equal. Z.div_mod_to_equations. lia.
Qed.

Lemma parse_m_isoformat (m : Z) (rest : list ascii) :
  (1 <= m <= 12)%Z ->
  parse_m (digit_char (m / 10 mod 10) :: digit_char (m mod 10) :: "-"%char :: rest)
  = Some (m, "-"%char :: rest).
Proof.
  intros Hm.
  assert (Hc : (m = 1 \/ m = 2 \/ m = 3 \/ m = 4 \/ m = 5 \/ m = 6 \/ m = 7
               \/ m = 8 \/ m = 9 \/ m = 10 \/ m = 11 \/ m = 12)%Z) by lia.
  repeat (destruct Hc as [->|Hc]; [reflexivity|]). subst. reflexivity.
Qed.

Lemma parse_d_isoformat (d : Z) :
  (1 <= d <= 31)%Z ->
  parse_d [digit_char (d / 10 mod 10); digit_char (d mod 10)] = Some (d, []).
Proof.
  intros Hd.
  assert (Hc : (d = 1 \/ d = 2 \/ d = 3 \/ d = 4 \/ d = 5 \/ d = 6 \/ d = 7
               \/ d = 8 \/ d = 9 \/ d = 10 \/ d = 11 \/ d = 12 \/ d = 13
               \/ d = 14 \/ d = 15 \/ d = 16 \/ d = 17 \/ d = 18 \/ d = 19
               \/ d = 20 \/ d = 21 \/ d = 22 \/ d = 23 \/ d = 24 \/ d = 25
               \/ d = 26 \/ d = 27 \/ d = 28 \/ d = 29 \/ d = 30 \/ d = 31)%Z) by lia.
  repeat (destruct Hc as [->|Hc]; [reflexivity|]). subst. reflexivity.
Qed.

Lemma days_in_month_le (y m : Z) : (28 <= days_in_month y m <= 31)%Z.
Proof.
  unfold days_in_month.
  destruct (m =? 2)%Z; [destruct (is_leap y); lia|].
  destruct ((m =? 4) || (m =? 6) || (m =? 9) || (m =? 11))%Z; lia.
Qed.

Lemma valid_bounds (d : date) :
  valid d = true ->
  (1 <= year d <= 9999 /\ 1 <= month d <= 12
   /\ 1 <= day d <= days_in_month (year d) (month d))%Z.
Proof.
  unfold valid. rewrite !andb_true_iff, !Z.leb_le. tauto.
Qed.

Lemma strptime_isoformat (d : date) :
  valid d = true -> strptime_ymd (isoformat d) = Some d.
Proof.
  intros Hv. pose proof (valid_bounds d Hv) as (Hy & Hm & Hd).
  pose proof (days_in_month_le (year d) (month d)) as Hdm.
  unfold strptime_ymd, isoformat.
  rewrite list_ascii_of_string_of_list_ascii.
  rewrite parse_Y_isoformat by lia.
  cbv beta iota delta [mbind option_bind expect_hyphen Ascii.eqb Bool.eqb].
  rewrite parse_m_isoformat by lia.
  cbv beta iota delta [mbind option_bind expect_hyphen Ascii.eqb Bool.eqb].
  rewrite parse_d_isoformat by lia.
  cbv beta iota.
  destruct d as [y m dd]. cbn [year month day] in *. rewrite Hv. reflexivity.
Qed.

Lemma digit_char_is_ascii (n : Z) :
  (0 <= n <= 9)%Z -> (N_of_ascii (digit_char n) <? 128)%N = true.
Proof.
  intros Hn. rewrite <- (Z2Nat.id n) by lia.
  assert (Hk : (Z.to_nat n < 10)%nat) by lia.
  revert Hk. generalize (Z.to_nat n). intros k Hk.
  do 10 (destruct k as [|k]; [reflexivity|]). lia.
Qed.

Lemma isoformat_is_ascii (d : date) : is_ascii (isoformat d) = true.
Proof.
  unfold is_ascii, isoformat. rewrite list_ascii_of_string_of_list_ascii.
  cbn [forallb].
  rewrite !digit_char_is_ascii by (Z.div_mod_to_equations; lia).
  reflexivity.
Qed.

Lemma strptime_ymd_valid (s : string) (d : date) :
  strptime_ymd s = Some d -> valid d = true.
Proof.
  unfold strptime_ymd. cbv beta iota delta [mbind option_bind].
  destruct (parse_Y (list_ascii_of_string s)) as [[y s1]|]; [|discriminate].
  destruct (expect_hyphen s1) as [s2|]; [|discriminate].
  destruct (parse_m s2) as [[m s3]|]; [|discriminate].
  destruct (expect_hyphen s3) as [s4|]; [|discriminate].
  destruct (parse_d s4) as [[dd [|c s5]]|]; [|discriminate|discriminate].
  destruct (valid {| year := y; month := m; day := dd |}) eqn:Hv; [|discriminate].
  intros E. inversion E; subst. exact Hv.
Qed.

End DateFacts.

Section DateServing.
Context {F : Type} `{FloatOps F}.

(** [prepare_features] accepts every date of the calendar written as
    [YYYY-MM-DD] with leading zeros, a string of ASCII characters, and
    builds the feature vector from its week day and month.  For a date
    string of ASCII characters: if it is accepted at all, it is a date
    of the calendar (so [2023-02-29] and a month [13] are refused), with
    a week day from 0 to 6 and a month from 1 to 12; and if [strptime]
    refuses it, the answer is the 400 of the source. *)
Theorem prepare_features_accepts_iso_dates (request : Serving.PredictionRequest) :
  (forall d, Dates.valid d = true ->
             Serving.date request = Dates.isoformat d ->
             Dates.is_ascii (Serving.date request) = true
             /\ Serving.prepare_features request
                = inr (FeatureSpec.feature_vector request
                         (Dates.weekday d) (Dates.month d)))
  /\ (Dates.is_ascii (Serving.date request) = true ->
      forall features, Serving.prepare_features request = inr features ->
        exists d, Dates.strptime_ymd (Serving.date request) = Some d
                  /\ Dates.valid d = true
                  /\ (0 <= Dates.weekday d <= 6)%Z
                  /\ (1 <= Dates.month d <= 12)%Z
                  /\ features = FeatureSpec.feature_vector request
                                  (Dates.weekday d) (Dates.month d)
                  /\ length features = 17%nat)
  /\ (Dates.is_ascii (Serving.date request) = true ->
      Dates.strptime_ymd (Serving.date request) = None ->
      Serving.prepare_features request
      = inl (Serving.HTTPException 400 "Invalid date format. Use YYYY-MM-DD")).
Proof.
  split; [|split].
  - intros d Hv Hd. split.
    + rewrite Hd. apply isoformat_is_ascii.
    + apply serving_prepare_features_ok.
      rewrite Hd. now apply strptime_isoformat.
  - intros _ features E.
    destruct (Dates.strptime_ymd (Serving.date request)) as [d|] eqn:Hd.
    + rewrite (serving_prepare_features_ok request d Hd) in E.
      inversion E; subst. exists d. split; [reflexivity|].
      pose proof (strptime_ymd_valid _ _ Hd) as Hv.
      split; [exact Hv|]. split.
      * unfold Dates.weekday. Z.div_mod_to_equations. lia.
      * split; [apply valid_bounds in Hv; lia|]. split; reflexivity.
    + rewrite (serving_prepare_features_invalid_date request Hd) in E. discriminate.
  - intros _. apply serving_prepare_features_invalid_date.
Qed.

End DateServing.

(** ** Risk tiers are monotone *)

(** A higher score never gets a lower tier, and the tier changes only at
    0.3, 0.6 and 0.8: scores on the same side of the three bounds get
    the same tier. *)
Theorem get_risk_level_monotone (s1 s2 : Qc) :
  s1 <= s2 ->
  (Risk.rank (Risk.get_risk_level s1) <= Risk.rank (Risk.get_risk_level s2))%nat
  /\ ((forall b, In b [dec 3 10; dec 6 10; dec 8 10] -> (s1 < b <-> s2 < b)) ->
      Risk.get_risk_level s1 = Risk.get_risk_level s2).
Proof.
  intros Hle. unfold Risk.get_risk_level. split.
  - destruct (Qcltb s1 (dec 3 10)) eqn:A1;
      [apply Qcltb_lt in A1 | apply Qcltb_ge in A1];
    (destruct (Qcltb s1 (dec 6 10)) eqn:A2;
      [apply Qcltb_lt in A2 | apply Qcltb_ge in A2]);
    (destruct (Qcltb s1 (dec 8 10)) eqn:A3;
      [apply Qcltb_lt in A3 | apply Qcltb_ge in A3]);
    (destruct (Qcltb s2 (dec 3 10)) eqn:B1;
      [apply Qcltb_lt in B1 | apply Qcltb_ge in B1]);
    (destruct (Qcltb s2 (dec 6 10)) eqn:B2;
      [apply Qcltb_lt in B2 | apply Qcltb_ge in B2]);
    (destruct (Qcltb s2 (dec 8 10)) eqn:B3;
      [apply Qcltb_lt in B3 | apply Qcltb_ge in B3]);
    cbn [Risk.rank]; try lia; exfalso; qc_order.
  - intros Hsame.
    assert (E : forall b, In b [dec 3 10; dec 6 10; dec 8 10] ->
                          Qcltb s1 b = Qcltb s2 b).
    { intros b Hb. specialize (Hsame b Hb).
      destruct (Qcltb s2 b) eqn:B; [apply Qcltb_lt in B | apply Qcltb_ge in B].
      - apply Qcltb_lt. tauto.
      - apply Qcltb_ge. apply Qcnot_lt_le. intros Hlt. apply Hsame in Hlt.
        exact (Qcle_not_lt _ _ B Hlt). }
    rewrite !E by (simpl; auto). reflexivity.
Qed.

(** The scores 0.35 and 0.7: MEDIUM and HIGH. *)
Lemma get_risk_level_monotone_witness :
  dec 35 100 <= dec 7 10
  /\ (Risk.rank (Risk.get_risk_level (dec 35 100))
      <= Risk.rank (Risk.get_risk_level (dec 7 10)))%nat.
Proof.
  assert (H : dec 35 100 <= dec 7 10) by qc_order.
  split; [exact H|].
  exact (proj1 (get_risk_level_monotone (dec 35 100) (dec 7 10) H)).
Defined.

(** ** The selected threshold and its F1 are always in range *)
Section ThresholdRange.
Import Threshold.

Ltac qc_poly :=
  unfold Qcle, Qclt, Qcplus, Qcmult, Qcminus, Qcopp, dec in *;
  cbn [this Q2Qc] in *;
  rewrite ?Qred_correct in *.

Lemma of_Z_le (a b : Z) : (a <= b)%Z -> of_Z a <= of_Z b.
Proof.
  intros Hab. unfold of_Z, Qcle. cbn [this Q2Qc]. rewrite !Qred_correct.
  unfold Qle. simpl. lia.
Qed.

Lemma ratio_le_1 (a b : Z) : (a <= b)%Z -> (0 < b)%Z -> of_Z a / of_Z b <= 1.
Proof.
  intros Hab Hb. apply div_le_iff; [now apply of_Z_pos|].
  replace (1 * of_Z b) with (of_Z b) by ring. now apply of_Z_le.
Qed.

Lemma filter_and_length {A} (f g : A -> bool) (l : list A) :
  (length (List.filter (fun x => f x && g x) l) <= length (List.filter f l))%nat.
Proof.
  induction l as [|x l IH]; simpl; [lia|].
  destruct (f x), (g x); simpl; lia.
Qed.

Lemma precision_at_le_1 y_true y_scores t : precision_at y_true y_scores t <= 1.
Proof.
  unfold precision_at.
  assert (H2 : (0 <= fps y_true y_scores t)%Z) by (unfold fps; lia).
  assert (H1 : (0 <= tps y_true y_scores t)%Z) by (unfold tps; lia).
  destruct (Z.eqb_spec (tps y_true y_scores t + fps y_true y_scores t) 0);
    [discriminate|].
  apply ratio_le_1; lia.
Qed.

Lemma recall_at_le_1 y_true y_scores t : recall_at y_true y_scores t <= 1.
Proof.
  unfold recall_at.
  destruct (Z.eqb_spec (Z.of_nat (length (List.filter fst (combine y_true y_scores)))) 0);
    [apply Qcle_refl|].
  apply ratio_le_1; [|lia].
  unfold tps. apply inj_le.
  apply (filter_and_length fst (fun ys => Qcleb t (snd ys))).
Qed.

Lemma f1_of_range (p r : Qc) :
  0 <= p -> p <= 1 -> 0 <= r -> r <= 1 -> 0 <= f1_of p r /\ f1_of p r < 1.
Proof.
  intros Hp0 Hp1 Hr0 Hr1. unfold f1_of.
  set (e := dec 1 1000000000).
  assert (He : 0 < e) by reflexivity.
  assert (Hse : 0 < p + r + e) by (clearbody e; qc_poly; lra).
  split.
  - apply le_div_iff; [exact Hse|]. clearbody e. qc_poly. nra.
  - apply Qcnot_le_lt. intros Hle. apply le_div_iff in Hle; [|exact Hse].
    clearbody e. qc_poly. nra.
Qed.

(** Whatever the labels and the scores, the threshold that
    [find_best_threshold] returns lies in [[0.05, 0.95]]: it is a score
    of the sample in that band, or the default 0.5; and the F1 that it
    reports is at least 0 and, because of the [1e-9] in the denominator,
    always below 1, also for a classifier that makes no error. *)
Theorem find_best_threshold_in_range (y_true : list bool) (y_scores : list Qc) :
  dec 5 100 <= fst (find_best_threshold y_true y_scores)
  /\ fst (find_best_threshold y_true y_scores) <= dec 95 100
  /\ 0 <= snd (find_best_threshold y_true y_scores)
  /\ snd (find_best_threshold y_true y_scores) < 1
  /\ (find_best_threshold y_true y_scores = (dec 1 2, 0)
      \/ In (fst (find_best_threshold y_true y_scores)) y_scores).
Proof.
  destruct (candidates y_true y_scores) as [|c cs] eqn:Ec.
  - assert (E : find_best_threshold y_true y_scores = (dec 1 2, 0)).
    { unfold find_best_threshold, precision_recall_curve.
      apply best_on_curve_default. intros x Hx.
      destruct (in_band x) eqn:Hb; [exfalso | reflexivity].
      assert (Hc : In (x, f1_of (precision_at y_true y_scores x)
                                (recall_at y_true y_scores x))
                      (candidates y_true y_scores))
        by (apply candidates_spec; auto).
      rewrite Ec in Hc. destruct Hc. }
    rewrite E. cbn [fst snd].
    repeat split; try qc_order; try reflexivity. now left.
  - assert (Hne : candidates y_true y_scores <> []) by (rewrite Ec; discriminate).
    assert (Hin : In (find_best_threshold y_true y_scores)
                     (candidates y_true y_scores)).
    { unfold find_best_threshold, candidates, precision_recall_curve in *.
      set (t := thresholds y_scores) in *.
      set (p := map (precision_at y_true y_scores) t ++ [1]) in *.
      set (r := map (recall_at y_true y_scores) t ++ [0]) in *.
      assert (Hp : length p = S (length t)).
      { subst p. rewrite length_app, length_map. cbn [length]. lia. }
      assert (Hr : length r = S (length t)).
      { subst r. rewrite length_app, length_map. cbn [length]. lia. }
      exact (proj1 (best_on_curve_spec p r t Hp Hr Hne)). }
    destruct (find_best_threshold y_true y_scores) as [tb fb].
    apply candidates_spec in Hin as (Ht & Hb & ->). cbn [fst snd].
    apply in_band_spec in Hb as [Hb1 Hb2].
    destruct (f1_of_range (precision_at y_true y_scores tb)
                (recall_at y_true y_scores tb)
                (precision_at_nonneg _ _ _) (precision_at_le_1 _ _ _)
                (recall_at_nonneg _ _ _) (recall_at_le_1 _ _ _)) as [H0 H1].
    repeat split; try assumption. right.
    unfold thresholds in Ht.
    apply (proj2 (list_elem_of_In _ _)) in Ht.
    apply (proj1 (sort_values_elem _ _ _)) in Ht.
    apply (proj1 (elem_of_remove_dups _ _)) in Ht.
    exact (proj1 (list_elem_of_In _ _) Ht).
Qed.

End ThresholdRange.

(** ** The rolling columns, end to end *)
Section RollingEndToEnd.

Lemma insert_sorted_Permutation {A} (le : A -> A -> bool) (x : A) (l : list A) :
  Permutation (insert_sorted le x l) (x :: l).
Proof.
  induction l as [|y l IH]; simpl; [reflexivity|].
  destruct (le x y); [reflexivity|].
  rewrite IH. apply perm_swap.
Qed.

Lemma sort_values_Permutation {A} (le : A -> A -> bool) (l : list A) :
  Permutation (sort_values le l) l.
Proof.
  induction l as [|x l IH]; simpl; [reflexivity|].
  rewrite insert_sorted_Permutation. now constructor.
Qed.

Lemma sort_values_length {A} (le : A -> A -> bool) (l : list A) :
  length (sort_values le l) = length l.
Proof. apply Permutation_length, sort_values_Permutation. Qed.

(** [compute_rolling_averages] returns the rows of its argument in
    ascending order of time, and in every row each rolling column is the
    mean of its base column over that row and the two rows before it in
    that order (fewer at the start): a number, never NaN.  The first row
    has its own readings as rolling values. *)
Theorem compute_rolling_averages_trailing_three (df : list DataPreparation.weather_day) :
  Permutation (map DataPreparation.day (DataPreparation.compute_rolling_averages df)) df
  /\ Sorted Z.le (map (fun r => DataPreparation.time (DataPreparation.day r))
                      (DataPreparation.compute_rolling_averages df))
  /\ length (DataPreparation.compute_rolling_averages df) = length df
  /\ (forall i r,
        DataPreparation.compute_rolling_averages df !! i = Some r ->
        let col f := map f (map DataPreparation.day
                               (DataPreparation.compute_rolling_averages df)) in
        DataPreparation.temp_roll3 r
        = Rolling.mean (Rolling.trailing_window 3 (col DataPreparation.temp) i)
        /\ DataPreparation.tavg_roll3 r
           = Rolling.mean (Rolling.trailing_window 3 (col DataPreparation.tavg) i)
        /\ DataPreparation.tmin_roll3 r
           = Rolling.mean (Rolling.trailing_window 3 (col DataPreparation.tmin) i)
        /\ is_Some (DataPreparation.temp_roll3 r)
        /\ is_Some (DataPreparation.tavg_roll3 r)
        /\ is_Some (DataPreparation.tmin_roll3 r)
        /\ (i = 0%nat ->
            DataPreparation.temp_roll3 r
            = Some (DataPreparation.temp (DataPreparation.day r))
            /\ DataPreparation.tavg_roll3 r
               = Some (DataPreparation.tavg (DataPreparation.day r))
            /\ DataPreparation.tmin_roll3 r
               = Some (DataPreparation.tmin (DataPreparation.day r)))).
Proof.
  destruct (compute_rolling_averages_columns df) as (Hd & H1 & H2 & H3).
  set (out := DataPreparation.compute_rolling_averages df) in *.
  set (sorted := sort_values (key_leb DataPreparation.time) df) in *.
  cbv zeta in Hd, H1, H2, H3.
  assert (Hlen : length out = length df).
  { rewrite <- (length_map DataPreparation.day), Hd. apply sort_values_length. }
  split; [rewrite Hd; apply sort_values_Permutation|].
  split.
  { rewrite <- (map_map DataPreparation.day DataPreparation.time), Hd.
    apply sort_values_Sorted. }
  split; [exact Hlen|].
  intros i r Hi col. subst col. cbv beta. rewrite Hd.
  assert (Hlt : (i < length out)%nat) by (eapply lookup_lt_Some; eauto).
  assert (Hcol : forall (f : DataPreparation.weather_day -> Qc)
                        (g : DataPreparation.weather_rolled -> option Qc),
            map g out = Rolling.rolling_mean 3 (map f sorted) ->
            g r = Rolling.mean (Rolling.trailing_window 3 (map f sorted) i)
            /\ is_Some (g r)
            /\ (i = 0%nat -> g r = Some (f (DataPreparation.day r)))).
  { intros f g Hg.
    assert (Hls : (i < length (map f sorted))%nat).
    { rewrite length_map. unfold sorted. rewrite sort_values_length. lia. }
    pose proof (rolling_mean_lookup 3 (map f sorted) i ltac:(lia) Hls) as Hr.
    rewrite <- Hg, list_lookup_fmap, Hi in Hr. cbn in Hr.
    assert (Hgr : g r = Rolling.mean (Rolling.trailing_window 3 (map f sorted) i))
      by congruence.
    clear Hr. split; [exact Hgr|]. rewrite Hgr. split.
    - pose proof (trailing_window_nonempty 3 (map f sorted) i ltac:(lia) Hls) as Hne.
      unfold Rolling.mean. destruct (Rolling.trailing_window 3 (map f sorted) i);
        [contradiction | eauto].
    - intros ->.
      assert (Hr0 : sorted !! 0%nat = Some (DataPreparation.day r)).
      { rewrite <- Hd, list_lookup_fmap, Hi. reflexivity. }
      rewrite trailing_window_slice. change (1 - 3)%nat with 0%nat.
      rewrite (slice_one (map f sorted) 0 (f (DataPreparation.day r)))
        by (now rewrite list_lookup_fmap, Hr0).
      apply mean_singleton. }
  destruct (Hcol DataPreparation.temp DataPreparation.temp_roll3 H1) as (A1 & A2 & A3).
  destruct (Hcol DataPreparation.tavg DataPreparation.tavg_roll3 H2) as (B1 & B2 & B3).
  destruct (Hcol DataPreparation.tmin DataPreparation.tmin_roll3 H3) as (C1 & C2 & C3).
  split; [exact A1|]. split; [exact B1|]. split; [exact C1|].
  split; [exact A2|]. split; [exact B2|]. split; [exact C2|].
  intros E. auto.
Qed.

End RollingEndToEnd.

Section RollingPerLocation.
Import RollingFeatures.

Lemma insert_sorted_StronglySorted {A} (le : A -> A -> bool) (x : A) (l : list A) :
  (forall a b, le a b = true \/ le b a = true) ->
  (forall a b c, le a b = true -> le b c = true -> le a c = true) ->
  StronglySorted (fun a b => le a b = true) l ->
  StronglySorted (fun a b => le a b = true) (insert_sorted le x l).
Proof.
  intros Htot Htrans. induction l as [|y l IH]; intros Hs; simpl.
  - repeat constructor.
  - inversion Hs as [|? ? Hl Hy]; subst.
    destruct (le x y) eqn:E.
    + constructor; [exact Hs|]. constructor; [exact E|].
      eapply List.Forall_impl; [|exact Hy]. intros z Hz. eapply Htrans; eauto.
    + constructor; [now apply IH|].
      apply List.Forall_forall. intros z Hz.
      apply list_elem_of_In, insert_sorted_elem in Hz as [->|Hz].
      * destruct (Htot x y) as [H|H]; congruence.
      * rewrite List.Forall_forall in Hy. apply Hy. now apply list_elem_of_In.
Qed.

Lemma sort_values_StronglySorted {A} (le : A -> A -> bool) (l : list A) :
  (forall a b, le a b = true \/ le b a = true) ->
  (forall a b c, le a b = true -> le b c = true -> le a c = true) ->
  StronglySorted (fun a b => le a b = true) (sort_values le l).
Proof.
  intros Htot Htrans. induction l as [|x l IH]; simpl; [constructor|].
  now apply insert_sorted_StronglySorted.
Qed.

Lemma StronglySorted_filter {A} (R : A -> A -> Prop) (f : A -> bool) (l : list A) :
  StronglySorted R l -> StronglySorted R (List.filter f l).
Proof.
  induction 1 as [|x l Hl IH Hx]; simpl; [constructor|].
  destruct (f x); [|exact IH]. constructor; [exact IH|].
  apply List.Forall_forall. intros y Hy. apply filter_In in Hy as [Hy _].
  rewrite List.Forall_forall in Hx. now apply Hx.
Qed.

Lemma Qceqb_true x y : Qceqb x y = true <-> x = y.
Proof. unfold Qceqb. apply bool_decide_eq_true. Qed.

Lemma sample_leb_spec (a b : sample) :
  sample_leb a b = true
  <-> s_lat a < s_lat b
      \/ (s_lat a = s_lat b
          /\ (s_lon a < s_lon b
              \/ (s_lon a = s_lon b /\ (s_timestamp a <= s_timestamp b)%Z))).
Proof.
  unfold sample_leb.
  rewrite !orb_true_iff, !andb_true_iff, !orb_true_iff, !andb_true_iff.
  rewrite !Qcltb_lt, !Qceqb_true, Z.leb_le. reflexivity.
Qed.

Lemma sample_leb_total (a b : sample) :
  sample_leb a b = true \/ sample_leb b a = true.
Proof.
  rewrite !sample_leb_spec.
  destruct (Qc_dec (s_lat a) (s_lat b)) as [[H|H]|H]; [tauto | tauto |].
  destruct (Qc_dec (s_lon a) (s_lon b)) as [[H'|H']|H']; [tauto | | ].
  - right. right. split; [congruence|]. tauto.
  - destruct (Z.le_ge_cases (s_timestamp a) (s_timestamp b)).
    + left. tauto.
    + right. right. split; [congruence|]. right. split; [congruence | lia].
Qed.

Lemma sample_leb_trans (a b c : sample) :
  sample_leb a b = true -> sample_leb b c = true -> sample_leb a c = true.
Proof.
  rewrite !sample_leb_spec.
  intros [H1|[E1 [H1|[F1 T1]]]] [H2|[E2 [H2|[F2 T2]]]].
  - left. eapply Qclt_trans; eauto.
  - left. now rewrite <- E2.
  - left. now rewrite <- E2.
  - left. now rewrite E1.
  - right. split; [congruence|]. left. eapply Qclt_trans; eauto.
  - right. split; [congruence|]. left. now rewrite <- F2.
  - left. now rewrite E1.
  - right. split; [congruence|]. left. now rewrite F1.
  - right. split; [congruence|]. right. split; [congruence | lia].
Qed.

Lemma group_values_keyed {A} (key : A -> Qc * Qc) (col : A -> Qc) (k : Qc * Qc)
    (l : list A) :
  Rolling.group_values k (map (fun s => (key s, col s)) l)
  = map col (List.filter (fun s => bool_decide (key s = k)) l).
Proof.
  unfold Rolling.group_values. induction l as [|s l IH]; [reflexivity|].
  cbn [map List.filter]. rewrite filter_cons. cbn [fst].
  destruct (decide (key s = k)) as [E|E].
  - rewrite (bool_decide_eq_true_2 _ E). cbn [map snd]. now rewrite IH.
  - rewrite (bool_decide_eq_false_2 _ E). exact IH.
Qed.

(** [add_rolling_features] returns the rows sorted by location and time.
    In every row each rolling column is the mean of its base column over
    the latest rows of the same location up to that row (three or seven
    of them, fewer at the start of the location), in order of time; rows
    of other locations play no part, and the value is never NaN. *)
Theorem add_rolling_features_trailing_windows (df : list sample)
    (i : nat) (s : sample) :
  let sorted := sort_values sample_leb df in
  let own := List.filter (fun s' => bool_decide (location s' = location s)) sorted in
  let k := length (List.filter (fun s' => bool_decide (location s' = location s))
                               (firstn i sorted)) in
  sorted !! i = Some s ->
  Permutation sorted df
  /\ StronglySorted (fun a b => (s_timestamp a <= s_timestamp b)%Z) own
  /\ own !! k = Some s
  /\ exists r,
       add_rolling_features df !! i = Some r
       /\ sample_of r = s
       /\ temp_roll3 r = Rolling.mean (Rolling.trailing_window 3 (map s_temp own) k)
       /\ tavg_roll3 r = Rolling.mean (Rolling.trailing_window 3 (map s_tavg own) k)
       /\ temp_roll7 r = Rolling.mean (Rolling.trailing_window 7 (map s_temp own) k)
       /\ tavg_roll7 r = Rolling.mean (Rolling.trailing_window 7 (map s_tavg own) k)
       /\ is_Some (temp_roll3 r) /\ is_Some (tavg_roll3 r)
       /\ is_Some (temp_roll7 r) /\ is_Some (tavg_roll7 r).
Proof.
  intros sorted own k Hs.
  assert (Hown : own !! k = Some s).
  { subst own k. rewrite <- (take_drop i sorted) at 2.
    rewrite List.filter_app.
    rewrite lookup_app_r by lia. rewrite Nat.sub_diag.
    rewrite (drop_S _ _ _ Hs). cbn [List.filter].
    rewrite bool_decide_eq_true_2 by reflexivity. reflexivity. }
  split; [apply sort_values_Permutation|]. split; [|split; [exact Hown|]].
  { subst own.
    assert (Hss : StronglySorted (fun a b => sample_leb a b = true) sorted)
      by (apply sort_values_StronglySorted;
          [apply sample_leb_total | apply sample_leb_trans]).
    apply (StronglySorted_filter _
             (fun s' => bool_decide (location s' = location s))) in Hss.
    revert Hss.
    assert (Hloc : Forall (fun s' => location s' = location s)
                     (List.filter (fun s' => bool_decide (location s' = location s))
                                  sorted)).
    { apply List.Forall_forall. intros x Hx. apply filter_In in Hx as [_ Hx].
      now apply bool_decide_eq_true in Hx. }
    revert Hloc.
    generalize (List.filter (fun s' => bool_decide (location s' = location s)) sorted).
    intros l Hloc Hss. induction Hss as [|x l Hl IH Hx]; [constructor|].
    inversion Hloc as [|? ? Ex Hrest]; subst.
    constructor; [now apply IH|].
    apply List.Forall_forall. intros y Hy.
    rewrite List.Forall_forall in Hx, Hrest.
    specialize (Hx y Hy). specialize (Hrest y Hy).
    apply sample_leb_spec in Hx. unfold location in *.
    assert (E1 : s_lat x = s_lat y) by congruence.
    assert (E2 : s_lon x = s_lon y) by congruence.
    destruct Hx as [Hx|[_ [Hx|[_ Hx]]]]; [| |exact Hx].
    - rewrite E1 in Hx. now apply Qclt_not_eq in Hx.
    - rewrite E2 in Hx. now apply Qclt_not_eq in Hx. }
  destruct (add_rolling_features_per_location df i s Hs)
    as (r & Hr & Hsr & H3 & H4 & H5 & H6).
  exists r. split; [exact Hr|]. split; [exact Hsr|].
  assert (Hcol : forall w (col : sample -> Qc) v,
            (1 <= w)%nat ->
            Rolling.rolling_mean w
              (Rolling.group_values (location s)
                 (map (fun s0 => (location s0, col s0)) sorted))
            !! Rolling.rank (location s)
                 (map (fun s0 => (location s0, col s0)) sorted) i
            = Some v ->
            v = Rolling.mean (Rolling.trailing_window w (map col own) k)
            /\ is_Some v).
  { intros w col v Hw Hv.
    assert (Hrank : Rolling.rank (location s)
                      (map (fun s0 => (location s0, col s0)) sorted) i = k).
    { unfold Rolling.rank. rewrite firstn_map, group_values_keyed.
      now rewrite length_map. }
    rewrite Hrank, group_values_keyed in Hv. fold own in Hv.
    assert (Hk : (k < length (map col own))%nat).
    { rewrite length_map. eapply lookup_lt_Some; eauto. }
    rewrite (rolling_mean_lookup w _ k Hw Hk) in Hv. inversion Hv; subst v.
    split; [reflexivity|].
    pose proof (trailing_window_nonempty w (map col own) k Hw Hk) as Hne.
    unfold Rolling.mean. destruct (Rolling.trailing_window w (map col own) k);
      [contradiction | eauto]. }
  cbv zeta in H3, H4, H5, H6.
  destruct (Hcol 3%nat s_temp _ ltac:(lia) H3) as [A1 A2].
  destruct (Hcol 3%nat s_tavg _ ltac:(lia) H4) as [B1 B2].
  destruct (Hcol 7%nat s_temp _ ltac:(lia) H5) as [C1 C2].
  destruct (Hcol 7%nat s_tavg _ ltac:(lia) H6) as [D1 D2].
  repeat (split; [assumption|]). assumption.
Qed.

End RollingPerLocation.

(** Three readings of two locations: the second row of the sorted frame
    is the later reading of the first location. *)
Lemma add_rolling_features_trailing_windows_witness :
  sort_values RollingFeatures.sample_leb
    [Samples.reading_a; Samples.reading_b; Samples.reading_c] !! 1%nat
  = Some Samples.reading_c
  /\ List.filter (fun s' => bool_decide (RollingFeatures.location s'
                                         = RollingFeatures.location Samples.reading_c))
       (sort_values RollingFeatures.sample_leb
          [Samples.reading_a; Samples.reading_b; Samples.reading_c])
     !! length (List.filter
                  (fun s' => bool_decide (RollingFeatures.location s'
                                          = RollingFeatures.location Samples.reading_c))
                  (firstn 1 (sort_values RollingFeatures.sample_leb
                               [Samples.reading_a; Samples.reading_b;
                                Samples.reading_c])))
     = Some Samples.reading_c.
Proof.
  assert (H : sort_values RollingFeatures.sample_leb
                [Samples.reading_a; Samples.reading_b; Samples.reading_c] !! 1%nat
              = Some Samples.reading_c) by (vm_compute; reflexivity).
  split; [exact H|].
  exact (proj1 (proj2 (proj2 (add_rolling_features_trailing_windows
                                [Samples.reading_a; Samples.reading_b;
                                 Samples.reading_c] 1 Samples.reading_c H)))).
Defined.

(** ** [prep_data.py]: the rolling columns and the hourly alignment *)
Section PrepRolling.
Import Prep.

Lemma roll_weather_lookup (ws : list weather) (i : nat) (r : weather_rolled) :
  roll_weather ws !! i = Some r ->
  let sorted := sort_values (key_leb w_timestamp) ws in
  sorted !! i = Some (wr_weather r)
  /\ temp_roll3 r = Rolling.mean (Rolling.trailing_window 72 (map w_temp sorted) i)
  /\ humidity_roll3 r
     = Rolling.mean (Rolling.trailing_window 72 (map w_humidity sorted) i)
  /\ wind_roll3 r = Rolling.mean (Rolling.trailing_window 72 (map w_wind sorted) i).
Proof.
  intros Hr sorted. unfold roll_weather in Hr. fold sorted in Hr.
  rewrite list_lookup_fmap in Hr.
  destruct (seq 0 (length sorted) !! i) as [j|] eqn:Hj; [|discriminate].
  apply lookup_seq in Hj as [-> Hlt]. cbn in Hr. inversion Hr; subst r. clear Hr.
  cbn [wr_weather temp_roll3 humidity_roll3 wind_roll3].
  split.
  - destruct (sorted !! i) as [w|] eqn:Hw.
    + now rewrite (nth_lookup_Some _ _ _ _ Hw).
    + apply lookup_ge_None in Hw. lia.
  - assert (Hcol : forall f : weather -> Qc,
              default None (Rolling.rolling_mean 72 (map f sorted) !! i)
              = Rolling.mean (Rolling.trailing_window 72 (map f sorted) i)).
    { intros f. rewrite rolling_mean_lookup; [reflexivity | lia |].
      now rewrite length_map. }
    rewrite !Hcol. auto.
Qed.

Lemma roll_weather_rows (ws : list weather) :
  map wr_weather (roll_weather ws) = sort_values (key_leb w_timestamp) ws.
Proof.
  apply list_eq. intros i. rewrite list_lookup_fmap.
  destruct (roll_weather ws !! i) as [r|] eqn:Hr.
  - cbn. symmetry. exact (proj1 (roll_weather_lookup ws i r Hr)).
  - cbn. symmetry. apply lookup_ge_None. apply lookup_ge_None in Hr.
    unfold roll_weather in Hr. rewrite length_map, length_seq in Hr. exact Hr.
Qed.

(** [preprocess] rolls the weather frame as a whole: sorted by time
    only, each rolling column is the mean of its base column over the 72
    latest readings up to the row, whatever grid point they belong to
    (fewer at the start), and is never NaN. *)
Theorem roll_weather_trailing_72 (ws : list weather) :
  Permutation (map wr_weather (roll_weather ws)) ws
  /\ Sorted Z.le (map (fun r => w_timestamp (wr_weather r)) (roll_weather ws))
  /\ (forall i r,
        roll_weather ws !! i = Some r ->
        let col f := map f (map wr_weather (roll_weather ws)) in
        temp_roll3 r = Rolling.mean (Rolling.trailing_window 72 (col w_temp) i)
        /\ humidity_roll3 r
           = Rolling.mean (Rolling.trailing_window 72 (col w_humidity) i)
        /\ wind_roll3 r = Rolling.mean (Rolling.trailing_window 72 (col w_wind) i)
        /\ is_Some (temp_roll3 r) /\ is_Some (humidity_roll3 r)
        /\ is_Some (wind_roll3 r)).
Proof.
  set (sorted := sort_values (key_leb w_timestamp) ws).
  assert (Hmap : map wr_weather (roll_weather ws) = sorted)
    by apply roll_weather_rows.
  split; [rewrite Hmap; apply sort_values_Permutation|].
  split.
  { rewrite <- (map_map wr_weather w_timestamp), Hmap. apply sort_values_Sorted. }
  intros i r Hr col. subst col. cbv beta. rewrite Hmap.
  destruct (roll_weather_lookup ws i r Hr) as (Hs & H1 & H2 & H3).
  fold sorted in Hs, H1, H2, H3.
  assert (Hlt : (i < length sorted)%nat) by (eapply lookup_lt_Some; eauto).
  assert (Hsome : forall f : weather -> Qc,
            is_Some (Rolling.mean (Rolling.trailing_window 72 (map f sorted) i))).
  { intros f.
    pose proof (trailing_window_nonempty 72 (map f sorted) i ltac:(lia)
                  ltac:(now rewrite length_map)) as Hne.
    unfold Rolling.mean. destruct (Rolling.trailing_window 72 (map f sorted) i);
      [contradiction | eauto]. }
  rewrite H1, H2, H3. repeat split; auto.
Qed.

Lemma floor_hour_bounds (t : Z) : (floor_hour t <= t < floor_hour t + 3600)%Z.
Proof. unfold floor_hour. Z.div_mod_to_equations. lia. Qed.

Lemma roll_weather_elem (ws : list weather) (w : weather) :
  w ∈ ws <-> exists r, r ∈ roll_weather ws /\ wr_weather r = w.
Proof.
  rewrite <- (sort_values_elem (key_leb w_timestamp) w ws), <- roll_weather_rows.
  rewrite list_elem_of_fmap. split; intros (r & H1 & H2); eauto.
Qed.

(** The backward join of [preprocess] compares floored hours, so the
    reading whose rolling values an incident receives may have been
    taken after the incident, but less than an hour after it; and an
    incident that receives none is earlier than every reading. *)
Theorem align_hourly_within_the_hour {A : Type}
    (rows : list (incident * A)) (ws : list weather)
    (row : incident * A) (m : option weather_rolled) :
  (row, m) ∈ align_hourly rows ws ->
  row ∈ rows
  /\ (forall r, m = Some r ->
        wr_weather r ∈ ws
        /\ (w_timestamp (wr_weather r) < i_timestamp (fst row) + 3600)%Z
        /\ (floor_hour (w_timestamp (wr_weather r))
            <= floor_hour (i_timestamp (fst row)))%Z)
  /\ (m = None ->
      forall w, w ∈ ws -> (i_timestamp (fst row) < w_timestamp w)%Z).
Proof.
  intros Hin.
  destruct (align_hourly_never_future rows ws row m Hin) as (Hrow & Hsome & _).
  split; [exact Hrow|]. split.
  - intros r ->. destruct (Hsome r eq_refl) as [Hr Hle].
    unfold weather_hour, incident_hour in Hle.
    pose proof (floor_hour_bounds (w_timestamp (wr_weather r))).
    pose proof (floor_hour_bounds (i_timestamp (fst row))).
    split; [|split; [lia | exact Hle]].
    apply roll_weather_elem. eauto.
  - intros -> w Hw. unfold align_hourly in Hin.
    pose proof (sort_values_Sorted (@incident_hour A) rows) as Hl.
    destruct (merge_asof_rows _ _ _ _ _ _ Hl Hin) as (o & [Hm _] & Ho).
    apply roll_weather_elem in Hw as (r & Hr & <-).
    apply (sort_values_elem (key_leb weather_hour)) in Hr.
    pose proof (sort_values_Sorted weather_hour (roll_weather ws)) as Hsr.
    apply sorted_strongly in Hsr.
    destruct o as [j|].
    + destruct Hm as [(x & Hx & _) _].
      rewrite list_lookup_fmap in Hx.
      destruct (sort_values (key_leb weather_hour) (roll_weather ws) !! j);
        [discriminate | discriminate].
    + assert (Hlt : (incident_hour row < weather_hour r)%Z).
      { apply Hm; [|exact Hsr]. apply list_elem_of_fmap. eauto. }
      unfold weather_hour, incident_hour, floor_hour in Hlt.
      Z.div_mod_to_equations. lia.
Qed.

End PrepRolling.

(** An incident at noon and one reading, taken at 13:00: no match. *)
Lemma align_hourly_within_the_hour_witness :
  ((Samples.incident_noon, tt), None)
    ∈ Prep.align_hourly [(Samples.incident_noon, tt)] [Samples.weather_13h]
  /\ forall w, w ∈ [Samples.weather_13h] ->
               (Prep.i_timestamp Samples.incident_noon < Prep.w_timestamp w)%Z.
Proof.
  assert (H : ((Samples.incident_noon, tt), None)
                ∈ Prep.align_hourly [(Samples.incident_noon, tt)]
                    [Samples.weather_13h])
    by (vm_compute; left).
  split; [exact H|].
  exact (proj2 (proj2 (align_hourly_within_the_hour
                         [(Samples.incident_noon, tt)] [Samples.weather_13h]
                         (Samples.incident_noon, tt) None H)) eq_refl).
Defined.

(** ** The training scripts: labels, split by date, categorical codes *)
Section TrainingScripts.

(** The positive class of [improved_model.py] contains that of the two
    other training scripts, [heat_stroke], and adds dehydration,
    fainting and heat exhaustion; on the incident types that the sample
    generator draws from, the two labels are the same. *)
Theorem hazard_broadens_hazard_binary (incident_type : string) :
  (ImprovedModel.hazard incident_type = 1%Z
   <-> incident_type ∈ ImprovedModel.heat_related)
  /\ (ImprovedModel.hazard incident_type = 0%Z
      \/ ImprovedModel.hazard incident_type = 1%Z)
  /\ (ModelTraining.hazard_binary incident_type = 1%Z
      <-> incident_type = "heat_stroke")
  /\ (ModelTraining.hazard_binary incident_type = 1%Z ->
      ImprovedModel.hazard incident_type = 1%Z)
  /\ (ImprovedModel.hazard incident_type <> ModelTraining.hazard_binary incident_type
      <-> incident_type ∈ ["dehydration"; "fainting"; "heat_exhaustion"])
  /\ (incident_type ∈ ModelTraining.sample_incident_types ->
      ImprovedModel.hazard incident_type
      = ModelTraining.hazard_binary incident_type).
Proof.
  assert (H1 : ImprovedModel.hazard incident_type = 1%Z
               <-> incident_type ∈ ImprovedModel.heat_related).
  { unfold ImprovedModel.hazard.
    destruct (bool_decide (incident_type ∈ ImprovedModel.heat_related)) eqn:Hb.
    - apply bool_decide_eq_true in Hb. tauto.
    - apply bool_decide_eq_false in Hb. split; [discriminate | contradiction]. }
  assert (H0 : ImprovedModel.hazard incident_type = 0%Z
               \/ ImprovedModel.hazard incident_type = 1%Z).
  { unfold ImprovedModel.hazard. destruct (bool_decide _); auto. }
  assert (H2 : ModelTraining.hazard_binary incident_type = 1%Z
               <-> incident_type = "heat_stroke").
  { unfold ModelTraining.hazard_binary.
    destruct (String.eqb_spec incident_type "heat_stroke"); split;
      try tauto; discriminate. }
  assert (H3 : ModelTraining.hazard_binary incident_type = 0%Z
               \/ ModelTraining.hazard_binary incident_type = 1%Z).
  { unfold ModelTraining.hazard_binary. destruct (String.eqb _ _); auto. }
  assert (Hmem : incident_type ∈ ImprovedModel.heat_related
                 <-> incident_type = "heat_stroke"
                     \/ incident_type ∈ ["dehydration"; "fainting"; "heat_exhaustion"]).
  { unfold ImprovedModel.heat_related. rewrite elem_of_cons. reflexivity. }
  assert (Hother : incident_type ∈ ["dehydration"; "fainting"; "heat_exhaustion"] ->
                   incident_type <> "heat_stroke").
  { rewrite !elem_of_cons, elem_of_nil. intros [->|[->|[->|[]]]]; discriminate. }
  split; [exact H1|]. split; [exact H0|]. split; [exact H2|].
  split; [|split].
  - intros E. apply H1, Hmem. left. now apply H2.
  - split.
    + intros Hne.
      destruct H0 as [E0|E1].
      * destruct H3 as [F0|F1]; [congruence|].
        exfalso. apply H2 in F1.
        assert (ImprovedModel.hazard incident_type = 1%Z)
          by (apply H1, Hmem; now left).
        congruence.
      * apply H1, Hmem in E1 as [E1|E1]; [|exact E1].
        exfalso. apply H2 in E1. apply Hne. rewrite E1.
        apply H1, Hmem. left. now apply H2.
    + intros Hin E.
      assert (E1 : ImprovedModel.hazard incident_type = 1%Z)
        by (apply H1, Hmem; now right).
      rewrite E1 in E. symmetry in E. apply H2 in E.
      now apply Hother in Hin.
  - unfold ModelTraining.sample_incident_types.
    rewrite !elem_of_cons, elem_of_nil. intros [->|[->|[->|[]]]]; reflexivity.
Qed.

Lemma filter_partition_Permutation {A} (f g : A -> bool) (l : list A) :
  (forall x, g x = negb (f x)) ->
  Permutation (List.filter f l ++ List.filter g l) l.
Proof.
  intros Hg. induction l as [|x l IH]; simpl; [reflexivity|].
  rewrite Hg. destruct (f x); simpl.
  - now constructor.
  - rewrite <- Permutation_middle. now constructor.
Qed.

(** [split_data_by_date] raises [ZeroDivisionError] on an empty frame.
    Otherwise it returns two parts that together hold every row once,
    each in the order of the frame: the training part has the rows at
    least 90 days older than the latest row, the test part the others;
    every training row is strictly earlier than every test row, and the
    test part has the latest row, so it is never empty. *)
Theorem split_data_by_date_partitions {A : Type} (timestamp : A -> Z)
    (df : list A) :
  (df = [] ->
   ModelTraining.split_data_by_date timestamp df
   = inl (Py.ZeroDivisionError "division by zero"))
  /\ (df <> [] ->
      exists train_df test_df max_date,
        ModelTraining.split_data_by_date timestamp df = inr (train_df, test_df)
        /\ Py.series_max (map timestamp df) = Some max_date
        /\ Permutation (train_df ++ test_df) df
        /\ train_df `sublist_of` df /\ test_df `sublist_of` df
        /\ (forall r, In r train_df
                      <-> In r df /\ (timestamp r <= max_date - 7776000)%Z)
        /\ (forall r, In r test_df
                      <-> In r df /\ (max_date - 7776000 < timestamp r)%Z)
        /\ (forall a b, In a train_df -> In b test_df ->
                        (timestamp a < timestamp b)%Z)
        /\ (exists r, In r test_df /\ timestamp r = max_date)).
Proof.
  split.
  - intros ->. reflexivity.
  - intros Hne. unfold ModelTraining.split_data_by_date.
    destruct (series_max_nonempty (map timestamp df)) as [m Em].
    { intros E. apply map_eq_nil in E. contradiction. }
    rewrite Em. cbn [option_map].
    destruct df as [|r0 df0]; [contradiction|]. set (df := r0 :: df0) in *.
    change (length df =? 0)%nat with false. cbv iota.
    eexists _, _, m. split; [reflexivity|]. split; [reflexivity|].
    assert (Htrain : forall r,
              In r (List.filter (fun r => (timestamp r <=? m - 90 * 86400)%Z) df)
              <-> In r df /\ (timestamp r <= m - 7776000)%Z).
    { intros r. rewrite filter_In, Z.leb_le. reflexivity. }
    assert (Htest : forall r,
              In r (List.filter (fun r => (m - 90 * 86400 <? timestamp r)%Z) df)
              <-> In r df /\ (m - 7776000 < timestamp r)%Z).
    { intros r. rewrite filter_In, Z.ltb_lt. reflexivity. }
    split; [|split; [|split; [|split; [|split; [|split]]]]].
    + apply filter_partition_Permutation. intros x. apply Z.ltb_antisym.
    + apply filter_sublist_of.
    + apply filter_sublist_of.
    + exact Htrain.
    + exact Htest.
    + intros a b Ha Hb. apply Htrain in Ha. apply Htest in Hb. lia.
    + apply series_max_spec in Em as [Hin _].
      apply in_map_iff in Hin as (r & Hr & Hin).
      exists r. split; [|exact Hr]. apply Htest. split; [exact Hin | lia].
Qed.

Lemma unique_from_spec {A} `{EqDecision A} (seen l : list A) :
  NoDup (Py.unique_from seen l)
  /\ forall x, x ∈ Py.unique_from seen l <-> x ∈ l /\ x ∉ seen.
Proof.
  revert seen. induction l as [|y l IH]; intros seen; cbn [Py.unique_from].
  - split; [constructor|]. intros x. rewrite elem_of_nil. tauto.
  - destruct (decide (y ∈ seen)) as [Hy|Hy].
    + destruct (IH seen) as [H1 H2]. split; [exact H1|].
      intros x. rewrite H2, elem_of_cons. split; [tauto|].
      intros [[->|Hx] Hs]; [contradiction | tauto].
    + destruct (IH (y :: seen)) as [H1 H2]. split.
      * apply NoDup_cons. split; [|exact H1].
        rewrite H2, elem_of_cons. tauto.
      * intros x. rewrite !elem_of_cons, H2, elem_of_cons.
        destruct (decide (x = y)) as [->|Hne]; [tauto|]. tauto.
Qed.

Lemma unique_from_first {A} `{EqDecision A} (x : A) (l : list A) :
  Py.unique (x :: l) !! 0%nat = Some x.
Proof.
  unfold Py.unique. cbn [Py.unique_from].
  destruct (decide (x ∈ [])) as [H|H]; [inversion H | reflexivity].
Qed.

Lemma dict_of_enumerate (l : list (nat * string)) (v : string) (i : nat) :
  NoDup (map snd l) ->
  fold_left (fun d iv => <[snd iv := fst iv]> d) l (∅ : gmap string nat) !! v = Some i
  <-> (i, v) ∈ l.
Proof.
  induction l as [|[j w] l IH] using rev_ind; intros Hn.
  - cbn. rewrite lookup_empty, elem_of_nil. split; [discriminate | tauto].
  - rewrite fold_left_app. cbn [fold_left fst snd].
    rewrite map_app in Hn. cbn [map snd] in Hn.
    apply NoDup_app in Hn as (Hl & Hw & _).
    rewrite elem_of_app, list_elem_of_singleton.
    destruct (decide (w = v)) as [->|Hne].
    + rewrite lookup_insert_eq. split.
      * intros E. inversion E; subst. now right.
      * intros [Hin|E]; [|now inversion E].
        exfalso. apply (Hw v); [|now apply list_elem_of_singleton].
        apply list_elem_of_fmap. exists (i, v). auto.
    + rewrite lookup_insert_ne by exact Hne.
      pose proof (IH Hl) as IH'. rewrite IH'.
      split; [tauto|]. intros [H|E]; [exact H|]. inversion E; congruence.
Qed.

(** The codes of a categorical column number the distinct values of the
    training and the test column from 0 in order of first appearance:
    each value of either column has one code, two values never share a
    code, a code leads back to its value, and no encoded entry is
    NaN. *)
Theorem value_to_int_round_trip (train_col test_col : list string) :
  let d := ModelTraining.value_to_int train_col test_col in
  let all_values := ModelTraining.all_values train_col test_col in
  NoDup all_values
  /\ (forall v, v ∈ all_values <-> v ∈ train_col \/ v ∈ test_col)
  /\ (forall v i, d !! v = Some i <-> all_values !! i = Some v)
  /\ (forall v w i, d !! v = Some i -> d !! w = Some i -> v = w)
  /\ (forall v i, d !! v = Some i -> (i < length all_values)%nat)
  /\ Forall (fun c => is_Some c) (ModelTraining.encode d train_col)
  /\ Forall (fun c => is_Some c) (ModelTraining.encode d test_col)
  /\ (forall v, train_col !! 0%nat = Some v -> d !! v = Some 0%nat).
Proof.
  intros d all_values.
  destruct (unique_from_spec [] (train_col ++ test_col)) as [Hn Hin].
  fold (Py.unique (train_col ++ test_col)) in Hn, Hin.
  fold (ModelTraining.all_values train_col test_col) in Hn, Hin.
  fold all_values in Hn, Hin.
  assert (Hmem : forall v, v ∈ all_values <-> v ∈ train_col \/ v ∈ test_col).
  { intros v. rewrite Hin, elem_of_app, elem_of_nil. tauto. }
  assert (Hd : forall v i, d !! v = Some i <-> all_values !! i = Some v).
  { intros v i. subst d. unfold ModelTraining.value_to_int. fold all_values.
    rewrite dict_of_enumerate.
    - rewrite elem_of_lookup_imap. split.
      + intros (j & x & E & Hx). inversion E; subst. exact Hx.
      + intros Hx. eauto.
    - assert (E : map snd (imap (fun idx val => (idx, val)) all_values) = all_values).
      { change (snd <$> imap (fun idx val => (idx, val)) all_values = all_values).
        rewrite fmap_imap.
        change (imap (const id) all_values = all_values).
        now rewrite imap_const, list_fmap_id. }
      now rewrite E. }
  assert (Hsome : forall col, (forall v, v ∈ col -> v ∈ all_values) ->
                              Forall (fun c => is_Some c) (ModelTraining.encode d col)).
  { intros col Hcol. unfold ModelTraining.encode. apply Forall_fmap.
    apply Forall_forall. intros v Hv. cbn.
    apply Hcol, list_elem_of_lookup in Hv as [i Hi]. exists i. now apply Hd. }
  split; [exact Hn|]. split; [exact Hmem|]. split; [exact Hd|].
  split; [|split; [|split; [|split]]].
  - intros v w i Hv Hw. apply Hd in Hv, Hw. congruence.
  - intros v i Hv. apply Hd in Hv. eapply lookup_lt_Some; eauto.
  - apply Hsome. intros v Hv. apply Hmem. auto.
  - apply Hsome. intros v Hv. apply Hmem. auto.
  - intros v Hv. apply Hd. destruct train_col as [|x l]; [discriminate|].
    cbn in Hv. inversion Hv; subst. unfold all_values, ModelTraining.all_values.
    apply unique_from_first.
Qed.

End TrainingScripts.

(** ** [setup.py]: what counts as a successful copy *)
Section SetupFacts.

(** The loop of [copy_model_files], for sources that are not among the
    destinations: the files whose source exists are copied. *)
Lemma copy_loop (src dst : string -> string) (fs X : gset string)
    (files acc : list string) :
  (forall f g, src f <> dst g) ->
  (forall f, src f ∈ X <-> src f ∈ fs) ->
  fold_left (fun st file =>
               if bool_decide (src file ∈ fst st)
               then ({[dst file]} ∪ fst st, snd st ++ [file])
               else st) files (X, acc)
  = (list_to_set (map dst (List.filter (fun f => bool_decide (src f ∈ fs)) files)) ∪ X,
     acc ++ List.filter (fun f => bool_decide (src f ∈ fs)) files).
Proof.
  intros Hsd. revert X acc. induction files as [|f files IH]; intros X acc HX.
  - cbn [fold_left List.filter map list_to_set].
    now rewrite (left_id_L ∅ (∪)), app_nil_r.
  - cbn [fold_left List.filter fst snd].
    rewrite (bool_decide_ext (src f ∈ X) (src f ∈ fs)) by apply HX.
    destruct (bool_decide (src f ∈ fs)) eqn:B.
    + rewrite IH.
      * cbn [map list_to_set]. rewrite <- app_assoc. f_equal.
        rewrite (assoc_L (∪)). f_equal. apply (comm_L (∪)).
      * intros g. rewrite elem_of_union, elem_of_singleton, HX.
        split; [intros [E|H]; [now apply Hsd in E | exact H] | tauto].
    + now rewrite IH.
Qed.

Lemma copy_model_files_closed_form (fs : gset string) :
  "../ML/models" ∈ fs ->
  Setup.copy_model_files fs
  = ((3 <=? length (List.filter
                      (fun f => bool_decide (Setup.path_div "../ML/models" f ∈ fs))
                      (Setup.required_files ++ ["scaler_v4.joblib"])))%nat,
     list_to_set
       (map (Setup.path_div "models")
            (List.filter (fun f => bool_decide (Setup.path_div "../ML/models" f ∈ fs))
                         (Setup.required_files ++ ["scaler_v4.joblib"])))
     ∪ ({["models"]} ∪ fs)).
Proof.
  intros Hdir. unfold Setup.copy_model_files.
  rewrite (bool_decide_eq_true_2 _ Hdir). cbn [negb].
  assert (Hsd : forall f g, Setup.path_div "../ML/models" f <> Setup.path_div "models" g).
  { intros f g. unfold Setup.path_div. cbn [String.append]. discriminate. }
  assert (HX : forall f, Setup.path_div "../ML/models" f ∈ ({["models"]} ∪ fs : gset string)
                         <-> Setup.path_div "../ML/models" f ∈ fs).
  { intros f. rewrite elem_of_union, elem_of_singleton. split; [|tauto].
    intros [E|H]; [|exact H]. unfold Setup.path_div in E. cbn [String.append] in E.
    discriminate. }
  pose proof (copy_loop (Setup.path_div "../ML/models") (Setup.path_div "models")
                fs ({["models"]} ∪ fs) (Setup.required_files ++ ["scaler_v4.joblib"])
                [] Hsd HX) as Hloop.
  rewrite fold_left_app in Hloop. cbn [fold_left app] in Hloop.
  rewrite Hloop. reflexivity.
Qed.

(** [copy_model_files] counts the optional scaler among the copied
    files: it returns [True] exactly when the source directory exists
    and holds at least three of the four files, so also when a required
    file is missing and the scaler is there; the missing file is then
    not in the local directory either.  It removes no path, and every
    file that it found is in the local directory afterwards. *)
Theorem copy_model_files_counts_scaler (fs : gset string) :
  let present f := bool_decide (Setup.path_div "../ML/models" f ∈ fs) in
  let found := List.filter present (Setup.required_files ++ ["scaler_v4.joblib"]) in
  (fst (Setup.copy_model_files fs) = true
   <-> "../ML/models" ∈ fs /\ (3 <= length found)%nat)
  /\ fs ⊆ snd (Setup.copy_model_files fs)
  /\ ("../ML/models" ∈ fs ->
      forall f, In f found ->
                Setup.path_div "models" f ∈ snd (Setup.copy_model_files fs))
  /\ ("../ML/models" ∈ fs ->
      present "heat_hazard_best_v4.joblib" = false ->
      present "feature_list_v4.joblib" = true ->
      present "threshold_v4.joblib" = true ->
      present "scaler_v4.joblib" = true ->
      "models/heat_hazard_best_v4.joblib" ∉ fs ->
      fst (Setup.copy_model_files fs) = true
      /\ "models/heat_hazard_best_v4.joblib" ∉ snd (Setup.copy_model_files fs)).
Proof.
  intros present found.
  destruct (decide ("../ML/models" ∈ fs)) as [Hdir|Hdir].
  - rewrite (copy_model_files_closed_form fs Hdir). fold present. fold found.
    cbn [fst snd]. split; [|split; [|split]].
    + rewrite Nat.leb_le. tauto.
    + intros x Hx. rewrite !elem_of_union. auto.
    + intros _ f Hf. apply elem_of_union. left.
      apply elem_of_list_to_set, list_elem_of_fmap. exists f.
      split; [reflexivity | now apply list_elem_of_In].
    + intros _ E1 E2 E3 E4 Hloc.
      assert (Ef : found = ["feature_list_v4.joblib"; "threshold_v4.joblib";
                            "scaler_v4.joblib"]).
      { subst found. unfold Setup.required_files. cbn [app List.filter].
        now rewrite E1, E2, E3, E4. }
      rewrite Ef. split; [reflexivity|].
      cbn [map list_to_set]. unfold Setup.path_div. cbn [String.append].
      rewrite !elem_of_union, !elem_of_singleton, elem_of_empty.
      intros [[H|[H|[H|[]]]]|[H|H]]; try discriminate. contradiction.
  - unfold Setup.copy_model_files.
    rewrite (bool_decide_eq_false_2 _ Hdir). cbn [negb fst snd].
    split; [split; [discriminate | tauto]|].
    split; [reflexivity|]. split; intros; contradiction.
Qed.

End SetupFacts.

(** A source directory with the feature list, the threshold and the
    scaler, but no model: the copy reports success. *)
Lemma copy_model_files_counts_scaler_witness :
  fst (Setup.copy_model_files
         (list_to_set ["../ML/models"; "../ML/models/feature_list_v4.joblib";
                       "../ML/models/threshold_v4.joblib";
                       "../ML/models/scaler_v4.joblib"])) = true
  /\ "models/heat_hazard_best_v4.joblib"
     ∉ snd (Setup.copy_model_files
              (list_to_set ["../ML/models"; "../ML/models/feature_list_v4.joblib";
                            "../ML/models/threshold_v4.joblib";
                            "../ML/models/scaler_v4.joblib"])).
Proof.
  apply (proj2 (proj2 (proj2 (copy_model_files_counts_scaler _)))).
  - apply (bool_decide_unpack _). vm_compute. exact I.
  - vm_compute. reflexivity.
  - vm_compute. reflexivity.
  - vm_compute. reflexivity.
  - vm_compute. reflexivity.
  - apply (bool_decide_unpack _). vm_compute. exact I.
Defined.

(** ** [add_engineered_features]: the columns it needs and writes *)
Section EngineeredColumns.
Context {F : Type} `{FloatOps F}.
Import Training.

Lemma col_time_insert_ne (m : gmap string (@cell F)) k v c :
  k <> c -> col_time (<[k := v]> m) c = col_time m c.
Proof. intros Hne. unfold col_time. now rewrite lookup_insert_ne. Qed.

Lemma col_float_insert_ne (m : gmap string (@cell F)) k v c :
  k <> c -> col_float (<[k := v]> m) c = col_float m c.
Proof. intros Hne. unfold col_float. now rewrite lookup_insert_ne. Qed.

Lemma col_int_insert_ne (m : gmap string (@cell F)) k v c :
  k <> c -> col_int (<[k := v]> m) c = col_int m c.
Proof. intros Hne. unfold col_int. now rewrite lookup_insert_ne. Qed.

Lemma col_int_insert_eq (m : gmap string (@cell F)) k z :
  col_int (<[k := C_int z]> m) k = Some z.
Proof. unfold col_int. now rewrite lookup_insert_eq. Qed.

(** The frame that [add_engineered_features] returns when the six raw
    columns can be read. *)
Lemma add_engineered_features_eq (df : gmap string (@cell F)) t temp tmin tavg lat lon :
  col_time df "timestamp" = Some t ->
  col_float df "temp" = Some temp -> col_float df "tmin" = Some tmin ->
  col_float df "tavg" = Some tavg ->
  col_float df "lat" = Some lat -> col_float df "lon" = Some lon ->
  add_engineered_features df
  = Some (<["month_cos" := C_float (f_cos (Features.angle (Dates.month (ts_date t)) 12))]>
         (<["month_sin" := C_float (f_sin (Features.angle (Dates.month (ts_date t)) 12))]>
         (<["hour_cos" := C_float (f_cos (Features.angle (ts_hour t) 24))]>
         (<["hour_sin" := C_float (f_sin (Features.angle (ts_hour t) 24))]>
         (<["dist_center" :=
              C_float (f_hypot (f_sub lat (f_lit (dec 129716 10000)))
                               (f_sub lon (f_lit (dec 775946 10000))))]>
         (<["is_weekend" := C_int (Features.is_weekend (Dates.weekday (ts_date t)))]>
         (<["is_peak" := C_int (Features.is_peak (ts_hour t))]>
         (<["heat_index" := C_float (f_add temp (f_mul (f_lit (dec 5 10)) tavg))]>
         (<["temp_range" := C_float (f_sub temp tmin)]>
         (<["month" := C_int (Dates.month (ts_date t))]>
         (<["dayofweek" := C_int (Dates.weekday (ts_date t))]>
         (<["hour" := C_int (ts_hour t)]> df)))))))))))).
Proof.
  intros Ht Htemp Htmin Htavg Hlat Hlon. unfold add_engineered_features.
  repeat first
    [ rewrite col_time_insert_ne by discriminate
    | rewrite col_float_insert_ne by discriminate
    | rewrite col_int_insert_ne by discriminate
    | rewrite col_int_insert_eq
    | rewrite Ht | rewrite Htemp | rewrite Htmin | rewrite Htavg
    | rewrite Hlat | rewrite Hlon
    | progress cbv beta iota delta [mbind option_bind] ].
  reflexivity.
Qed.

(** [add_engineered_features] returns exactly when the frame has a time
    stamp column of times and numeric columns [temp], [tmin], [tavg],
    [lat] and [lon]; otherwise pandas raises.  It then writes twelve
    columns, replacing those of them that the frame already had, and
    leaves every other column as it was; the hour, the week day and the
    month come from the time stamp, and the two flags from those. *)
Theorem add_engineered_features_columns (df : gmap string (@cell F)) :
  let engineered :=
    ["hour"; "dayofweek"; "month"; "temp_range"; "heat_index"; "is_peak";
     "is_weekend"; "dist_center"; "hour_sin"; "hour_cos"; "month_sin"; "month_cos"] in
  (is_Some (add_engineered_features df)
   <-> is_Some (col_time df "timestamp")
       /\ is_Some (col_float df "temp") /\ is_Some (col_float df "tmin")
       /\ is_Some (col_float df "tavg")
       /\ is_Some (col_float df "lat") /\ is_Some (col_float df "lon"))
  /\ (forall df', add_engineered_features df = Some df' ->
        (forall c, c ∉ engineered -> df' !! c = df !! c)
        /\ (forall c, c ∈ engineered -> is_Some (df' !! c))
        /\ exists t,
             col_time df "timestamp" = Some t
             /\ df' !! "hour" = Some (C_int (ts_hour t))
             /\ df' !! "dayofweek" = Some (C_int (Dates.weekday (ts_date t)))
             /\ df' !! "month" = Some (C_int (Dates.month (ts_date t)))
             /\ df' !! "is_peak" = Some (C_int (Features.is_peak (ts_hour t)))
             /\ df' !! "is_weekend"
                = Some (C_int (Features.is_weekend (Dates.weekday (ts_date t))))).
Proof.
  intros engineered.
  destruct (col_time df "timestamp") as [t|] eqn:Ht.
  2:{ assert (E : add_engineered_features df = None).
      { unfold add_engineered_features. rewrite Ht. reflexivity. }
      rewrite E. split.
      - split; [intros [? ?]; discriminate | intros ([? ?] & _); discriminate].
      - intros df' E'. discriminate. }
  assert (Hnone : forall c, col_float df c = None ->
            c = "temp" \/ c = "tmin" \/ c = "tavg" \/ c = "lat" \/ c = "lon" ->
            add_engineered_features df = None).
  { intros c Hc Hcase. unfold add_engineered_features.
    destruct Hcase as [->|[->|[->|[->| ->]]]];
      repeat first
        [ reflexivity
        | rewrite col_time_insert_ne by discriminate
        | rewrite col_float_insert_ne by discriminate
        | rewrite col_int_insert_ne by discriminate
        | rewrite col_int_insert_eq
        | rewrite Ht
        | rewrite Hc
        | progress cbv beta iota delta [mbind option_bind]
        | match goal with
          | |- context [match col_float df ?c with _ => _ end] =>
              destruct (col_float df c) eqn:?
          end ]. }
  destruct (col_float df "temp") as [temp|] eqn:Htemp.
  2:{ rewrite (Hnone "temp" Htemp) by auto. split.
      - split; [intros [? ?]; discriminate | intros (_ & [? ?] & _); discriminate].
      - intros df' E'. discriminate. }
  destruct (col_float df "tmin") as [tmin|] eqn:Htmin.
  2:{ rewrite (Hnone "tmin" Htmin) by auto. split.
      - split; [intros [? ?]; discriminate | intros (_ & _ & [? ?] & _); discriminate].
      - intros df' E'. discriminate. }
  destruct (col_float df "tavg") as [tavg|] eqn:Htavg.
  2:{ rewrite (Hnone "tavg" Htavg) by auto. split.
      - split; [intros [? ?]; discriminate
               | intros (_ & _ & _ & [? ?] & _); discriminate].
      - intros df' E'. discriminate. }
  destruct (col_float df "lat") as [lat|] eqn:Hlat.
  2:{ rewrite (Hnone "lat" Hlat) by auto 10. split.
      - split; [intros [? ?]; discriminate
               | intros (_ & _ & _ & _ & [? ?] & _); discriminate].
      - intros df' E'. discriminate. }
  destruct (col_float df "lon") as [lon|] eqn:Hlon.
  2:{ rewrite (Hnone "lon" Hlon) by auto 10. split.
      - split; [intros [? ?]; discriminate
               | intros (_ & _ & _ & _ & _ & [? ?]); discriminate].
      - intros df' E'. discriminate. }
  rewrite (add_engineered_features_eq df t temp tmin tavg lat lon) by assumption.
  split; [split; eauto 10|].
  intros df' E. inversion E; subst df'. clear E.
  split; [|split].
  - intros c Hc. subst engineered.
    rewrite !not_elem_of_cons in Hc.
    destruct Hc as (? & ? & ? & ? & ? & ? & ? & ? & ? & ? & ? & ? & _).
    now rewrite !lookup_insert_ne by congruence.
  - intros c Hc. subst engineered. rewrite !elem_of_cons, elem_of_nil in Hc.
    repeat (destruct Hc as [->|Hc];
            [repeat (rewrite lookup_insert_ne by discriminate);
             rewrite lookup_insert_eq; eauto|]).
    destruct Hc.
  - exists t. split; [reflexivity|].
    repeat split;
      repeat (rewrite lookup_insert_ne by discriminate);
      now rewrite lookup_insert_eq.
Qed.

End EngineeredColumns.

(** ** [clean_and_export_features] *)
Section CleaningFacts.
Import Cleaning.

Lemma cleaning_take_rows_In {A} (mask : list bool) (values : list A) (x : A) :
  In x (take_rows mask values) ->
  exists i, mask !! i = Some true /\ values !! i = Some x.
Proof.
  revert values. induction mask as [|b mask IH]; intros [|v values] Hin;
    cbn [take_rows] in Hin; try contradiction.
  destruct b.
  - destruct Hin as [->|Hin]; [exists 0%nat; auto|].
    destruct (IH _ Hin) as (i & H1 & H2). exists (S i). auto.
  - destruct (IH _ Hin) as (i & H1 & H2). exists (S i). auto.
Qed.

Lemma cleaning_getitem_Some (df : list (string * column)) (c : string) :
  c ∈ map fst df -> exists col, getitem df c = Some col /\ In (c, col) df.
Proof.
  unfold getitem. induction df as [|[n col] df IH]; cbn [map fst List.find].
  - intros Hin. inversion Hin.
  - intros Hin. destruct (String.eqb_spec n c) as [->|Hne].
    + exists col. split; [reflexivity | now left].
    + apply elem_of_cons in Hin as [Hin|Hin]; [congruence|].
      destruct (IH Hin) as (col' & E & Hc). exists col'. split; [exact E | now right].
Qed.

Lemma cleaning_getitem_In (df : list (string * column)) (c : string) (col : column) :
  getitem df c = Some col -> In (c, col) df.
Proof.
  unfold getitem. induction df as [|[n col0] df IH]; cbn [List.find fst];
    [discriminate|].
  destruct (String.eqb_spec n c) as [->|Hne].
  - cbn [option_map snd]. intros E. inversion E; subst. left. reflexivity.
  - intros E. right. now apply IH.
Qed.

Lemma cleaning_select_names (df : list (string * column)) (cols : list string) :
  Forall (fun c => c ∈ map fst df) cols -> map fst (select df cols) = cols.
Proof.
  unfold select. induction 1 as [|c cols Hc Hrest IH]; [reflexivity|].
  cbn [omap list_omap]. destruct (cleaning_getitem_Some df c Hc) as (col & E & _).
  rewrite E. cbn [option_map map fst]. f_equal. exact IH.
Qed.

Lemma cleaning_select_In (df : list (string * column)) (cols : list string) c col :
  In (c, col) (select df cols) -> getitem df c = Some col.
Proof.
  unfold select. induction cols as [|c0 cols IH]; cbn [omap list_omap]; [intros []|].
  destruct (getitem df c0) as [col0|] eqn:E; cbn [option_map]; [|exact IH].
  intros [Heq|Hin]; [|now apply IH]. inversion Heq; subst. exact E.
Qed.

Lemma clean_names (df : list (string * column)) :
  map fst (clean df) = available_columns df.
Proof.
  unfold clean, dropna_object. rewrite !map_map. cbn [fst].
  assert (E : forall l, map (fun x => fst (fill_numeric x)) l = map fst l).
  { intros l. apply map_ext. intros [n c]. unfold fill_numeric. cbn.
    destruct c; reflexivity. }
  rewrite E. apply cleaning_select_names. apply List.Forall_forall. intros c Hc.
  apply filter_In in Hc as [_ Hc]. now apply bool_decide_eq_true in Hc.
Qed.

(** Every column of the cleaned frame is a selected column of the frame,
    filled if it is numeric, with the rows of one mask. *)
Lemma clean_columns (df : list (string * column)) c col' :
  let filled := map fill_numeric (select df (available_columns df)) in
  In (c, col') (clean df) ->
  exists col,
    getitem df c = Some col
    /\ In (c, snd (fill_numeric (c, col))) filled
    /\ col' = take_rows_of (dropna_mask filled) (snd (fill_numeric (c, col))).
Proof.
  unfold clean, dropna_object.
  set (filled := map fill_numeric (select df (available_columns df))).
  cbn zeta.
  intros Hin. apply in_map_iff in Hin as ([n col1] & Heq & Hin).
  cbn [fst snd] in Heq. inversion Heq; subst. clear Heq.
  unfold filled in Hin. apply in_map_iff in Hin as ([n0 col0] & Heq & Hin).
  assert (n0 = c) by (unfold fill_numeric in Heq; cbn in Heq; destruct col0;
                      inversion Heq; reflexivity).
  subst n0. exists col0. split; [now apply cleaning_select_In in Hin|].
  rewrite Heq. cbn [snd]. split; [|reflexivity].
  unfold filled. apply in_map_iff. exists (c, col0). split; [exact Heq | exact Hin].
Qed.

Lemma dropna_mask_true (df : list (string * column)) (i : nat) :
  dropna_mask df !! i = Some true -> forallb (notna_at i) df = true.
Proof.
  unfold dropna_mask. rewrite list_lookup_fmap.
  destruct (seq 0 (nrows df) !! i) as [j|] eqn:E; [|discriminate].
  apply lookup_seq in E as [-> _]. cbn. congruence.
Qed.

Lemma cleaning_column_mean_None (values : list (option Qc)) :
  column_mean values = None <-> Forall (fun x => x = None) values.
Proof.
  unfold column_mean, Rolling.mean. split.
  - destruct (omap id values) as [|q l] eqn:E; [|discriminate]. intros _.
    induction values as [|[x|] values IH]; [constructor| |].
    + cbn in E. discriminate.
    + constructor; [reflexivity|]. apply IH. exact E.
  - intros Hall. replace (omap id values) with (@nil Qc); [reflexivity|].
    induction Hall as [|x values -> _ IH]; [reflexivity|]. exact IH.
Qed.

Lemma available_columns_elem (df : list (string * column)) (c : string) :
  c ∈ feature_columns -> c ∈ available_columns df <-> c ∈ map fst df.
Proof.
  intros Hc. unfold available_columns. apply list_elem_of_In in Hc. split.
  - intros H. apply list_elem_of_In, filter_In in H as [_ H].
    now apply bool_decide_eq_true in H.
  - intros H. apply list_elem_of_In, filter_In. split; [exact Hc|].
    now apply bool_decide_eq_true.
Qed.

(** For a frame with distinct column names, [clean_and_export_features]
    writes the cleaned frame to the output path, also when the summary
    that follows raises.  The cleaned frame has the feature columns that
    the frame has, in the order of the feature list; no column of
    strings has a null left; a numeric column has a null left only if
    the whole column was null.  The call returns the cleaned frame when
    the frame has the columns [timestamp], [incident_type] and
    [landcover_type], and raises [KeyError] for one that is missing
    otherwise. *)
Theorem clean_and_export_features_cleans (df : list (string * column))
    (output_path : string) (Hcolumns : NoDup (map fst df)) :
  let cleaned := clean df in
  let summary := ["timestamp"; "incident_type"; "landcover_type"] in
  fst (clean_and_export_features df output_path) = [(output_path, cleaned)]
  /\ map fst cleaned = available_columns df
  /\ (forall c values, In (c, Object values) cleaned ->
        Forall (fun v => v <> None) values)
  /\ (forall c values, In (c, Numeric values) cleaned -> In None values ->
        exists values0,
          getitem df c = Some (Numeric values0)
          /\ Forall (fun v => v = None) values0)
  /\ (Forall (fun c => c ∈ map fst df) summary ->
        snd (clean_and_export_features df output_path) = inr cleaned)
  /\ (forall c, c ∈ summary -> c ∉ map fst df ->
        exists c', (c' ∈ summary) /\ (c' ∉ map fst df)
          /\ snd (clean_and_export_features df output_path)
             = inl (Py.KeyError c')).
Proof.
  cbn zeta. split; [reflexivity|]. split; [apply clean_names|].
  split; [|split].
  - intros c values Hin. apply clean_columns in Hin as (col & _ & Hf & Heq).
    destruct col as [v0|v0|v0]; cbn [fill_numeric snd fst take_rows_of] in *;
      try discriminate.
    injection Heq as Hv. apply List.Forall_forall. intros x Hx.
    rewrite Hv in Hx. apply cleaning_take_rows_In in Hx as (i & Hm & Hx).
    apply dropna_mask_true in Hm. rewrite forallb_forall in Hm.
    specialize (Hm _ Hf). unfold notna_at in Hm. cbn [snd] in Hm.
    rewrite Hx in Hm. destruct x; [discriminate | discriminate].
  - intros c values Hin Hnull. apply clean_columns in Hin as (col & Hg & _ & Heq).
    destruct col as [v0|v0|v0]; cbn [fill_numeric snd fst take_rows_of] in *;
      try discriminate.
    injection Heq as Hv. exists v0. split; [exact Hg|].
    apply cleaning_column_mean_None. rewrite Hv in Hnull.
    apply cleaning_take_rows_In in Hnull as (i & _ & Hx).
    destruct (column_mean v0) as [m|]; [|reflexivity].
    unfold fillna in Hx. rewrite list_lookup_fmap in Hx.
    destruct (v0 !! i) as [[x|]|]; discriminate.
  - assert (Hmem : forall c, c ∈ feature_columns ->
                bool_decide (c ∈ map fst (clean df)) = bool_decide (c ∈ map fst df)).
    { intros c Hc. rewrite clean_names. apply bool_decide_ext.
      now apply available_columns_elem. }
    assert (Hf : Forall (fun c => c ∈ feature_columns)
                   ["timestamp"; "incident_type"; "landcover_type"]).
    { repeat constructor; apply (bool_decide_unpack _); vm_compute; exact I. }
    unfold clean_and_export_features. cbn [snd List.find].
    inversion Hf as [|? ? H1 Hf1]; subst. inversion Hf1 as [|? ? H2 Hf2]; subst.
    inversion Hf2 as [|? ? H3 _]; subst.
    rewrite (Hmem _ H1), (Hmem _ H2), (Hmem _ H3).
    split.
    + intros Hall. inversion Hall as [|? ? A1 Hall1]; subst.
      inversion Hall1 as [|? ? A2 Hall2]; subst.
      inversion Hall2 as [|? ? A3 _]; subst.
      rewrite !bool_decide_eq_true_2 by assumption. reflexivity.
    + intros c Hc Hmiss.
      destruct (decide ("timestamp" ∈ map fst df)) as [A1|A1].
      2:{ exists "timestamp". rewrite (bool_decide_eq_false_2 _ A1).
          repeat split; [apply (bool_decide_unpack _); vm_compute; exact I | exact A1]. }
      destruct (decide ("incident_type" ∈ map fst df)) as [A2|A2].
      2:{ exists "incident_type". rewrite (bool_decide_eq_true_2 _ A1).
          rewrite (bool_decide_eq_false_2 _ A2).
          repeat split; [apply (bool_decide_unpack _); vm_compute; exact I | exact A2]. }
      destruct (decide ("landcover_type" ∈ map fst df)) as [A3|A3].
      2:{ exists "landcover_type". rewrite (bool_decide_eq_true_2 _ A1).
          rewrite (bool_decide_eq_true_2 _ A2).
          rewrite (bool_decide_eq_false_2 _ A3).
          repeat split; [apply (bool_decide_unpack _); vm_compute; exact I | exact A3]. }
      exfalso. apply Hmiss.
      repeat (apply elem_of_cons in Hc as [->|Hc]; [assumption|]).
      inversion Hc.
Qed.

End CleaningFacts.

(** The sample frame has the three columns of the summary: the cleaned
    frame is returned. *)
Lemma clean_and_export_features_cleans_witness :
  NoDup (map fst Cleaning.sample)
  /\ snd (Cleaning.clean_and_export_features Cleaning.sample "features.csv")
     = inr (Cleaning.clean Cleaning.sample).
Proof.
  assert (H : NoDup (map fst Cleaning.sample)).
  { apply (bool_decide_unpack _). vm_compute. exact I. }
  split; [exact H|].
  apply (proj1 (proj2 (proj2 (proj2 (proj2
           (clean_and_export_features_cleans Cleaning.sample "features.csv" H)))))).
  repeat constructor; apply (bool_decide_unpack _); vm_compute; exact I.
Defined.
